(** * A shallow embedding of the [usb] package (host-side USB access layer)

    The Go sources embedded here are [device.go], [interface.go] (which also
    carries the descriptor-to-model builder and the [gusb] claim/driver
    helpers), the endpoint transfer file and the context/registry file.

    Modelling conventions.
    - Go [int] values are [Z]; the single-byte descriptor fields of package
      [gusb] ([uint8]) are [Z] with the wrap-around of their arithmetic
      written out ([u8]).
    - A Go pointer is a location ([loc]) in a typed store; the stores make up
      the [Heap].  A [*Configuration] points INTO a backing array, so it is a
      pair of the array's location and an index.
    - A run-time panic (index or slice bound out of range, nil dereference)
      is the [Panic] outcome; a loop that ran out of fuel is [OutOfFuel].
    - Everything outside the process (the files of the metadata filesystem,
      the identifier database, the data sources, the kernel) is an oracle:
      the [World] record and the kernel transition function of section
      [Kernel].
    - The one goroutine of the sources, the transfer that [WriteContext] and
      [ReadContext] spawn, runs when the schedule ([race]) lets it, on the
      heap it then finds.
    - A location that is absent from its store stands for no object.  Go has
      no dangling pointers, so this never arises on a heap the program
      built; where the model has to answer, a dereference panics and a nil
      test sees nil.
    - The log lines of package [gusb] are kept ([logged]); those of the
      builder, which change nothing else, are not. *)

From Stdlib Require Import ZArith List String Lia Bool.
From stdpp Require Import base option list gmap strings.

Local Open Scope Z_scope.
Set Warnings "-register-all".

(** ** Outcomes of partial operations *)

Inductive outcome (A : Type) : Type :=
| Ok (a : A)
| Panic (msg : string)
| OutOfFuel.
Arguments Ok {A} a.
Arguments Panic {A} msg.
Arguments OutOfFuel {A}.

#[global] Instance outcome_ret : MRet outcome := fun A a => Ok a.
#[global] Instance outcome_bind : MBind outcome := fun A B k m =>
  match m with
  | Ok a => k a
  | Panic s => Panic s
  | OutOfFuel => OutOfFuel
  end.

Definition index_out_of_range : string := "runtime error: index out of range".
Definition nil_dereference : string :=
  "runtime error: invalid memory address or nil pointer dereference".

(** ** Errors *)

(** Go [error] values: [errors.New], [fmt.Errorf] (kept as the format string,
    its integer arguments and the error wrapped by a [%w] verb, if any), a
    kernel [unix.Errno], and [context.Canceled]. *)
Inductive error : Type :=
| errors_New (s : string)
| fmt_Errorf (format : string) (args : list Z) (wrapped : option error)
| Errno (e : Z)
| context_Canceled.

Definition ENODATA : error := Errno 61.

Definition error_eqb_ENODATA (e : option error) : bool :=
  match e with
  | Some (Errno 61) => true
  | _ => false
  end.

Abbreviation loc := nat.
Definition File := Z.

(** Conversions to the unsigned fixed-width types. *)
Definition u8 (z : Z) : Z := z mod 2 ^ 8.
Definition u16 (z : Z) : Z := z mod 2 ^ 16.
Definition u32 (z : Z) : Z := z mod 2 ^ 32.

(** ** Package gusb: descriptors and the kernel control surface *)

Module gusb.

(** The descriptor records.  Their declarations are not part of the
    sources at hand; the fields are the ones the builder reads, the
    counts, numbers and selectors being the single-byte fields of the USB
    wire format. *)
Record EndpointDescriptor := mkEndpointDescriptor {
  Address : Z;
  TransferType : Z;
  MaxPacketSize : Z
}.

Record InterfaceDescriptor := mkInterfaceDescriptor {
  InterfaceNumber : Z;
  NumEndpoints : Z;
  Endpoints : list EndpointDescriptor
}.

Record ConfigDescriptor := mkConfigDescriptor {
  SelfPowered : bool;
  RemoteWakeup : bool;
  MaxPower : Z;
  Value : Z;
  NumInterfaces : Z;
  Interfaces : list InterfaceDescriptor
}.

Record PathInfoT := mkPathInfo {
  Bus : Z;
  Dev : Z;
  SysPath : string
}.

Record DeviceDescriptor := mkDeviceDescriptor {
  Vendor : Z;
  Product : Z;
  NumConfigs : Z;
  Configs : list ConfigDescriptor;
  PathInfo : PathInfoT
}.

(** Requests of the kernel's USB character-device interface. *)
Inductive ioctl_code := USBDEVFS_DISCONNECT | USBDEVFS_CONNECT.

Inductive request :=
| USBDEVFS_IOCTL (ifno : Z) (code : ioctl_code) (data : Z)
| USBDEVFS_CLAIMINTERFACE (ifno : Z)
| USBDEVFS_RELEASEINTERFACE (ifno : Z)
| USBDEVFS_GETDRIVER (ifno : Z)
| USBDEVFS_BULK (ep len timeout : Z) (data : list Z)
| USBDEVFS_GET_SPEED.

(** What one ioctl gives back: the integer result, the error, and the
    bytes the kernel wrote through the argument pointer, if it wrote. *)
Record response := mkResponse {
  r : Z;
  errno : option error;
  out : option (list Z)
}.

(** Modelled from the spec: the name buffer of the get-bound-driver
    request is "a fixed-size name buffer"; its declaration is not in the
    sources, the size is the kernel header's (255 characters and a NUL). *)
Definition USBDEVFS_MAXDRIVERNAME : nat := 255.
Definition zeroDriver : list Z := replicate (S USBDEVFS_MAXDRIVERNAME) 0.

Definition string_of_bytes (bs : list Z) : string :=
  string_of_list_ascii ((fun b => Ascii.ascii_of_N (Z.to_N b)) <$> bs).

Section Kernel.

(** The kernel is a transition system on a state [K]; [Ioctl] runs one
    transition and records the call. *)
Variable K : Type.
Variable kernel : K -> option File -> request -> K * response.

Record sys := mkSys {
  kstate : K;
  calls : list (option File * request);
  logged : list string
}.

Definition Ioctl (s : sys) (f : option File) (req : request) : sys * response :=
  let '(k', resp) := kernel (kstate s) f req in
  (mkSys k' (calls s ++ [(f, req)]) (logged s), resp).

Definition log_Printf (s : sys) (msg : string) : sys :=
  mkSys (kstate s) (calls s) (logged s ++ [msg]).

Definition Claim (s : sys) (f : option File) (ifno : Z) : sys * option error :=
  let '(s1, resp1) := Ioctl s f (USBDEVFS_IOCTL ifno USBDEVFS_DISCONNECT 0) in
  let s1' :=
    if error_eqb_ENODATA (errno resp1) then s1
    else if r resp1 =? -1 then log_Printf s1 "ERROR: driver disconnect failed"
    else s1 in
  let '(s2, resp2) := Ioctl s1' f (USBDEVFS_CLAIMINTERFACE ifno) in
  if r resp2 =? -1 then (s2, errno resp2) else (s2, None).

Definition Release (s : sys) (f : option File) (ifno : Z) : sys * option error :=
  let '(s1, resp1) := Ioctl s f (USBDEVFS_RELEASEINTERFACE ifno) in
  if r resp1 =? -1 then (s1, errno resp1)
  else
    let '(s2, resp2) := Ioctl s1 f (USBDEVFS_IOCTL ifno USBDEVFS_CONNECT 0) in
    if r resp2 =? -1 then (log_Printf s2 "ERROR: driver connect failed", None)
    else (s2, None).

Definition GetDriver (s : sys) (f : option File) (ifno : Z)
  : sys * (string * option error) :=
  let '(s1, resp) := Ioctl s f (USBDEVFS_GETDRIVER (u32 ifno)) in
  let Driver := default zeroDriver (out resp) in
  if error_eqb_ENODATA (errno resp) then (s1, (string_of_bytes Driver, None))
  else
    match errno resp with
    | Some err => (log_Printf s1 "ERROR: Could not get driver", ("", Some err))
    | None => (s1, (string_of_bytes Driver, None))
    end.

End Kernel.

Arguments kstate {K} _.
Arguments calls {K} _.
Arguments logged {K} _.
Arguments mkSys {K} _ _ _.
Arguments Ioctl {K} _ _ _ _.
Arguments log_Printf {K} _ _.
Arguments Claim {K} _ _ _ _.
Arguments Release {K} _ _ _ _.
Arguments GetDriver {K} _ _ _ _.

End gusb.

(** ** The descriptor model ([device.go], [interface.go], endpoint file) *)

Record Endpoint := mkEndpoint {
  Address : Z;
  TransferType : Z;
  MaxPacketSize : Z;
  MaxISOPacketSize : Z;
  ep_i : option loc            (* i *Interface *)
}.

Record Interface := mkInterface {
  ID : Z;
  Alternate : Z;
  Endpoints : list Endpoint;
  if_d : option loc            (* d *Device *)
}.

Record Configuration := mkConfiguration {
  SelfPowered : bool;
  RemoteWakeup : bool;
  BatteryPowered : bool;
  MaxPower : Z;
  Value : Z;
  Interfaces : list Interface;
  cfg_d : option loc           (* d *Device *)
}.

(** Slice header of a [[]Configuration]: backing array and length. *)
Record slice := mkSlice { s_arr : loc; s_len : nat }.

(** A [*Configuration] obtained as [&d.Configs[i]]. *)
Record cfgptr := mkCfgptr { p_arr : loc; p_idx : nat }.

Inductive backingKind := backingSysfs | backingUsbfs.

Definition SpeedUnknown : Z := 0.

Record Device := mkDevice {
  Bus : Z;
  DeviceNum : Z;               (* field Device *)
  Port : Z;
  Ports : list Z;
  Vendor : Z;
  vendorNameFromIdFile : string;
  vendorNameFromDevice : string;
  Product : Z;
  productNameFromIdFile : string;
  productNameFromDevice : string;
  Parent : option loc;         (* *Device *)
  Speed : Z;
  Configs : slice;
  ActiveConfig : option cfgptr;
  dataSource : option backingKind;
  ctx : option loc;            (* *Context *)
  f : option File;
  SysPath : string
}.

(** Field assignments [d.X = v]. *)
Definition set_Bus (v : Z) (d : Device) : Device :=
  mkDevice v (DeviceNum d) (Port d) (Ports d) (Vendor d) (vendorNameFromIdFile d) (vendorNameFromDevice d) (Product d) (productNameFromIdFile d) (productNameFromDevice d) (Parent d) (Speed d) (Configs d) (ActiveConfig d) (dataSource d) (ctx d) (f d) (SysPath d).
Definition set_DeviceNum (v : Z) (d : Device) : Device :=
  mkDevice (Bus d) v (Port d) (Ports d) (Vendor d) (vendorNameFromIdFile d) (vendorNameFromDevice d) (Product d) (productNameFromIdFile d) (productNameFromDevice d) (Parent d) (Speed d) (Configs d) (ActiveConfig d) (dataSource d) (ctx d) (f d) (SysPath d).
Definition set_Port (v : Z) (d : Device) : Device :=
  mkDevice (Bus d) (DeviceNum d) v (Ports d) (Vendor d) (vendorNameFromIdFile d) (vendorNameFromDevice d) (Product d) (productNameFromIdFile d) (productNameFromDevice d) (Parent d) (Speed d) (Configs d) (ActiveConfig d) (dataSource d) (ctx d) (f d) (SysPath d).
Definition set_Ports (v : list Z) (d : Device) : Device :=
  mkDevice (Bus d) (DeviceNum d) (Port d) v (Vendor d) (vendorNameFromIdFile d) (vendorNameFromDevice d) (Product d) (productNameFromIdFile d) (productNameFromDevice d) (Parent d) (Speed d) (Configs d) (ActiveConfig d) (dataSource d) (ctx d) (f d) (SysPath d).
Definition set_vendorNameFromDevice (v : string) (d : Device) : Device :=
  mkDevice (Bus d) (DeviceNum d) (Port d) (Ports d) (Vendor d) (vendorNameFromIdFile d) v (Product d) (productNameFromIdFile d) (productNameFromDevice d) (Parent d) (Speed d) (Configs d) (ActiveConfig d) (dataSource d) (ctx d) (f d) (SysPath d).
Definition set_productNameFromDevice (v : string) (d : Device) : Device :=
  mkDevice (Bus d) (DeviceNum d) (Port d) (Ports d) (Vendor d) (vendorNameFromIdFile d) (vendorNameFromDevice d) (Product d) (productNameFromIdFile d) v (Parent d) (Speed d) (Configs d) (ActiveConfig d) (dataSource d) (ctx d) (f d) (SysPath d).
Definition set_Parent (v : option loc) (d : Device) : Device :=
  mkDevice (Bus d) (DeviceNum d) (Port d) (Ports d) (Vendor d) (vendorNameFromIdFile d) (vendorNameFromDevice d) (Product d) (productNameFromIdFile d) (productNameFromDevice d) v (Speed d) (Configs d) (ActiveConfig d) (dataSource d) (ctx d) (f d) (SysPath d).
Definition set_Speed (v : Z) (d : Device) : Device :=
  mkDevice (Bus d) (DeviceNum d) (Port d) (Ports d) (Vendor d) (vendorNameFromIdFile d) (vendorNameFromDevice d) (Product d) (productNameFromIdFile d) (productNameFromDevice d) (Parent d) v (Configs d) (ActiveConfig d) (dataSource d) (ctx d) (f d) (SysPath d).
Definition set_ActiveConfig (v : option cfgptr) (d : Device) : Device :=
  mkDevice (Bus d) (DeviceNum d) (Port d) (Ports d) (Vendor d) (vendorNameFromIdFile d) (vendorNameFromDevice d) (Product d) (productNameFromIdFile d) (productNameFromDevice d) (Parent d) (Speed d) (Configs d) v (dataSource d) (ctx d) (f d) (SysPath d).
Definition set_dataSource (v : option backingKind) (d : Device) : Device :=
  mkDevice (Bus d) (DeviceNum d) (Port d) (Ports d) (Vendor d) (vendorNameFromIdFile d) (vendorNameFromDevice d) (Product d) (productNameFromIdFile d) (productNameFromDevice d) (Parent d) (Speed d) (Configs d) (ActiveConfig d) v (ctx d) (f d) (SysPath d).
Definition set_ctx (v : option loc) (d : Device) : Device :=
  mkDevice (Bus d) (DeviceNum d) (Port d) (Ports d) (Vendor d) (vendorNameFromIdFile d) (vendorNameFromDevice d) (Product d) (productNameFromIdFile d) (productNameFromDevice d) (Parent d) (Speed d) (Configs d) (ActiveConfig d) (dataSource d) v (f d) (SysPath d).
Definition set_f (v : option File) (d : Device) : Device :=
  mkDevice (Bus d) (DeviceNum d) (Port d) (Ports d) (Vendor d) (vendorNameFromIdFile d) (vendorNameFromDevice d) (Product d) (productNameFromIdFile d) (productNameFromDevice d) (Parent d) (Speed d) (Configs d) (ActiveConfig d) (dataSource d) (ctx d) v (SysPath d).
Definition set_SysPath (v : string) (d : Device) : Device :=
  mkDevice (Bus d) (DeviceNum d) (Port d) (Ports d) (Vendor d) (vendorNameFromIdFile d) (vendorNameFromDevice d) (Product d) (productNameFromIdFile d) (productNameFromDevice d) (Parent d) (Speed d) (Configs d) (ActiveConfig d) (dataSource d) (ctx d) (f d) v.

(** ** getPorts ([interface.go] 234-248) *)

Section Ports.

Variable devs : list Device.   (* the device store the Parent pointers point into *)

(** The walk [for dev := &d; dev != nil; dev = dev.Parent]: one unit of
    fuel per device visited. *)
Fixpoint walkPorts (fuel : nat) (dev : Device) (ports : list Z) : outcome (list Z) :=
  match fuel with
  | O => OutOfFuel
  | S fuel' =>
      let ports' := if Port dev =? 0 then ports else ports ++ [Port dev] in
      match Parent dev with
      | None => Ok ports'
      | Some p =>
          match devs !! p with
          | Some parent => walkPorts fuel' parent ports'
          | None => Panic nil_dereference
          end
      end
  end.

(** [ports[i], ports[swap] = ports[swap], ports[i]] for [i] from [n-1]
    down to [0]. *)
Fixpoint reverseLoop (n : nat) (ports : list Z) : outcome (list Z) :=
  match n with
  | O => Ok ports
  | S i =>
      let swap := (length ports - 1 - i)%nat in
      match ports !! swap, ports !! i with
      | Some a, Some b => reverseLoop i (<[swap := b]> (<[i := a]> ports))
      | _, _ => Panic index_out_of_range
      end
  end.

Definition getPorts (fuel : nat) (d : Device) : outcome (list Z) :=
  ports ← walkPorts fuel d [];
  reverseLoop (length ports / 2)%nat ports.

(** The devices on the Parent chain of [d], [d] itself first. *)
Inductive chain : Device -> list Device -> Prop :=
| chain_root d : Parent d = None -> chain d [d]
| chain_hop d p parent l :
    Parent d = Some p -> devs !! p = Some parent -> chain parent l ->
    chain d (d :: l).

Definition nonzero (z : Z) : bool := negb (z =? 0).

End Ports.

(** ** Context / registry (context file) *)

Record Context := mkContext {
  done : bool;                 (* the channel [done] has been closed *)
  closeOnce : bool;            (* the [sync.Once] has run *)
  devices : gmap loc bool      (* map[*Device]bool *)
}.

(** ** The heap: one store per pointed-to type *)

Record Heap := mkHeap {
  h_devs : list Device;
  h_cfgs : list (list Configuration);   (* backing arrays of [Configs] slices *)
  h_intfs : list Interface;
  h_ctxs : list Context
}.

Definition emptyHeap : Heap := mkHeap [] [] [] [].

Definition set_devs (v : list Device) (h : Heap) : Heap :=
  mkHeap v (h_cfgs h) (h_intfs h) (h_ctxs h).
Definition set_cfgs (v : list (list Configuration)) (h : Heap) : Heap :=
  mkHeap (h_devs h) v (h_intfs h) (h_ctxs h).
Definition set_intfs (v : list Interface) (h : Heap) : Heap :=
  mkHeap (h_devs h) (h_cfgs h) v (h_ctxs h).
Definition set_ctxs (v : list Context) (h : Heap) : Heap :=
  mkHeap (h_devs h) (h_cfgs h) (h_intfs h) v.

(** [*p] and [*p = d] for a [*Device]. *)
Definition load_dev (h : Heap) (p : loc) : outcome Device :=
  match h_devs h !! p with
  | Some d => Ok d
  | None => Panic nil_dereference
  end.

Definition store_dev (h : Heap) (p : loc) (d : Device) : Heap :=
  set_devs (<[p := d]> (h_devs h)) h.

(** [*p] for a [*Configuration]. *)
Definition deref_cfg (h : Heap) (p : cfgptr) : option Configuration :=
  arr ← h_cfgs h !! p_arr p; arr !! p_idx p.

(** ** The file helpers of [interface.go] (lines 193-232)

    [ioutil.ReadFile], [strconv.Atoi], [strconv.ParseFloat] and
    [filepath.Join] are oracles, files are byte strings.  [filepath.Walk] is
    the sequence of visits it pays to its callback for as long as the
    callback answers nil; it stops at the first other answer (the callback
    here never answers [filepath.SkipDir]). *)
Module sysfs.

Definition slice_bounds_out_of_range : string :=
  "runtime error: slice bounds out of range".

Record Files (float64 : Type) := mkFiles {
  ReadFile : string -> list Z * option error;
  Atoi : list Z -> Z * option error;
  ParseFloat : list Z -> float64 * option error;
  minus_one : float64;
  Join : string -> string -> string
}.
Arguments ReadFile {float64} _ _.
Arguments Atoi {float64} _ _.
Arguments ParseFloat {float64} _ _.
Arguments minus_one {float64} _.
Arguments Join {float64} _ _ _.

(** [data[:len(data)-1]] *)
Definition but_last (data : list Z) : outcome (list Z) :=
  let hi := Z.of_nat (length data) - 1 in
  if 0 <=? hi then Ok (take (Z.to_nat hi) data) else Panic slice_bounds_out_of_range.

(** Lines 193-199. *)
Definition readAsInt {F} (fs : Files F) (fname : string) : outcome (Z * option error) :=
  match ReadFile fs fname with
  | (_, Some err) => Ok (-1, Some err)
  | (data, None) => s ← but_last data; Ok (Atoi fs s)
  end.

(** Lines 200-206. *)
Definition readAsFloat {F} (fs : Files F) (fname : string) : outcome (F * option error) :=
  match ReadFile fs fname with
  | (_, Some err) => Ok (minus_one fs, Some err)
  | (data, None) => s ← but_last data; Ok (ParseFloat fs s)
  end.

(** One call of the callback: the path, [info.IsDir()], and the error
    [filepath.Walk] hands over. *)
Record visit := mkVisit { v_path : string; v_IsDir : bool; v_err : option error }.

(** The callback of lines 210-229: the new value of the captured [syspath]
    and the error it returns. *)
Definition visitor {F} (fs : Files F) (bus dev : Z) (v : visit) (syspath : string)
    : outcome (string * option error) :=
  match v_err v with
  | Some err => Ok (syspath, Some err)
  | None =>
      if v_IsDir v then Ok (syspath, None)
      else
        '(dv, err) ← readAsInt fs (Join fs (v_path v) "devnum");
        match err with
        | Some _ => Ok (syspath, None)
        | None =>
            '(bs, err) ← readAsInt fs (Join fs (v_path v) "busnum");
            match err with
            | Some _ => Ok (syspath, None)
            | None =>
                if (bus =? bs) && (dev =? dv)
                then Ok (v_path v, Some (errors_New "done"))
                else Ok (syspath, None)
            end
        end
  end.

Fixpoint Walk (fn : visit -> string -> outcome (string * option error))
    (visits : list visit) (syspath : string) : outcome string :=
  match visits with
  | [] => Ok syspath
  | v :: rest =>
      '(syspath', err) ← fn v syspath;
      match err with
      | Some _ => Ok syspath'
      | None => Walk fn rest syspath'
      end
  end.

(** Lines 208-232; [visits] is what walking "/sys/bus/usb/devices/" meets. *)
Definition getSysfsFromBusDev {F} (fs : Files F) (visits : list visit) (bus dev : Z)
    : outcome string :=
  Walk (visitor fs bus dev) visits "".

(** The file holds a number: it can be read, is not empty, and all but its
    last byte parse to [n]. *)
Definition holds {F} (fs : Files F) (fname : string) (n : Z) : Prop :=
  exists data, ReadFile fs fname = (data, None) /\ data <> [] /\
    Atoi fs (take (length data - 1) data) = (n, None).

(** The file cannot be read, or all but its last byte do not parse. *)
Definition unusable {F} (fs : Files F) (fname : string) : Prop :=
  (exists data err, ReadFile fs fname = (data, Some err)) \/
  (exists data n err, ReadFile fs fname = (data, None) /\ data <> [] /\
     Atoi fs (take (length data - 1) data) = (n, Some err)).

Definition empty {F} (fs : Files F) (fname : string) : Prop :=
  ReadFile fs fname = ([], None).

(** The four ways a visit can go. *)
Definition is_match {F} (fs : Files F) (bus dev : Z) (v : visit) : Prop :=
  v_err v = None /\ v_IsDir v = false /\
  holds fs (Join fs (v_path v) "devnum") dev /\
  holds fs (Join fs (v_path v) "busnum") bus.

Definition passed_over {F} (fs : Files F) (bus dev : Z) (v : visit) : Prop :=
  v_err v = None /\
  (v_IsDir v = true \/
   v_IsDir v = false /\
   (unusable fs (Join fs (v_path v) "devnum") \/
    exists dv, holds fs (Join fs (v_path v) "devnum") dv /\
      (unusable fs (Join fs (v_path v) "busnum") \/
       exists bs, holds fs (Join fs (v_path v) "busnum") bs /\
         ~ (bs = bus /\ dv = dev)))).

Definition crashes {F} (fs : Files F) (v : visit) : Prop :=
  v_err v = None /\ v_IsDir v = false /\
  (empty fs (Join fs (v_path v) "devnum") \/
   exists dv, holds fs (Join fs (v_path v) "devnum") dv /\
     empty fs (Join fs (v_path v) "busnum")).

End sysfs.

(** ** The data-backing strategy and the other external collaborators

    Neither implementation of the [dataBacking] interface is in the sources
    at hand, nor are the identifier-database lookups: they are oracles.  The
    two capabilities only the metadata-filesystem backing has come apart.
    The look-up of a device's path in the metadata filesystem is in the
    sources ([sysfs.getSysfsFromBusDev]); the world provides the files it
    reads. *)

Record dataBacking := mkDataBacking {
  getDevNum : Device -> Z * option error;
  getVendorName : Device -> string * option error;
  getProductName : Device -> string * option error;
  getPort : Device -> Z * option error;
  getActiveConfig : Device -> Z * option error;
  getSpeed : Device -> Z * option error;
  getDriver : Device -> Z -> string * option error;
  setConfiguration : Device -> Z -> option error
}.

Record World := mkWorld {
  vendorName : Z -> string;
  productName : Z -> Z -> string;
  sysFloat : Type;
  sysFiles : sysfs.Files sysFloat;        (* the files under /sys/bus/usb/devices/ *)
  sysVisits : list sysfs.visit;           (* what walking that directory meets *)
  backing : backingKind -> dataBacking;
  getBusNum : Device -> Z * option error;
  getParent : Device -> option loc * option error;
  OpenFile : Z -> Z -> option File * option error
}.

(** ** Descriptors to library-native objects ([interface.go] 64-189) *)

Definition zeroEndpoint : Endpoint := mkEndpoint 0 0 0 0 None.
Definition zeroInterface : Interface := mkInterface 0 0 [] None.
Definition zeroConfiguration : Configuration :=
  mkConfiguration false false false 0 0 [] None.

Definition toEndpoint (e : gusb.EndpointDescriptor) (i : loc) : Endpoint :=
  {| Address := gusb.Address e;
     TransferType := gusb.TransferType e;
     MaxPacketSize := gusb.MaxPacketSize e;
     MaxISOPacketSize := gusb.MaxPacketSize e;
     ep_i := Some i |}.

(** [for idx, ep := range i.Endpoints { intf.Endpoints[idx] = toEndpoint(ep, &intf) }] *)
Fixpoint fillEndpoints (il : loc) (eds : list gusb.EndpointDescriptor) (idx : nat)
    (eps : list Endpoint) : outcome (list Endpoint) :=
  match eds with
  | [] => Ok eps
  | ep :: rest =>
      if (idx <? length eps)%nat
      then fillEndpoints il rest (S idx) (<[idx := toEndpoint ep il]> eps)
      else Panic index_out_of_range
  end.

(** The local [intf] escapes through [&intf]: it lives in the interface
    store, and the value returned is a copy sharing its endpoint array. *)
Definition toInterface (h : Heap) (i : gusb.InterfaceDescriptor) (d : loc)
    : outcome (Heap * Interface) :=
  let il := length (h_intfs h) in
  eps ← fillEndpoints il (gusb.Endpoints i) 0
          (replicate (Z.to_nat (gusb.NumEndpoints i)) zeroEndpoint);
  let intf := mkInterface (gusb.InterfaceNumber i) 0 eps (Some d) in
  Ok (set_intfs (h_intfs h ++ [intf]) h, intf).

(** [for _, intf := range c.Interfaces { cfg.Interfaces[intf.InterfaceNumber] = toInterface(intf, d) }]:
    the right-hand side is evaluated before the indexed store is made. *)
Fixpoint fillInterfaces (h : Heap) (d : loc) (ids : list gusb.InterfaceDescriptor)
    (ifs : list Interface) : outcome (Heap * list Interface) :=
  match ids with
  | [] => Ok (h, ifs)
  | intf :: rest =>
      '(h', x) ← toInterface h intf d;
      let idx := gusb.InterfaceNumber intf in
      if (0 <=? idx) && (idx <? Z.of_nat (length ifs))
      then fillInterfaces h' d rest (<[Z.to_nat idx := x]> ifs)
      else Panic index_out_of_range
  end.

Definition toConfig (h : Heap) (c : gusb.ConfigDescriptor) (d : loc)
    : outcome (Heap * Configuration) :=
  '(h', ifs) ← fillInterfaces h d (gusb.Interfaces c)
                 (replicate (Z.to_nat (gusb.NumInterfaces c)) zeroInterface);
  Ok (h', {| SelfPowered := gusb.SelfPowered c;
             RemoteWakeup := gusb.RemoteWakeup c;
             BatteryPowered := false;
             MaxPower := u8 (gusb.MaxPower c * 2);
             Value := gusb.Value c;
             Interfaces := ifs;
             cfg_d := Some d |}).

(** [d.Configs[i] = v] and [&d.Configs[i]], with Go's bounds check. *)
Definition store_cfg (h : Heap) (s : slice) (i : Z) (v : Configuration) : outcome Heap :=
  if (0 <=? i) && (i <? Z.of_nat (s_len s))
  then Ok (set_cfgs (alter (<[Z.to_nat i := v]>) (s_arr s) (h_cfgs h)) h)
  else Panic index_out_of_range.

Definition addr_cfg (s : slice) (i : Z) : outcome cfgptr :=
  if (0 <=? i) && (i <? Z.of_nat (s_len s))
  then Ok (mkCfgptr (s_arr s) (Z.to_nat i))
  else Panic index_out_of_range.

(** [for _, c := range dd.Configs { d.Configs[c.Value-1] = toConfig(c, d) }]:
    [c.Value - 1] is computed in the selector's single-byte type. *)
Fixpoint fillConfigs (h : Heap) (s : slice) (d : loc) (cds : list gusb.ConfigDescriptor)
    : outcome Heap :=
  match cds with
  | [] => Ok h
  | c :: rest =>
      '(h1, cfg) ← toConfig h c d;
      h2 ← store_cfg h1 s (u8 (gusb.Value c - 1)) cfg;
      fillConfigs h2 s d rest
  end.

Definition string_empty (s : string) : bool := if decide (s = "") then true else false.

Definition is_sysfs (d : Device) : bool :=
  match dataSource d with Some backingSysfs => true | _ => false end.

(** Lines 66-78: the struct literal, with [Configs] on a fresh backing
    array [arr]. *)
Definition newDevice (w : World) (arr : loc) (dd : gusb.DeviceDescriptor) : Device :=
  let vid := u16 (gusb.Vendor dd) in
  let pid := u16 (gusb.Product dd) in
  {| Bus := gusb.Bus (gusb.PathInfo dd);
     DeviceNum := gusb.Dev (gusb.PathInfo dd);
     Port := 0; Ports := [];
     Vendor := vid;
     vendorNameFromIdFile := vendorName w vid;
     vendorNameFromDevice := "";
     Product := pid;
     productNameFromIdFile := productName w vid pid;
     productNameFromDevice := "";
     Parent := None; Speed := 0;
     Configs := mkSlice arr (Z.to_nat (gusb.NumConfigs dd));
     ActiveConfig := None; dataSource := None; ctx := None; f := None;
     SysPath := gusb.SysPath (gusb.PathInfo dd) |}.

(** [d := &Device{...}] with [make([]Configuration, dd.NumConfigs)]. *)
Definition allocDevice (h : Heap) (d : Device) : Heap :=
  set_cfgs (h_cfgs h ++ [replicate (s_len (Configs d)) zeroConfiguration])
    (set_devs (h_devs h ++ [d]) h).

(** Lines 83-91: the metadata-filesystem path and the strategy choice.
    The look-up can panic, on an empty [devnum] or [busnum] file. *)
Definition resolveSysPath (w : World) (d : Device) : outcome Device :=
  if string_empty (SysPath d)
  then
    syspath ← sysfs.getSysfsFromBusDev (sysFiles w) (sysVisits w) (Bus d) (DeviceNum d);
    Ok (set_SysPath syspath d)
  else Ok d.

Definition selectSource (d : Device) : backingKind :=
  if string_empty (SysPath d) then backingUsbfs else backingSysfs.

(** Lines 93-121: device and bus number, names, port. *)
Definition fetchFields (w : World) (src : dataBacking) (d : Device) : Device :=
  let d := if DeviceNum d <=? 0
           then match getDevNum src d with
                | (_, Some _) => d
                | (dev, None) => set_DeviceNum dev d
                end
           else d in
  let d := if (Bus d <=? 0) && is_sysfs d
           then set_Bus (fst (getBusNum w d)) d else d in
  let d := set_vendorNameFromDevice (fst (getVendorName src d)) d in
  let d := set_productNameFromDevice (fst (getProductName src d)) d in
  set_Port (fst (getPort src d)) d.

(** Lines 122-126: the selector of the active configuration, the fetched
    value or 1 when the fetch fails. *)
Definition activeSelector (src : dataBacking) (d : Device) : Z :=
  match getActiveConfig src d with
  | (_, Some _) => 1
  | (cfg, None) => cfg
  end.

(** Lines 127-142: the active configuration, the speed, the parent. *)
Definition linkDevice (w : World) (src : dataBacking) (ac : cfgptr) (d : Device) : Device :=
  let d := set_ActiveConfig (Some ac) d in
  let d := match getSpeed src d with
           | (_, Some _) => set_Speed SpeedUnknown d
           | (sp, None) => set_Speed sp d
           end in
  if is_sysfs d then set_Parent (fst (getParent w d)) d else d.

(** Lines 122-145.  [cfg - 1] is a Go [int]; at the one value where it
    would wrap the index is out of range either way. *)
Definition finishDevice (w : World) (fuel : nat) (h : Heap) (p : loc)
    (src : dataBacking) (d : Device) : outcome (Heap * loc) :=
  ac ← addr_cfg (Configs d) (activeSelector src d - 1);
  let d := linkDevice w src ac d in
  let h := store_dev h p d in
  ports ← getPorts (h_devs h) fuel d;
  Ok (store_dev h p (set_Ports ports d), p).

(** Lines 64-146. *)
Definition toDevice (w : World) (fuel : nat) (h : Heap) (dd : gusb.DeviceDescriptor)
    : outcome (Heap * loc) :=
  let p := length (h_devs h) in
  let d := newDevice w (length (h_cfgs h)) dd in
  h1 ← fillConfigs (allocDevice h d) (Configs d) p (gusb.Configs dd);
  d ← resolveSysPath w d;
  let k := selectSource d in
  let src := backing w k in
  finishDevice w fuel h1 p src (fetchFields w src (set_dataSource (Some k) d)).

(** The device after the look-up of lines 83-86, for stating what the later
    steps see; where the look-up panics no later step is reached. *)
Definition resolved (w : World) (d : Device) : Device :=
  match resolveSysPath w d with
  | Ok d' => d'
  | _ => d
  end.

(** The device as it stands when the active configuration is fetched, and
    the data source the fetch goes to. *)
Definition deviceAtFetch (w : World) (h : Heap) (dd : gusb.DeviceDescriptor) : Device :=
  let d := resolved w (newDevice w (length (h_cfgs h)) dd) in
  let k := selectSource d in
  fetchFields w (backing w k) (set_dataSource (Some k) d).

Definition sourceAtFetch (w : World) (h : Heap) (dd : gusb.DeviceDescriptor) : dataBacking :=
  backing w (selectSource (resolved w (newDevice w (length (h_cfgs h)) dd))).

(** ** Device methods ([device.go]) *)

Definition the_backing (w : World) (d : Device) : outcome dataBacking :=
  match dataSource d with
  | Some k => Ok (backing w k)
  | None => Panic nil_dereference
  end.

(** Lines 191-197. *)
Definition SetConfiguration (w : World) (h : Heap) (p : loc) (cfg : Z)
    : outcome (Heap * option error) :=
  d ← load_dev h p;
  src ← the_backing w d;
  let err := setConfiguration src d cfg in
  match err with
  | Some _ =>
      ac ← addr_cfg (Configs d) (cfg - 1);
      Ok (store_dev h p (set_ActiveConfig (Some ac) d), err)
  | None => Ok (h, err)
  end.

(** Lines 115-126; closing the previous handle has no effect on the model. *)
Definition Device_Open (w : World) (h : Heap) (p : loc) : outcome (Heap * option error) :=
  d ← load_dev h p;
  match OpenFile w (Bus d) (DeviceNum d) with
  | (_, Some err) => Ok (h, Some err)
  | (fd, None) => Ok (store_dev h p (set_f fd d), None)
  end.

(** ** Context methods (context file) *)

Definition NewContext : Context := mkContext false false ∅.

(** The body of the loop of [OpenDevices] for a device the opener accepts:
    the registration [c.devices[dev] = true]. *)
Definition register (c : Context) (dev : loc) : Context :=
  mkContext (done c) (closeOnce c) (<[dev := true]> (devices c)).

Definition closeDev (c : Context) (d : loc) : Context :=
  mkContext (done c) (closeOnce c) (delete d (devices c)).

Definition still_open : string :=
  "Context.Close called while %d Devices are still open, Close may be called only after all previously opened devices were successfuly closed".

Definition checkOpenDevs (c : Context) : option error :=
  let l := size (devices c) in
  if (0 <? l)%nat then Some (fmt_Errorf still_open [Z.of_nat l] None) else None.

(** [close(c.done)]: closing a closed channel panics. *)
Definition close_done (c : Context) : outcome Context :=
  if done c then Panic "close of closed channel"
  else Ok (mkContext true (closeOnce c) (devices c)).

(** [c.closeOnce.Do(func() { close(c.done) })] *)
Definition closeOnce_Do (c : Context) : outcome Context :=
  if closeOnce c then Ok c
  else c' ← close_done c; Ok (mkContext (done c') true (devices c')).

Definition Context_Close (c : Context) : outcome (Context * option error) :=
  match checkOpenDevs c with
  | Some err => Ok (c, Some err)
  | None => c' ← closeOnce_Do c; Ok (c', None)
  end.

Definition Context_Done (c : Context) : bool := done c.

Definition Context_Err (c : Context) : option error :=
  if done c then Some context_Canceled else None.

(** [if d.ctx != nil { d.ctx.closeDev(d); d.ctx = nil }] *)
Definition deregister (h : Heap) (p : loc) (d : Device) : outcome (Heap * Device) :=
  match ctx d with
  | Some cl =>
      match h_ctxs h !! cl with
      | Some c => Ok (set_ctxs (<[cl := closeDev c p]> (h_ctxs h)) h, set_ctx None d)
      | None => Panic nil_dereference
      end
  | None => Ok (h, d)
  end.

(** Lines 128-149; [closeFile] is what closing the file answers. *)
Definition Device_Close (closeFile : File -> option error) (h : Heap) (p : loc)
    : outcome (Heap * option error) :=
  d ← load_dev h p;
  '(h, d) ← deregister h p d;
  match f d with
  | None => Ok (store_dev h p d, None)
  | Some fd => Ok (store_dev h p (set_f None d), closeFile fd)
  end.

(** The loop of [OpenDevices] over the devices [List()] returned. *)
Fixpoint OpenDevices_loop (opener : Device -> bool) (cl : loc) (listed : list loc)
    (h : Heap) (ret : list loc) : outcome (Heap * list loc) :=
  match listed with
  | [] => Ok (h, ret)
  | dev :: rest =>
      d ← load_dev h dev;
      if opener d then
        match h_ctxs h !! cl with
        | Some c =>
            let h := store_dev h dev (set_ctx (Some cl) d) in
            let h := set_ctxs (<[cl := register c dev]> (h_ctxs h)) h in
            OpenDevices_loop opener cl rest h (ret ++ [dev])
        | None => Panic nil_dereference
        end
      else OpenDevices_loop opener cl rest h ret
  end.

(** Sequences of registry operations, and how often they close the
    channel. *)
Inductive ctx_op := OpRegister (d : loc) | OpCloseDev (d : loc) | OpClose.

Definition ctx_step (c : Context) (o : ctx_op) : outcome Context :=
  match o with
  | OpRegister d => Ok (register c d)
  | OpCloseDev d => Ok (closeDev c d)
  | OpClose => '(c', _) ← Context_Close c; Ok c'
  end.

Definition fired (c c' : Context) : nat :=
  if negb (done c) && done c' then 1 else 0.

(** Runs the operations; gives the final context and the number of steps
    at which the disposal signal went from unset to set. *)
Fixpoint ctx_run (c : Context) (ops : list ctx_op) : outcome (Context * nat) :=
  match ops with
  | [] => Ok (c, O)
  | o :: rest =>
      c' ← ctx_step c o;
      '(c'', n) ← ctx_run c' rest;
      Ok (c'', (fired c c' + n)%nat)
  end.

(** ** Endpoint transfers (endpoint file) *)

Definition TransferTypeBulk : Z := 0x02.

(** [e.i.d.f], or nil when [e.i], [e.i.d] or [e.i.d.f] is nil: the handle
    is open exactly when this is not nil. *)
Definition handle (h : Heap) (e : Endpoint) : option File :=
  il ← ep_i e; i ← h_intfs h !! il; dl ← if_d i; d ← h_devs h !! dl; f d.

Definition not_OUT : string := "usb: endpoint address %02X is not an OUT endpoint".
Definition not_IN : string := "usb: endpoint address %02X is not an IN endpoint".
Definition not_bulk : string :=
  "usb: endpoint address %02X is not a bulk endpoint (type %02X)".

(** The state of a [context.Context] as a call observes it on entry. *)
Record context_Context := mkCtx {
  ctx_Done : bool;             (* [<-ctx.Done()] is ready *)
  ctx_Err : option error       (* [ctx.Err()] *)
}.

Definition as_context (c : Context) : context_Context :=
  mkCtx (Context_Done c) (Context_Err c).

(** How a call that got past its checks interleaves with the transfer it
    spawns.  The transfer runs [BulkOut] or [BulkIn] on the heap as it finds
    it when it gets to run: the heap of the checks, unless the device was
    closed or opened in between.  Either the final [select] takes the
    disposal signal, whose [ctx.Err()] then gives [err]; by then the
    transfer has run ([Some] of the heap it found) or has not ([None]), and
    its result is dropped.  Or the [select] takes the result of the
    transfer. *)
Inductive race :=
| SignalFirst (err : option error) (spawned : option Heap)
| ResultFirst (spawned : Heap).

Section Transfers.

Variable K : Type.
Variable kernel : K -> option File -> gusb.request -> K * gusb.response.

Abbreviation sys := (gusb.sys K).

(** Lines 42-69. *)
Definition BulkOut (s : sys) (h : Heap) (e : Endpoint) (data : list Z) (timeoutMs : Z)
    : sys * (Z * option error) :=
  match handle h e with
  | None => (s, (0, Some (errors_New "usb: device not open for BulkOut")))
  | Some fd =>
      if negb (Z.land (Address e) 0x80 =? 0)
      then (s, (0, Some (fmt_Errorf not_OUT [Address e] None)))
      else if negb (TransferType e =? TransferTypeBulk)
      then (s, (0, Some (fmt_Errorf not_bulk [Address e; TransferType e] None)))
      else
        let bt := gusb.USBDEVFS_BULK (u32 (Address e)) (u32 (Z.of_nat (length data)))
                    (u32 timeoutMs) data in
        let '(s', resp) := gusb.Ioctl kernel s (Some fd) bt in
        match gusb.errno resp with
        | Some err =>
            (s', (gusb.r resp,
                  Some (fmt_Errorf "usb: BulkOut to ep %02X failed: %w" [Address e] (Some err))))
        | None => (s', (gusb.r resp, None))
        end
  end.

(** Lines 75-102; the third component is the buffer after the call. *)
Definition BulkIn (s : sys) (h : Heap) (e : Endpoint) (buffer : list Z) (timeoutMs : Z)
    : sys * (Z * option error) * list Z :=
  match handle h e with
  | None => (s, (0, Some (errors_New "usb: device not open for BulkIn")), buffer)
  | Some fd =>
      if Z.land (Address e) 0x80 =? 0
      then (s, (0, Some (fmt_Errorf not_IN [Address e] None)), buffer)
      else if negb (TransferType e =? TransferTypeBulk)
      then (s, (0, Some (fmt_Errorf not_bulk [Address e; TransferType e] None)), buffer)
      else
        let bt := gusb.USBDEVFS_BULK (u32 (Address e)) (u32 (Z.of_nat (length buffer)))
                    (u32 timeoutMs) buffer in
        let '(s', resp) := gusb.Ioctl kernel s (Some fd) bt in
        let buffer' := default buffer (gusb.out resp) in
        match gusb.errno resp with
        | Some err =>
            (s', (gusb.r resp,
                  Some (fmt_Errorf "usb: BulkIn from ep %02X failed: %w" [Address e] (Some err))),
             buffer')
        | None => (s', (gusb.r resp, None), buffer')
        end
  end.

(** Lines 215-257.  Nothing orders the spawned transfer before the return
    through [ctx.Done()]. *)
Definition WriteContext (s : sys) (h : Heap) (e : Endpoint) (ctx : context_Context)
    (sched : race) (buf : list Z) : sys * (Z * option error) :=
  if ctx_Done ctx then (s, (0, ctx_Err ctx))
  else
    match handle h e with
    | None => (s, (0, Some (errors_New "usb: device not open for WriteContext")))
    | Some _ =>
        if negb (Z.land (Address e) 0x80 =? 0)
        then (s, (0, Some (fmt_Errorf not_OUT [Address e] None)))
        else if negb (TransferType e =? TransferTypeBulk)
        then (s, (0, Some (fmt_Errorf not_bulk [Address e; TransferType e] None)))
        else
          match sched with
          | SignalFirst err None => (s, (0, err))
          | SignalFirst err (Some hg) => ((BulkOut s hg e buf 0).1, (0, err))
          | ResultFirst hg => BulkOut s hg e buf 0
          end
    end.

(** Lines 264-306. *)
Definition ReadContext (s : sys) (h : Heap) (e : Endpoint) (ctx : context_Context)
    (sched : race) (buf : list Z) : sys * (Z * option error) * list Z :=
  if ctx_Done ctx then (s, (0, ctx_Err ctx), buf)
  else
    match handle h e with
    | None => (s, (0, Some (errors_New "usb: device not open for ReadContext")), buf)
    | Some _ =>
        if Z.land (Address e) 0x80 =? 0
        then (s, (0, Some (fmt_Errorf not_IN [Address e] None)), buf)
        else if negb (TransferType e =? TransferTypeBulk)
        then (s, (0, Some (fmt_Errorf not_bulk [Address e; TransferType e] None)), buf)
        else
          match sched with
          | SignalFirst err None => (s, (0, err), buf)
          | SignalFirst err (Some hg) =>
              let '(s', _, buf') := BulkIn s hg e buf 0 in (s', (0, err), buf')
          | ResultFirst hg => BulkIn s hg e buf 0
          end
    end.

End Transfers.

Arguments BulkOut {K} _ _ _ _ _ _.
Arguments BulkIn {K} _ _ _ _ _ _.
Arguments WriteContext {K} _ _ _ _ _ _ _.
Arguments ReadContext {K} _ _ _ _ _ _ _.

(** ** Concrete inputs used by the examples *)

Definition zeroDevice : Device :=
  mkDevice 0 0 0 [] 0 "" "" 0 "" "" None 0 (mkSlice 0%nat 0%nat) None None None None "".

(** A device with the given port and parent and nothing else. *)
Definition hub (port : Z) (parent : option loc) : Device :=
  set_Parent parent (set_Port port zeroDevice).

(** The chain A <- B <- C with ports 3, 1, 2: A and B are in the store at
    locations 0 and 1. *)
Definition devA : Device := hub 3 None.
Definition devB : Device := hub 1 (Some 0%nat).
Definition devC : Device := hub 2 (Some 1%nat).
Definition storeAB : list Device := [devA; devB].

(** Eight tiers, every one on port 1: the device at location [i] hangs off
    the device at location [i - 1]. *)
Definition storeDeep : list Device :=
  hub 1 None :: ((fun i => hub 1 (Some i)) <$> seq 0%nat 6%nat).
Definition devDeep : Device := hub 1 (Some 6%nat).

(** A kernel that accepts every request and transfers nothing. *)
Definition idleKernel (k : unit) (fd : option File) (req : gusb.request)
    : unit * gusb.response :=
  (k, gusb.mkResponse 0 None None).

Definition sys0 : gusb.sys unit := gusb.mkSys tt [] [].

(** One device and one interface of it, carrying a bulk OUT endpoint 0x01
    and a bulk IN endpoint 0x81; [openHeap] has the device open on file 3,
    [closedHeap] has it closed. *)
Definition epOut : Endpoint := mkEndpoint 0x01 2 512 512 (Some 0%nat).
Definition epIn : Endpoint := mkEndpoint 0x81 2 512 512 (Some 0%nat).
Definition intf0 : Interface := mkInterface 0 0 [epOut; epIn] (Some 0%nat).
Definition closedHeap : Heap := mkHeap [zeroDevice] [[]] [intf0] [].
Definition openHeap : Heap := mkHeap [set_f (Some 3) zeroDevice] [[]] [intf0] [].

(** The [sync.Once] has run exactly when the channel is closed. *)
Definition ctx_inv (c : Context) : Prop := closeOnce c = done c.

(** A small kernel to run the claim protocol on: per interface number the
    name of the bound kernel driver, and the set of interfaces this file
    holds.  Detaching or querying where no driver is bound answers ENODATA;
    claiming an interface a driver is bound to answers EBUSY. *)
Record usbfs := mkUsbfs {
  bound : gmap Z (list Z);
  held : gset Z
}.

Definition EBUSY : error := Errno 16.
Definition EINVAL : error := Errno 22.

Definition failed (e : error) : gusb.response := gusb.mkResponse (-1) (Some e) None.
Definition succeeded (n : Z) (o : option (list Z)) : gusb.response :=
  gusb.mkResponse n None o.

Definition usbfsKernel (k : usbfs) (fd : option File) (req : gusb.request)
    : usbfs * gusb.response :=
  match req with
  | gusb.USBDEVFS_IOCTL ifno gusb.USBDEVFS_DISCONNECT _ =>
      match bound k !! ifno with
      | Some _ => (mkUsbfs (delete ifno (bound k)) (held k), succeeded 0 None)
      | None => (k, failed ENODATA)
      end
  | gusb.USBDEVFS_IOCTL ifno gusb.USBDEVFS_CONNECT _ => (k, succeeded 0 None)
  | gusb.USBDEVFS_CLAIMINTERFACE ifno =>
      match bound k !! ifno with
      | Some _ => (k, failed EBUSY)
      | None => (mkUsbfs (bound k) ({[ifno]} ∪ held k), succeeded 0 None)
      end
  | gusb.USBDEVFS_RELEASEINTERFACE ifno =>
      if decide (ifno ∈ held k)
      then (mkUsbfs (bound k) (held k ∖ {[ifno]}), succeeded 0 None)
      else (k, failed EINVAL)
  | gusb.USBDEVFS_GETDRIVER ifno =>
      match bound k !! ifno with
      | Some name => (k, succeeded 0 (Some (take 256 (name ++ gusb.zeroDriver))))
      | None => (k, failed ENODATA)
      end
  | gusb.USBDEVFS_BULK _ len _ _ => (k, succeeded len None)
  | gusb.USBDEVFS_GET_SPEED => (k, succeeded 3 None)
  end.

Definition usbfs_claimed (k : usbfs) (ifno : Z) : bool :=
  if decide (ifno ∈ held k) then true else false.

(** Nothing bound, nothing held. *)
Definition usbfs0 : gusb.sys usbfs := gusb.mkSys (mkUsbfs ∅ ∅) [] [].

(** ** Well-formed descriptors, the invariant of the heap, operations *)

(** A parsed descriptor has its counts, numbers and selectors in the range
    of a byte. *)
Definition is_u8 (z : Z) : bool := (0 <=? z) && (z <? 256).

Definition wf_interface (i : gusb.InterfaceDescriptor) : bool :=
  is_u8 (gusb.InterfaceNumber i) && is_u8 (gusb.NumEndpoints i).

Definition wf_config (c : gusb.ConfigDescriptor) : bool :=
  is_u8 (gusb.Value c) && is_u8 (gusb.NumInterfaces c) && is_u8 (gusb.MaxPower c)
  && forallb wf_interface (gusb.Interfaces c).

Definition wf_descriptor (dd : gusb.DeviceDescriptor) : bool :=
  is_u8 (gusb.NumConfigs dd) && forallb wf_config (gusb.Configs dd).

(** A partial operation that either returns or panics on an index. *)
Definition ok_or_oob {A} (m : outcome A) : Prop :=
  (exists a, m = Ok a) \/ m = Panic index_out_of_range.

(** [p] is the address of an element of the [Configs] array of [d]. *)
Definition aliases_Configs (d : Device) (p : cfgptr) : Prop :=
  exists i, (i < s_len (Configs d))%nat /\ p = mkCfgptr (s_arr (Configs d)) i.

(** The [Configs] slice of [d] is backed by an array of its length, and a
    non-nil [ActiveConfig] points at an element of it. *)
Definition dev_ok (h : Heap) (d : Device) : Prop :=
  (exists arr, h_cfgs h !! s_arr (Configs d) = Some arr /\ length arr = s_len (Configs d)) /\
  (forall p, ActiveConfig d = Some p ->
     aliases_Configs d p /\ is_Some (deref_cfg h p)).

Definition heap_inv (h : Heap) : Prop :=
  forall q d, h_devs h !! q = Some d -> dev_ok h d.

(** The operations of the library that write to a device. *)
Inductive dev_op :=
| OpToDevice (dd : gusb.DeviceDescriptor)
| OpSetConfiguration (p : loc) (cfg : Z)
| OpOpen (p : loc)
| OpDeviceClose (p : loc)
| OpNewContext
| OpOpenDevices (cl : loc) (listed : list loc).

Definition dev_step (w : World) (fuel : nat) (closeFile : File -> option error)
    (opener : Device -> bool) (h : Heap) (o : dev_op) : outcome Heap :=
  match o with
  | OpToDevice dd => '(h', _) ← toDevice w fuel h dd; Ok h'
  | OpSetConfiguration p cfg => '(h', _) ← SetConfiguration w h p cfg; Ok h'
  | OpOpen p => '(h', _) ← Device_Open w h p; Ok h'
  | OpDeviceClose p => '(h', _) ← Device_Close closeFile h p; Ok h'
  | OpNewContext => Ok (set_ctxs (h_ctxs h ++ [NewContext]) h)
  | OpOpenDevices cl listed => '(h', _) ← OpenDevices_loop opener cl listed h []; Ok h'
  end.

Fixpoint dev_run (w : World) (fuel : nat) (closeFile : File -> option error)
    (opener : Device -> bool) (h : Heap) (ops : list dev_op) : outcome Heap :=
  match ops with
  | [] => Ok h
  | o :: rest =>
      h' ← dev_step w fuel closeFile opener h o;
      dev_run w fuel closeFile opener h' rest
  end.

(** A world without a metadata filesystem, for the examples: the strategy
    chosen is the device-file one; [active] is what the active-configuration
    fetch answers and [setcfg] what the set-configuration call answers. *)
Definition testBacking (active : Z * option error) (setcfg : option error) : dataBacking :=
  {| getDevNum := fun _ => (5, None);
     getVendorName := fun _ => ("", Some ENODATA);
     getProductName := fun _ => ("", Some ENODATA);
     getPort := fun _ => (2, None);
     getActiveConfig := fun _ => active;
     getSpeed := fun _ => (3, None);
     getDriver := fun _ _ => ("", None);
     setConfiguration := fun _ _ => setcfg |}.

Definition ENOENT : error := Errno 2.

(** A metadata filesystem in which no file can be read. *)
Definition noFiles : sysfs.Files unit :=
  sysfs.mkFiles unit (fun _ => ([], Some ENOENT)) (fun _ => (0, Some EINVAL))
    (fun _ => (tt, Some EINVAL)) tt (fun a b => a ++ "/" ++ b)%string.


Definition testWorld (active : Z * option error) (setcfg : option error) : World :=
  {| vendorName := fun _ => "";
     productName := fun _ _ => "";
     sysFloat := unit;
     sysFiles := noFiles;
     sysVisits := [];
     backing := fun _ => testBacking active setcfg;
     getBusNum := fun _ => (1, None);
     getParent := fun _ => (None, None);
     OpenFile := fun _ _ => (Some 3, None) |}.


(** A device with two configurations, listed with selector 2 first; the
    configuration with selector 1 has two interfaces, listed with number 1
    first. *)
Definition ifd (n : Z) : gusb.InterfaceDescriptor :=
  gusb.mkInterfaceDescriptor n 1 [gusb.mkEndpointDescriptor 0x81 2 512].
Definition cfd1 : gusb.ConfigDescriptor :=
  gusb.mkConfigDescriptor true false 50 1 2 [ifd 1; ifd 0].
Definition cfd2 : gusb.ConfigDescriptor :=
  gusb.mkConfigDescriptor false false 50 2 1 [ifd 0].
Definition twoConfigs : gusb.DeviceDescriptor :=
  gusb.mkDeviceDescriptor 0x1d6b 0x0002 2 [cfd2; cfd1] (gusb.mkPathInfo 1 4 "").


(** The heap [toDevice] builds for [twoConfigs] when the active
    configuration is reported as 1; the device is at location 0. *)
Definition builtHeap : Heap :=
  Eval vm_compute in
    match toDevice (testWorld (1, None) None) 1 emptyHeap twoConfigs with
    | Ok (h, _) => h
    | _ => emptyHeap
    end.

(** One configuration that declares two interfaces and lists only
    interface 0. *)
Definition gapDescriptor : gusb.DeviceDescriptor :=
  gusb.mkDeviceDescriptor 0x1d6b 0x0002 1
    [gusb.mkConfigDescriptor true false 50 1 2 [ifd 0]] (gusb.mkPathInfo 1 4 "").

#[local] Instance interface_number_dec (n : Z) (i : gusb.InterfaceDescriptor) :
  Decision (gusb.InterfaceNumber i = n) := Z.eq_dec _ _.

(** Splits on the bounds check [(0 <=? i) && (i <? n)] in hypothesis [H],
    keeping the case where it holds. *)
Ltac in_bounds H Hlo Hhi :=
  match type of H with
  | context [(0 <=? ?i) && (?i <? ?n)] =>
      let Hb := fresh "Hb" in
      destruct ((0 <=? i) && (i <? n)) eqn:Hb; [|discriminate H];
      apply andb_true_iff in Hb as [Hlo Hhi];
      apply Z.leb_le in Hlo; apply Z.ltb_lt in Hhi
  end.

(** Two store entries that agree on what the walk of [getPorts] reads. *)
Definition same_links (a b : option Device) : Prop :=
  match a, b with
  | Some x, Some y => Port x = Port y /\ Parent x = Parent y
  | None, None => True
  | _, _ => False
  end.

(** ** The rest of [device.go] *)

Definition ErrDeviceNotFound : error := errors_New "Device not found".
Definition ErrNoActiveConfig : error :=
  errors_New "usb: device has no active configuration".
Definition ErrNoInterfacesInConfig : error :=
  errors_New "usb: active configuration has no interfaces".
Definition ErrInvalidInterfaceIndex : error :=
  errors_New "usb: interface index out of bounds".

(** Lines 26-40. *)
Definition VendorName (d : Device) : string :=
  if string_empty (vendorNameFromIdFile d)
  then vendorNameFromDevice d else vendorNameFromIdFile d.

Definition ProductName (d : Device) : string :=
  if string_empty (productNameFromIdFile d)
  then productNameFromDevice d else productNameFromIdFile d.

(** A [*Interface] obtained as [&cfg.Interfaces[i]] through a
    [*Configuration]. *)
Record intfptr := mkIntfptr { ip_cfg : cfgptr; ip_idx : nat }.

Definition deref_intf (h : Heap) (ip : intfptr) : option Interface :=
  cfg ← deref_cfg h (ip_cfg ip); Interfaces cfg !! ip_idx ip.

Definition bad_interface_index : string := "%w: index %d, available 0 to %d".

(** Lines 151-165. *)
Definition Device_Interface (h : Heap) (p : loc) (i : Z)
    : outcome (option intfptr * option error) :=
  d ← load_dev h p;
  match ActiveConfig d with
  | None => Ok (None, Some ErrNoActiveConfig)
  | Some ac =>
      match deref_cfg h ac with
      | None => Panic nil_dereference
      | Some cfg =>
          let n := Z.of_nat (length (Interfaces cfg)) in
          if n =? 0 then Ok (None, Some ErrNoInterfacesInConfig)
          else if (i <? 0) || (n <=? i)
          then Ok (None, Some (fmt_Errorf bad_interface_index [i; n - 1]
                                 (Some ErrInvalidInterfaceIndex)))
          else Ok (Some (mkIntfptr ac (Z.to_nat i)), None)
      end
  end.

(** [interface.go] 26-28: the [getDriver] of the data source of [i.d], on a
    copy of that device and [i.ID]. *)
Definition Interface_GetDriver (w : World) (h : Heap) (i : Interface)
    : outcome (string * option error) :=
  match if_d i with
  | None => Panic nil_dereference
  | Some dl =>
      d ← load_dev h dl;
      src ← the_backing w d;
      Ok (getDriver src d (ID i))
  end.

(** Lines 216-222. *)
Definition Device_GetDriver (w : World) (h : Heap) (p : loc) (intf : Z)
    : outcome (string * option error) :=
  '(ip, err) ← Device_Interface h p intf;
  match err with
  | Some e => Ok ("", Some e)
  | None =>
      match ip ≫= deref_intf h with
      | Some i => Interface_GetDriver w h i
      | None => Panic nil_dereference
      end
  end.

(** Lines 235-263. *)
Definition SpeedLow : Z := 1.
Definition SpeedFull : Z := 2.
Definition SpeedHigh : Z := 3.
Definition SpeedWireless : Z := 4.
Definition SpeedSuper : Z := 5.
Definition SpeedSuperPlus : Z := 6.

Definition Speed_String (s : Z) : string :=
  if s =? SpeedUnknown then "Unknown"
  else if s =? SpeedLow then "Low, 1.5 Mbps"
  else if s =? SpeedFull then "Full, 12Mbps"
  else if s =? SpeedHigh then "High, 480 Mbps"
  else if s =? SpeedSuper then "Super, 5 Gbps"
  else if s =? SpeedSuperPlus then "Super Plus, 10 Gbps"
  else "invalid".

(** Lines 64-76, after [gusb.Walk(nil)] answered: [devs[i] = toDevice(dd[i])]. *)
Fixpoint List_loop (w : World) (fuel : nat) (h : Heap) (dds : list gusb.DeviceDescriptor)
    : outcome (Heap * list loc) :=
  match dds with
  | [] => Ok (h, [])
  | dd :: rest =>
      '(h1, p) ← toDevice w fuel h dd;
      '(h2, ps) ← List_loop w fuel h1 rest;
      Ok (h2, p :: ps)
  end.

(** [walk] is what [gusb.Walk(nil)] answers. *)
Definition List (w : World) (fuel : nat) (walk : list gusb.DeviceDescriptor * option error)
    (h : Heap) : outcome (Heap * (list loc * option error)) :=
  match walk with
  | (_, Some err) => Ok (h, ([], Some err))
  | (dds, None) => '(h', devs) ← List_loop w fuel h dds; Ok (h', (devs, None))
  end.

(** What [Open] needs besides the [World]: [os.IsNotExist] and
    [gusb.ParseDescriptor], neither in the sources at hand. *)
Record Files := mkFiles {
  IsNotExist : error -> bool;
  ParseDescriptor : option File -> gusb.DeviceDescriptor * option error
}.

(** [desc.PathInfo.Bus = bus; desc.PathInfo.Dev = dev] *)
Definition set_PathInfo (bus dev : Z) (dd : gusb.DeviceDescriptor) : gusb.DeviceDescriptor :=
  gusb.mkDeviceDescriptor (gusb.Vendor dd) (gusb.Product dd) (gusb.NumConfigs dd)
    (gusb.Configs dd) (gusb.mkPathInfo bus dev (gusb.SysPath (gusb.PathInfo dd))).

(** Lines 78-97. *)
Definition Open (w : World) (fs : Files) (fuel : nat) (h : Heap) (bus dev : Z)
    : outcome (Heap * (option loc * option error)) :=
  match OpenFile w bus dev with
  | (fd, Some err) =>
      if IsNotExist fs err then Ok (h, (None, Some ErrDeviceNotFound))
      else Ok (h, (None, Some err))
  | (fd, None) =>
      match ParseDescriptor fs fd with
      | (_, Some err) => Ok (h, (None, Some err))
      | (desc, None) =>
          '(h', p) ← toDevice w fuel h (set_PathInfo bus dev desc);
          d ← load_dev h' p;
          Ok (store_dev h' p (set_f fd d), (Some p, None))
      end
  end.

(** ** The rest of [interface.go] *)

Definition no_OUT_endpoint : string := "usb: no OUT endpoint found in interface %d".
Definition no_IN_endpoint : string := "usb: no IN endpoint found in interface %d".

(** The loops of lines 31-36 and 41-46: the first endpoint whose bit 7 is
    clear, respectively set. *)
Fixpoint scanOut (eps : list Endpoint) : option Endpoint :=
  match eps with
  | [] => None
  | ep :: rest => if Z.land (Address ep) 0x80 =? 0 then Some ep else scanOut rest
  end.

Fixpoint scanIn (eps : list Endpoint) : option Endpoint :=
  match eps with
  | [] => None
  | ep :: rest => if negb (Z.land (Address ep) 0x80 =? 0) then Some ep else scanIn rest
  end.

(** Lines 30-48; an [OutEndpoint] or [InEndpoint] is the [Endpoint] it
    embeds. *)
Definition GetOutEndpoint (i : Interface) : option Endpoint * option error :=
  match scanOut (Endpoints i) with
  | Some ep => (Some ep, None)
  | None => (None, Some (fmt_Errorf no_OUT_endpoint [ID i] None))
  end.

Definition GetInEndpoint (i : Interface) : option Endpoint * option error :=
  match scanIn (Endpoints i) with
  | Some ep => (Some ep, None)
  | None => (None, Some (fmt_Errorf no_IN_endpoint [ID i] None))
  end.

(** ** The rest of the context file *)

(** Lines 47-68 after [List()] returned [listed]; the opener is a closure,
    so it carries a state [S] of its own. *)
Fixpoint OpenDevices_body {S : Type} (opener : S -> Device -> S * bool) (st : S)
    (cl : loc) (listed : list loc) (h : Heap) (ret : list loc)
    : outcome (Heap * list loc) :=
  match listed with
  | [] => Ok (h, ret)
  | dev :: rest =>
      d ← load_dev h dev;
      let '(st', accepted) := opener st d in
      if accepted then
        match h_ctxs h !! cl with
        | Some c =>
            let h := store_dev h dev (set_ctx (Some cl) d) in
            let h := set_ctxs (<[cl := register c dev]> (h_ctxs h)) h in
            OpenDevices_body opener st' cl rest h (ret ++ [dev])
        | None => Panic nil_dereference
        end
      else OpenDevices_body opener st' cl rest h ret
  end.

Definition OpenDevices {S : Type} (w : World) (fuel : nat)
    (walk : list gusb.DeviceDescriptor * option error)
    (opener : S -> Device -> S * bool) (st : S) (cl : loc) (h : Heap)
    : outcome (Heap * (list loc * option error)) :=
  '(h1, (listed, err)) ← List w fuel walk h;
  match err with
  | Some e => Ok (h1, ([], Some e))
  | None =>
      '(h2, ret) ← OpenDevices_body opener st cl listed h1 [];
      Ok (h2, (ret, None))
  end.

(** The closure of lines 78-87, with its variable [found] as the state. *)
Definition vidpid_opener (vid pid : Z) (found : bool) (desc : Device) : bool * bool :=
  if found then (found, false)
  else if (Vendor desc =? u16 vid) && (Product desc =? u16 pid) then (true, true)
  else (found, false).

(** Lines 76-92. *)
Definition OpenDeviceWithVIDPID (w : World) (fuel : nat)
    (walk : list gusb.DeviceDescriptor * option error) (vid pid : Z) (cl : loc) (h : Heap)
    : outcome (Heap * (option loc * option error)) :=
  '(h', (devs, err)) ← OpenDevices w fuel walk (vidpid_opener vid pid) false cl h;
  match devs with
  | [] => Ok (h', (None, err))
  | dev :: _ => Ok (h', (Some dev, None))
  end.

(** The direction of an endpoint: bit 7 of its address. *)
Definition is_IN (e : Endpoint) : Prop := Z.testbit (Address e) 7 = true.
Definition is_OUT (e : Endpoint) : Prop := Z.testbit (Address e) 7 = false.

(** The device record [toDevice] leaves at the location it returns. *)
Definition builtDevice (w : World) (h : Heap) (dd : gusb.DeviceDescriptor)
    (ac : cfgptr) (ports : list Z) : Device :=
  set_Ports ports (linkDevice w (sourceAtFetch w h dd) ac (deviceAtFetch w h dd)).

(** A device is in the device set of the context at [cl] exactly when its
    [ctx] field points to [cl]. *)
Definition reg_inv (h : Heap) : Prop :=
  forall cl dev,
    (exists c, h_ctxs h !! cl = Some c /\ is_Some (devices c !! dev)) <->
    (exists d, h_devs h !! dev = Some d /\ ctx d = Some cl).

(** The back link of an endpoint: nil, or an interface of the store that
    belongs to the device at [p]. *)
Definition ep_linked (h : Heap) (p : loc) (e : Endpoint) : Prop :=
  ep_i e = None \/
  exists il x, ep_i e = Some il /\ h_intfs h !! il = Some x /\ if_d x = Some p.

Definition intf_linked (h : Heap) (p : loc) (x : Interface) : Prop :=
  Forall (ep_linked h p) (Endpoints x).

Definition cfg_linked (h : Heap) (p : loc) (cfg : Configuration) : Prop :=
  Forall (intf_linked h p) (Interfaces cfg).

(** The test of the opener of [OpenDeviceWithVIDPID] (lines 82-83). *)
Definition vidpid_match (vid pid : Z) (d : Device) : bool :=
  (Vendor d =? u16 vid) && (Product d =? u16 pid).

(** A heap holding one fresh context and nothing else. *)
Definition contextHeap : Heap := mkHeap [] [] [] [NewContext].

(** The device at [p] has its configurations in the store, and every
    endpoint in them is linked back to it. *)
Definition dev_linked (h : Heap) (p : loc) : Prop :=
  exists d arr,
    h_devs h !! p = Some d /\ h_cfgs h !! s_arr (Configs d) = Some arr /\
    Forall (cfg_linked h p) arr.

(** ** Lemmas on getPorts *)

Lemma walkPorts_chain devs d l :
  chain devs d l ->
  forall fuel acc, (length l <= fuel)%nat ->
  walkPorts devs fuel d acc = Ok (acc ++ List.filter nonzero (Port <$> l)).
Proof.
  induction 1 as [d Hp | d p parent l Hp Hl Hc IH]; intros fuel acc Hfuel.
  - destruct fuel as [|fuel]; [simpl in Hfuel; lia|].
    simpl. rewrite Hp. unfold nonzero.
    destruct (Port d =? 0); simpl; [by rewrite app_nil_r | done].
  - destruct fuel as [|fuel]; [simpl in Hfuel; lia|].
    simpl in Hfuel. simpl. rewrite Hp, Hl.
    rewrite IH by lia. unfold nonzero at 2.
    destruct (Port d =? 0); simpl; [done | by rewrite <- app_assoc].
Qed.

Lemma reverseLoop_lookup n : forall (l : list Z),
  (2 * n <= length l)%nat ->
  exists r, reverseLoop n l = Ok r /\ length r = length l /\
    forall j, r !! j =
      if decide (j < n \/ length l - n <= j < length l)%nat
      then l !! (length l - 1 - j)%nat else l !! j.
Proof.
  induction n as [|i IH]; intros l Hn.
  - exists l. split; [done|]. split; [done|]. intros j.
    case_decide as Hj; [|done]. destruct Hj as [Hj|Hj]; lia.
  - simpl.
    destruct (lookup_lt_is_Some_2 l (length l - 1 - i)%nat) as [a Ha]; [lia|].
    destruct (lookup_lt_is_Some_2 l i) as [b Hb]; [lia|].
    rewrite Ha, Hb.
    set (l' := <[(length l - 1 - i)%nat := b]> (<[i := a]> l)).
    assert (Hlen : length l' = length l) by (unfold l'; by rewrite !length_insert).
    destruct (IH l') as (r & Hr & Hlr & Hj); [lia|].
    exists r. split; [done|]. split; [lia|]. intros j.
    rewrite Hj, Hlen. unfold l'.
    destruct (decide (j = i)) as [->|Hji].
    + rewrite decide_False by lia. rewrite decide_True by lia.
      rewrite list_lookup_insert_ne by lia.
      rewrite list_lookup_insert_eq by lia. done.
    + destruct (decide (j = length l - 1 - i)%nat) as [->|Hjs].
      * rewrite decide_False by lia. rewrite decide_True by lia.
        rewrite list_lookup_insert_eq by (rewrite length_insert; lia).
        replace (length l - 1 - (length l - 1 - i))%nat with i by lia. done.
      * destruct (decide (j < length l)%nat) as [Hlt|Hge].
        -- case_decide; case_decide; try lia;
             by rewrite !list_lookup_insert_ne by lia.
        -- rewrite decide_False by lia. rewrite decide_False by lia.
           by rewrite !list_lookup_insert_ne by lia.
Qed.

Lemma reverseLoop_reverse (l : list Z) :
  reverseLoop (length l / 2)%nat l = Ok (reverse l).
Proof.
  assert (Hhalf : (2 * (length l / 2) <= length l)%nat)
    by (apply Nat.Div0.mul_div_le).
  destruct (reverseLoop_lookup _ l Hhalf) as (r & Hr & Hlen & Hj).
  rewrite Hr. f_equal. apply list_eq. intros j. rewrite Hj.
  destruct (decide (j < length l)%nat) as [Hlt|Hge].
  - rewrite reverse_lookup by done.
    replace (length l - S j)%nat with (length l - 1 - j)%nat by lia.
    case_decide as Hc; [done|].
    assert (Hmid : (length l = 2 * (length l / 2) + length l mod 2)%nat)
      by (apply Nat.div_mod_eq).
    assert (Hm : (length l mod 2 < 2)%nat) by (apply Nat.mod_upper_bound; lia).
    assert (j = length l - 1 - j)%nat as <- by lia. done.
  - rewrite decide_False by lia.
    rewrite !lookup_ge_None_2; [done | rewrite length_reverse; lia | lia].
Qed.

Lemma getPorts_chain devs d l fuel :
  chain devs d l -> (length l <= fuel)%nat ->
  getPorts devs fuel d = Ok (reverse (List.filter nonzero (Port <$> l))).
Proof.
  intros Hc Hf. unfold getPorts.
  rewrite (walkPorts_chain _ _ _ Hc) by done. simpl.
  apply reverseLoop_reverse.
Qed.

Lemma chain_ABC : chain storeAB devC [devC; devB; devA].
Proof.
  eapply chain_hop; [reflexivity | reflexivity |].
  eapply chain_hop; [reflexivity | reflexivity |].
  apply chain_root. reflexivity.
Qed.

(** C2 (as stated, refuted): on the chain A <- B <- C with ports 3, 1, 2 no
    amount of fuel makes [getPorts] of C return [3; 1]: the walk starts at
    the device itself, so C's own port 2 is part of the path. *)
Lemma getPorts_ABC_not_3_1 :
  ~ exists fuel, getPorts storeAB fuel devC = Ok [3; 1].
Proof.
  intros [fuel H].
  destruct (decide (3 <= fuel)%nat) as [Hf|Hf].
  - rewrite (getPorts_chain _ _ _ _ chain_ABC) in H by exact Hf.
    vm_compute in H. discriminate H.
  - assert (fuel = 0 \/ fuel = 1 \/ fuel = 2)%nat as [->|[->| ->]] by lia;
      vm_compute in H; discriminate H.
Qed.

(** C2 (amended): [getPorts] walks the Parent chain starting with the device
    itself, keeps each non-zero port, and reverses what it collected, so the
    result reads root first and ends with the device's own port; on a chain
    A <- B <- C with ports 3, 1, 2 it returns [3; 1; 2]. *)
Theorem getPorts_root_first devs d l fuel :
  chain devs d l -> (length l <= fuel)%nat ->
  getPorts devs fuel d = Ok (reverse (List.filter nonzero (Port <$> l))) /\
  (forall a b, l = [d; b; a] -> Port a = 3 -> Port b = 1 -> Port d = 2 ->
     getPorts devs fuel d = Ok [3; 1; 2]).
Proof.
  intros Hc Hf.
  pose proof (getPorts_chain _ _ _ _ Hc Hf) as Hg.
  split; [exact Hg|].
  intros a b -> Ha Hb Hd. rewrite Hg. simpl. rewrite Ha, Hb, Hd. reflexivity.
Qed.

Lemma getPorts_root_first_witness :
  getPorts storeAB 3 devC = Ok [3; 1; 2].
Proof.
  exact (proj2 (getPorts_root_first storeAB devC [devC; devB; devA] 3%nat
                  chain_ABC (le_n 3))
           devA devB eq_refl eq_refl eq_refl eq_refl).
Defined.

(** C9 (as stated, refuted): with eight tiers on non-zero ports the path has
    eight entries. *)
Lemma getPorts_deep_length_8 :
  exists ports, getPorts storeDeep 8 devDeep = Ok ports /\ ~ (length ports <= 7)%nat.
Proof.
  exists (replicate 8 1). split; [vm_compute; reflexivity | simpl; lia].
Qed.

Lemma filter_nonzero_elem (l : list Z) x :
  x ∈ List.filter nonzero l -> x ∈ l /\ x <> 0.
Proof.
  rewrite !list_elem_of_In, filter_In. unfold nonzero.
  intros [Hin Hx]. split; [done|]. intros ->. discriminate Hx.
Qed.

(** C9 (amended): the path is the sequence of the non-zero ports recorded on
    the chain, root-most first; it has at most as many entries as the chain
    has devices, hence at most 7 when the chain has at most 7 tiers, and its
    entries are at least 1 when no recorded port is negative. *)
Theorem getPorts_bounded devs d l fuel :
  chain devs d l -> (length l <= fuel)%nat ->
  exists ports,
    getPorts devs fuel d = Ok ports /\
    ports = reverse (List.filter nonzero (Port <$> l)) /\
    (length ports <= length l)%nat /\
    ((length l <= 7)%nat -> (length ports <= 7)%nat) /\
    (forall x, x ∈ ports -> x <> 0) /\
    ((forall x, x ∈ l -> 0 <= Port x) -> forall x, x ∈ ports -> 1 <= x).
Proof.
  intros Hc Hf. eexists. split; [exact (getPorts_chain _ _ _ _ Hc Hf)|].
  split; [reflexivity|].
  assert (Hlen : (length (reverse (List.filter nonzero (Port <$> l))) <= length l)%nat).
  { rewrite length_reverse.
    etransitivity; [apply List.filter_length_le|]. by rewrite length_fmap. }
  split; [exact Hlen|]. split; [lia|]. split.
  - intros x Hx. apply elem_of_reverse, filter_nonzero_elem in Hx. tauto.
  - intros Hpos x Hx. apply elem_of_reverse, filter_nonzero_elem in Hx.
    destruct Hx as [Hin Hne]. apply list_elem_of_fmap in Hin.
    destruct Hin as (dv & -> & Hdv). specialize (Hpos dv Hdv). lia.
Qed.

Lemma getPorts_bounded_witness :
  exists ports,
    getPorts storeAB 3 devC = Ok ports /\
    ports = reverse (List.filter nonzero (Port <$> [devC; devB; devA])) /\
    (length ports <= 3)%nat /\
    ((3 <= 7)%nat -> (length ports <= 7)%nat) /\
    (forall x, x ∈ ports -> x <> 0) /\
    ((forall x, x ∈ [devC; devB; devA] -> 0 <= Port x) -> forall x, x ∈ ports -> 1 <= x).
Proof.
  exact (getPorts_bounded storeAB devC [devC; devB; devA] 3%nat chain_ABC (le_n 3)).
Defined.

(** ** The transfer engine *)

Lemma land_bit7 (a : Z) : (Z.land a 0x80 =? 0) = negb (Z.testbit a 7).
Proof.
  destruct (Z.testbit a 7) eqn:Hb; simpl.
  - apply Z.eqb_neq. intros H.
    assert (Ht : Z.testbit (Z.land a 0x80) 7 = true).
    { rewrite Z.land_spec, Hb. reflexivity. }
    rewrite H in Ht. rewrite Z.bits_0 in Ht. discriminate.
  - apply Z.eqb_eq. apply Z.bits_inj'. intros n Hn.
    rewrite Z.land_spec, Z.bits_0.
    destruct (decide (n = 7)) as [->|Hne].
    + rewrite Hb. reflexivity.
    + change 0x80 with (2 ^ 7). rewrite Z.pow2_bits_false by lia.
      apply andb_false_r.
Qed.

Section TransferFacts.

Context {K : Type} (kernel : K -> option File -> gusb.request -> K * gusb.response).

Lemma BulkOut_rejects s h e data t :
  handle h e = None \/ Z.testbit (Address e) 7 = true \/ TransferType e <> TransferTypeBulk ->
  exists err, BulkOut kernel s h e data t = (s, (0, Some err)).
Proof.
  intros Hpre. unfold BulkOut.
  destruct (handle h e) as [fd|]; [|eauto].
  rewrite land_bit7, negb_involutive.
  destruct (Z.testbit (Address e) 7); [eauto|].
  destruct (Z.eqb_spec (TransferType e) TransferTypeBulk) as [Ht|Ht]; simpl; [|eauto].
  destruct Hpre as [?|[?|?]]; done.
Qed.

Lemma BulkIn_rejects s h e buffer t :
  handle h e = None \/ Z.testbit (Address e) 7 = false \/ TransferType e <> TransferTypeBulk ->
  exists err, BulkIn kernel s h e buffer t = (s, (0, Some err), buffer).
Proof.
  intros Hpre. unfold BulkIn.
  destruct (handle h e) as [fd|]; [|eauto].
  rewrite land_bit7.
  destruct (Z.testbit (Address e) 7); simpl; [|eauto].
  destruct (Z.eqb_spec (TransferType e) TransferTypeBulk) as [Ht|Ht]; simpl; [|eauto].
  destruct Hpre as [?|[?|?]]; done.
Qed.

Lemma BulkOut_issues s h e data t fd :
  handle h e = Some fd -> Z.testbit (Address e) 7 = false ->
  TransferType e = TransferTypeBulk ->
  gusb.calls (BulkOut kernel s h e data t).1 =
    gusb.calls s ++ [(Some fd, gusb.USBDEVFS_BULK (u32 (Address e))
                        (u32 (Z.of_nat (length data))) (u32 t) data)].
Proof.
  intros Hh Hb Ht. unfold BulkOut. rewrite Hh, land_bit7, Hb, Ht. simpl.
  unfold gusb.Ioctl. destruct (kernel _ _ _) as [k' resp].
  destruct (gusb.errno resp); reflexivity.
Qed.

Lemma BulkIn_issues s h e buffer t fd :
  handle h e = Some fd -> Z.testbit (Address e) 7 = true ->
  TransferType e = TransferTypeBulk ->
  gusb.calls (BulkIn kernel s h e buffer t).1.1 =
    gusb.calls s ++ [(Some fd, gusb.USBDEVFS_BULK (u32 (Address e))
                        (u32 (Z.of_nat (length buffer))) (u32 t) buffer)].
Proof.
  intros Hh Hb Ht. unfold BulkIn. rewrite Hh, land_bit7, Hb, Ht. simpl.
  unfold gusb.Ioctl. destruct (kernel _ _ _) as [k' resp].
  destruct (gusb.errno resp); reflexivity.
Qed.

End TransferFacts.

Lemma app_singleton_neq {A} (l : list A) (x : A) : l ++ [x] <> l.
Proof.
  intros H. apply (f_equal length) in H. rewrite length_app in H. simpl in H. lia.
Qed.

(** C3: [BulkOut] gives back a zero count and an error, and leaves the
    system untouched (no kernel call), as soon as the handle is not open, or
    bit 7 of the address is set, or the transfer type is not 2; [BulkIn]
    likewise when the handle is not open, bit 7 is clear, or the type is not
    2.  A kernel call is made only when all three preconditions hold, and
    then it is the one bulk-transfer request. *)
Theorem Bulk_fails_fast {K} (kernel : K -> option File -> gusb.request -> K * gusb.response)
    (s : gusb.sys K) (h : Heap) (e : Endpoint) (data : list Z) (timeoutMs : Z) :
  (handle h e = None \/ Z.testbit (Address e) 7 = true \/ TransferType e <> 2 ->
     exists err, BulkOut kernel s h e data timeoutMs = (s, (0, Some err))) /\
  (handle h e = None \/ Z.testbit (Address e) 7 = false \/ TransferType e <> 2 ->
     exists err, BulkIn kernel s h e data timeoutMs = (s, (0, Some err), data)) /\
  (gusb.calls (BulkOut kernel s h e data timeoutMs).1 <> gusb.calls s <->
     is_Some (handle h e) /\ Z.testbit (Address e) 7 = false /\ TransferType e = 2) /\
  (gusb.calls (BulkIn kernel s h e data timeoutMs).1.1 <> gusb.calls s <->
     is_Some (handle h e) /\ Z.testbit (Address e) 7 = true /\ TransferType e = 2) /\
  (forall fd, handle h e = Some fd -> TransferType e = 2 ->
     let bulk := gusb.USBDEVFS_BULK (u32 (Address e)) (u32 (Z.of_nat (length data)))
                   (u32 timeoutMs) data in
     (Z.testbit (Address e) 7 = false ->
        gusb.calls (BulkOut kernel s h e data timeoutMs).1 = gusb.calls s ++ [(Some fd, bulk)]) /\
     (Z.testbit (Address e) 7 = true ->
        gusb.calls (BulkIn kernel s h e data timeoutMs).1.1 = gusb.calls s ++ [(Some fd, bulk)])).
Proof.
  split; [apply BulkOut_rejects|]. split; [apply BulkIn_rejects|].
  split; [|split].
  - split.
    + intros Hcalls.
      destruct (handle h e) as [fd|] eqn:Hh; cycle 1.
      { destruct (BulkOut_rejects kernel s h e data timeoutMs) as [err Hr]; [by left|].
        rewrite Hr in Hcalls. done. }
      destruct (Z.testbit (Address e) 7) eqn:Hb.
      { destruct (BulkOut_rejects kernel s h e data timeoutMs) as [err Hr]; [by right; left|].
        rewrite Hr in Hcalls. done. }
      destruct (decide (TransferType e = 2)) as [Ht|Ht]; [by eauto|].
      destruct (BulkOut_rejects kernel s h e data timeoutMs) as [err Hr]; [by right; right|].
      rewrite Hr in Hcalls. done.
    + intros ([fd Hh] & Hb & Ht).
      rewrite (BulkOut_issues kernel s h e data timeoutMs fd Hh Hb Ht).
      apply app_singleton_neq.
  - split.
    + intros Hcalls.
      destruct (handle h e) as [fd|] eqn:Hh; cycle 1.
      { destruct (BulkIn_rejects kernel s h e data timeoutMs) as [err Hr]; [by left|].
        rewrite Hr in Hcalls. done. }
      destruct (Z.testbit (Address e) 7) eqn:Hb; cycle 1.
      { destruct (BulkIn_rejects kernel s h e data timeoutMs) as [err Hr]; [by right; left|].
        rewrite Hr in Hcalls. done. }
      destruct (decide (TransferType e = 2)) as [Ht|Ht]; [by eauto|].
      destruct (BulkIn_rejects kernel s h e data timeoutMs) as [err Hr]; [by right; right|].
      rewrite Hr in Hcalls. done.
    + intros ([fd Hh] & Hb & Ht).
      rewrite (BulkIn_issues kernel s h e data timeoutMs fd Hh Hb Ht).
      apply app_singleton_neq.
  - intros fd Hh Ht bulk. split; intros Hb.
    + by apply BulkOut_issues.
    + by apply BulkIn_issues.
Qed.

(** C3 at concrete endpoints: on the closed device the OUT endpoint is
    refused without a call; on the open device the IN endpoint is refused by
    [BulkOut] and the OUT endpoint by [BulkIn]. *)
Lemma Bulk_fails_fast_witness :
  (exists err, BulkOut idleKernel sys0 closedHeap epOut [7] 0 = (sys0, (0, Some err))) /\
  (exists err, BulkIn idleKernel sys0 openHeap epOut [7] 0 = (sys0, (0, Some err), [7])).
Proof.
  pose proof (Bulk_fails_fast idleKernel sys0 closedHeap epOut [7] 0) as (Hout & _).
  pose proof (Bulk_fails_fast idleKernel sys0 openHeap epOut [7] 0) as (_ & Hin & _).
  split.
  - apply Hout. left. reflexivity.
  - apply Hin. right. left. reflexivity.
Defined.

(** C7: when the disposal signal of the supplied context is already set on
    entry, [WriteContext] and [ReadContext] return a zero count and the
    signal's error at once, whatever the state of the handle, the direction
    bit and the transfer type, and the system is untouched: no kernel call
    and no transfer. *)
Theorem Context_prefired {K} (kernel : K -> option File -> gusb.request -> K * gusb.response)
    (s : gusb.sys K) (h : Heap) (e : Endpoint) (ctx : context_Context)
    (sched : race) (buf : list Z) :
  ctx_Done ctx = true ->
  WriteContext kernel s h e ctx sched buf = (s, (0, ctx_Err ctx)) /\
  ReadContext kernel s h e ctx sched buf = (s, (0, ctx_Err ctx), buf).
Proof.
  intros Hdone. unfold WriteContext, ReadContext. rewrite Hdone. done.
Qed.

Lemma Context_prefired_witness :
  WriteContext idleKernel sys0 closedHeap epIn
    (as_context (mkContext true true ∅)) (ResultFirst closedHeap) [1; 2]
    = (sys0, (0, Some context_Canceled)) /\
  ReadContext idleKernel sys0 closedHeap epIn
    (as_context (mkContext true true ∅)) (ResultFirst closedHeap) [1; 2]
    = (sys0, (0, Some context_Canceled), [1; 2]).
Proof.
  exact (Context_prefired idleKernel sys0 closedHeap epIn
           (as_context (mkContext true true ∅)) (ResultFirst closedHeap) [1; 2] eq_refl).
Defined.

(** ** The context / registry *)

Lemma checkOpenDevs_nonempty c :
  devices c <> ∅ ->
  checkOpenDevs c = Some (fmt_Errorf still_open [Z.of_nat (size (devices c))] None) /\
  (0 < size (devices c))%nat.
Proof.
  intros Hne. apply map_size_non_empty_iff in Hne.
  assert (Hpos : (0 < size (devices c))%nat) by lia.
  unfold checkOpenDevs. apply Nat.ltb_lt in Hpos as Hb. rewrite Hb. done.
Qed.

Lemma checkOpenDevs_empty c : devices c = ∅ -> checkOpenDevs c = None.
Proof.
  intros He. unfold checkOpenDevs. rewrite He, map_size_empty. reflexivity.
Qed.

Lemma Context_Close_error c err :
  checkOpenDevs c = Some err -> Context_Close c = Ok (c, Some err).
Proof. intros H. unfold Context_Close. by rewrite H. Qed.

Lemma Context_Close_inv c :
  ctx_inv c ->
  exists c' e, Context_Close c = Ok (c', e) /\ ctx_inv c' /\
    devices c' = devices c /\
    (done c = true -> c' = c) /\
    (e = None -> done c' = true).
Proof.
  unfold ctx_inv. intros Hinv. unfold Context_Close.
  destruct (checkOpenDevs c) as [err|].
  { exists c, (Some err). repeat split; done. }
  unfold closeOnce_Do, close_done. rewrite Hinv.
  destruct c as [dn once ds]; simpl in *. subst once.
  destruct dn; simpl.
  - eexists _, None. repeat split; done.
  - eexists _, None. repeat split; done.
Qed.

Lemma ctx_run_inv ops : forall c,
  ctx_inv c ->
  exists c' n, ctx_run c ops = Ok (c', n) /\ ctx_inv c' /\
    (n <= 1)%nat /\ (done c = true -> n = 0%nat /\ done c' = true).
Proof.
  induction ops as [|o ops IH]; intros c Hinv.
  - exists c, 0%nat. simpl. repeat split; auto.
  - assert (Hstep : exists c1, ctx_step c o = Ok c1 /\ ctx_inv c1 /\
              (done c = true -> done c1 = true)).
    { destruct o as [d|d|]; simpl.
      - exists (register c d). repeat split; auto.
      - exists (closeDev c d). repeat split; auto.
      - destruct (Context_Close_inv c Hinv) as (c1 & e & Hc & Hi & _ & Hsame & _).
        exists c1. rewrite Hc. simpl. repeat split; auto.
        intros Hd. by rewrite (Hsame Hd). }
    destruct Hstep as (c1 & Hs & Hi1 & Hmono).
    destruct (IH c1 Hi1) as (c2 & n & Hrun & Hi2 & Hn & Hdone).
    exists c2, (fired c c1 + n)%nat. simpl. rewrite Hs. simpl. rewrite Hrun. simpl.
    split; [done|]. split; [done|]. unfold fired.
    destruct (done c) eqn:Hd; simpl.
    + destruct (Hdone (Hmono eq_refl)) as [-> Hd2]. split; [lia|]. auto.
    + destruct (done c1) eqn:Hd1; simpl.
      * destruct (Hdone eq_refl) as [-> _]. split; [lia|]. discriminate.
      * split; [lia|]. discriminate.
Qed.

(** C4: with a non-empty device set [Close] returns the error that reports
    the number of open devices and leaves the context as it was, so the
    disposal signal is not fired.  Whatever registrations, deregistrations
    and [Close] calls came before, the signal went from unset to set at most
    once (and no call panicked); and once the device set is empty again,
    [Close] succeeds with the signal set, and a second [Close] succeeds too
    and changes nothing. *)
Theorem Context_Close_guarded :
  (forall c, devices c <> ∅ ->
     Context_Close c =
       Ok (c, Some (fmt_Errorf still_open [Z.of_nat (size (devices c))] None)) /\
     (0 < size (devices c))%nat) /\
  (forall ops, exists c n,
     ctx_run NewContext ops = Ok (c, n) /\ (n <= 1)%nat /\
     (devices c = ∅ ->
        exists c', Context_Close c = Ok (c', None) /\ done c' = true /\
          Context_Close c' = Ok (c', None) /\
          ctx_run c [OpClose; OpClose] = Ok (c', fired c c'))).
Proof.
  split.
  - intros c Hne. destruct (checkOpenDevs_nonempty c Hne) as [Hc Hpos].
    split; [by apply Context_Close_error | done].
  - intros ops.
    destruct (ctx_run_inv ops NewContext eq_refl) as (c & n & Hrun & Hinv & Hn & _).
    exists c, n. split; [done|]. split; [done|]. intros Hempty.
    destruct (Context_Close_inv c Hinv) as (c1 & e & Hc & Hi1 & Hdev & _ & Hset).
    assert (e = None) as ->.
    { unfold Context_Close in Hc. rewrite (checkOpenDevs_empty c Hempty) in Hc.
      destruct (closeOnce_Do c); simpl in Hc; congruence. }
    specialize (Hset eq_refl).
    destruct (Context_Close_inv c1 Hi1) as (c2 & e2 & Hc2 & _ & _ & Hsame & _).
    rewrite (Hsame Hset) in Hc2.
    assert (e2 = None) as ->.
    { unfold Context_Close in Hc2.
      rewrite (checkOpenDevs_empty c1) in Hc2 by congruence.
      destruct (closeOnce_Do c1); simpl in Hc2; congruence. }
    exists c1. repeat split; try done.
    simpl. rewrite Hc. simpl. rewrite Hc2. simpl.
    unfold fired at 2. rewrite Hset. simpl. by rewrite Nat.add_0_r.
Qed.

(** C4 on the spec's scenario: with devices 1 and 2 registered [Close]
    reports 2 open devices and the signal stays unset; after both are
    deregistered [Close] succeeds, and so does a second [Close], the signal
    having been fired once in all. *)
Lemma Context_Close_guarded_witness :
  Context_Close (register (register NewContext 1%nat) 2%nat)
    = Ok (register (register NewContext 1%nat) 2%nat,
          Some (fmt_Errorf still_open [2] None)) /\
  ctx_run NewContext
    [OpRegister 1%nat; OpRegister 2%nat; OpClose; OpCloseDev 1%nat; OpCloseDev 2%nat;
     OpClose; OpClose]
    = Ok (mkContext true true ∅, 1%nat).
Proof.
  split.
  - assert (Hne : devices (register (register NewContext 1%nat) 2%nat) <> ∅).
    { intros H. apply (f_equal (fun m => m !! 2%nat)) in H. vm_compute in H. discriminate H. }
    destruct (proj1 Context_Close_guarded _ Hne) as [Hc _].
    rewrite Hc. vm_compute. reflexivity.
  - vm_compute. reflexivity.
Defined.

(** ** The claim protocol of package gusb *)

Section ClaimFacts.

Context {K : Type} (kernel : K -> option File -> gusb.request -> K * gusb.response).

Lemma Claim_unfold s f ifno :
  let detach := gusb.USBDEVFS_IOCTL ifno gusb.USBDEVFS_DISCONNECT 0 in
  let claim := gusb.USBDEVFS_CLAIMINTERFACE ifno in
  let k1 := (kernel (gusb.kstate s) f detach).1 in
  let resp1 := (kernel (gusb.kstate s) f detach).2 in
  let k2 := (kernel k1 f claim).1 in
  let resp2 := (kernel k1 f claim).2 in
  gusb.Claim kernel s f ifno =
    (gusb.mkSys k2 (gusb.calls s ++ [(f, detach); (f, claim)])
       (if error_eqb_ENODATA (gusb.errno resp1) then gusb.logged s
        else if gusb.r resp1 =? -1
             then gusb.logged s ++ ["ERROR: driver disconnect failed"]
             else gusb.logged s),
     if gusb.r resp2 =? -1 then gusb.errno resp2 else None).
Proof.
  simpl. unfold gusb.Claim, gusb.Ioctl.
  destruct (kernel (gusb.kstate s) f _) as [k1 resp1]. simpl.
  destruct (error_eqb_ENODATA (gusb.errno resp1)); simpl.
  - destruct (kernel k1 f _) as [k2 resp2]. simpl.
    rewrite <- app_assoc. by destruct (gusb.r resp2 =? -1).
  - destruct (gusb.r resp1 =? -1); simpl;
      destruct (kernel k1 f _) as [k2 resp2]; simpl;
      rewrite <- app_assoc; by destruct (gusb.r resp2 =? -1).
Qed.

Lemma GetDriver_ENODATA s f ifno :
  let q := gusb.USBDEVFS_GETDRIVER (u32 ifno) in
  gusb.errno (kernel (gusb.kstate s) f q).2 = Some ENODATA ->
  gusb.GetDriver kernel s f ifno =
    (gusb.mkSys (kernel (gusb.kstate s) f q).1 (gusb.calls s ++ [(f, q)]) (gusb.logged s),
     (gusb.string_of_bytes (default gusb.zeroDriver (gusb.out (kernel (gusb.kstate s) f q).2)),
      None)).
Proof.
  simpl. intros He. unfold gusb.GetDriver, gusb.Ioctl.
  destruct (kernel (gusb.kstate s) f _) as [k1 resp]. simpl in *.
  rewrite He. reflexivity.
Qed.

End ClaimFacts.

(** C6: [Claim] always sends the detach request and then the
    claim-interface request, whatever the detach request answered; its
    result is decided by the claim-interface request alone, so it is an
    error exactly when that request fails, and an ENODATA answer to the
    detach request is neither returned nor logged.  When the claim fails the
    interface is as claimed or free as it was before the call.  [GetDriver]
    turns an ENODATA answer into the content of the name buffer and a nil
    error.  The kernel is any transition system in which a failing request
    comes with an error and in which neither a failing claim nor the detach
    sub-command changes which interfaces are claimed. *)
Theorem Claim_ignores_detach {K}
    (kernel : K -> option File -> gusb.request -> K * gusb.response)
    (claimed : K -> Z -> bool) (s : gusb.sys K) (f : option File) (ifno : Z) :
  (forall k fd i, gusb.r (kernel k fd (gusb.USBDEVFS_CLAIMINTERFACE i)).2 = -1 ->
     is_Some (gusb.errno (kernel k fd (gusb.USBDEVFS_CLAIMINTERFACE i)).2) /\
     claimed (kernel k fd (gusb.USBDEVFS_CLAIMINTERFACE i)).1 i = claimed k i) ->
  (forall k fd i dt,
     claimed (kernel k fd (gusb.USBDEVFS_IOCTL i gusb.USBDEVFS_DISCONNECT dt)).1 i
       = claimed k i) ->
  let detach := gusb.USBDEVFS_IOCTL ifno gusb.USBDEVFS_DISCONNECT 0 in
  let claim := gusb.USBDEVFS_CLAIMINTERFACE ifno in
  let query := gusb.USBDEVFS_GETDRIVER (u32 ifno) in
  let resp1 := (kernel (gusb.kstate s) f detach).2 in
  let resp2 := (kernel (kernel (gusb.kstate s) f detach).1 f claim).2 in
  let res := gusb.Claim kernel s f ifno in
  gusb.calls res.1 = gusb.calls s ++ [(f, detach); (f, claim)] /\
  res.2 = (if gusb.r resp2 =? -1 then gusb.errno resp2 else None) /\
  (is_Some res.2 <-> gusb.r resp2 = -1) /\
  (gusb.errno resp1 = Some ENODATA -> gusb.logged res.1 = gusb.logged s) /\
  (is_Some res.2 -> claimed (gusb.kstate res.1) ifno = claimed (gusb.kstate s) ifno) /\
  (gusb.errno (kernel (gusb.kstate s) f query).2 = Some ENODATA ->
     (gusb.GetDriver kernel s f ifno).2 =
       (gusb.string_of_bytes
          (default gusb.zeroDriver (gusb.out (kernel (gusb.kstate s) f query).2)), None) /\
     gusb.logged (gusb.GetDriver kernel s f ifno).1 = gusb.logged s).
Proof.
  intros Hfail Hdetach detach claim query resp1 resp2 res.
  pose proof (Claim_unfold kernel s f ifno) as Hc. simpl in Hc.
  subst res. rewrite Hc. simpl. fold detach claim resp1 resp2.
  assert (Hiff : is_Some (if gusb.r resp2 =? -1 then gusb.errno resp2 else None)
                 <-> gusb.r resp2 = -1).
  { destruct (Z.eqb_spec (gusb.r resp2) (-1)) as [Hr|Hr].
    - split; [done|]. intros _. by apply Hfail.
    - split; [|done]. intros [? ?]. done. }
  split; [done|]. split; [done|]. split; [exact Hiff|]. split; [|split].
  - intros ->. reflexivity.
  - intros Hsome. apply Hiff in Hsome.
    destruct (Hfail _ _ _ Hsome) as [_ Hkeep].
    etransitivity; [exact Hkeep | apply Hdetach].
  - intros He. rewrite (GetDriver_ENODATA kernel s f ifno He). done.
Qed.

(** C6 on the small kernel, interface 0 with no driver bound: the detach
    request answers ENODATA, yet [Claim] succeeds and holds the interface;
    [GetDriver] returns the empty name buffer and no error. *)
Lemma Claim_ignores_detach_witness :
  gusb.errno (usbfsKernel (gusb.kstate usbfs0) (Some 3)
                (gusb.USBDEVFS_IOCTL 0 gusb.USBDEVFS_DISCONNECT 0)).2 = Some ENODATA /\
  (gusb.Claim usbfsKernel usbfs0 (Some 3) 0).2 = None /\
  gusb.logged (gusb.Claim usbfsKernel usbfs0 (Some 3) 0).1 = [] /\
  (gusb.GetDriver usbfsKernel usbfs0 (Some 3) 0).2
    = (gusb.string_of_bytes gusb.zeroDriver, None).
Proof.
  assert (H1 : forall k fd i,
    gusb.r (usbfsKernel k fd (gusb.USBDEVFS_CLAIMINTERFACE i)).2 = -1 ->
    is_Some (gusb.errno (usbfsKernel k fd (gusb.USBDEVFS_CLAIMINTERFACE i)).2) /\
    usbfs_claimed (usbfsKernel k fd (gusb.USBDEVFS_CLAIMINTERFACE i)).1 i = usbfs_claimed k i).
  { intros k fd i. simpl. destruct (bound k !! i); simpl; [eauto | discriminate]. }
  assert (H2 : forall k fd i dt,
    usbfs_claimed (usbfsKernel k fd (gusb.USBDEVFS_IOCTL i gusb.USBDEVFS_DISCONNECT dt)).1 i
      = usbfs_claimed k i).
  { intros k fd i dt. simpl. destruct (bound k !! i); reflexivity. }
  pose proof (Claim_ignores_detach usbfsKernel usbfs_claimed usbfs0 (Some 3) 0 H1 H2)
    as (_ & Hres & _ & Hlog & _ & Hget).
  split; [reflexivity|]. split; [rewrite Hres; reflexivity|].
  split; [apply Hlog; reflexivity|].
  destruct Hget as [Hg _]; [reflexivity|]. rewrite Hg. reflexivity.
Defined.

(** ** The model builder *)

Lemma bind_Ok {A B} (m : outcome A) (k : A -> outcome B) r :
  m ≫= k = Ok r -> exists a, m = Ok a /\ k a = Ok r.
Proof. destruct m as [a| |]; simpl; [eauto | discriminate | discriminate]. Qed.

Lemma bind_oob {A B} (m : outcome A) (k : A -> outcome B) :
  ok_or_oob m -> (forall a, ok_or_oob (k a)) -> ok_or_oob (m ≫= k).
Proof. intros [[a ->]| ->] Hk; simpl; [apply Hk | by right]. Qed.

Lemma ok_oob_Ok {A} (a : A) : ok_or_oob (Ok a).
Proof. left. eauto. Qed.

Lemma ok_oob_Panic {A} : ok_or_oob (@Panic A index_out_of_range).
Proof. by right. Qed.

Lemma fillEndpoints_total il eds : forall idx eps,
  ok_or_oob (fillEndpoints il eds idx eps).
Proof.
  induction eds as [|e eds IH]; intros idx eps; simpl.
  - apply ok_oob_Ok.
  - destruct (idx <? length eps)%nat; [apply IH | apply ok_oob_Panic].
Qed.

Lemma toInterface_total h i d : ok_or_oob (toInterface h i d).
Proof.
  unfold toInterface. apply bind_oob; [apply fillEndpoints_total|].
  intros a. apply ok_oob_Ok.
Qed.

Lemma toInterface_Ok h i d h' x :
  toInterface h i d = Ok (h', x) ->
  h_devs h' = h_devs h /\ h_cfgs h' = h_cfgs h /\ h_ctxs h' = h_ctxs h /\
  ID x = gusb.InterfaceNumber i /\ if_d x = Some d /\
  h_intfs h' = h_intfs h ++ [x].
Proof.
  unfold toInterface. intros H. apply bind_Ok in H as (eps & _ & H).
  injection H as <- <-. done.
Qed.


Lemma fillInterfaces_Ok d ids : forall h ifs h' ifs',
  fillInterfaces h d ids ifs = Ok (h', ifs') ->
  h_devs h' = h_devs h /\ h_cfgs h' = h_cfgs h /\ h_ctxs h' = h_ctxs h /\
  length ifs' = length ifs /\
  Forall (fun i => 0 <= gusb.InterfaceNumber i < Z.of_nat (length ifs)) ids /\
  (forall j, (forall i, i ∈ ids -> gusb.InterfaceNumber i <> Z.of_nat j) ->
     ifs' !! j = ifs !! j).
Proof.
  induction ids as [|i ids IH]; intros h ifs h' ifs' H; simpl in H.
  - injection H as <- <-. repeat split; auto.
  - apply bind_Ok in H as ([h1 x] & Hx & H).
    in_bounds H Hlo Hhi.
    apply IH in H as (Hd & Hc & Hx' & Hlen & Hall & Hkeep).
    apply toInterface_Ok in Hx as (Hd1 & Hc1 & Hx1 & _).
    rewrite length_insert in Hlen, Hall.
    split; [congruence|]. split; [congruence|]. split; [congruence|].
    split; [done|]. split.
    + constructor; [lia | done].
    + intros j Hj. rewrite Hkeep.
      * apply list_lookup_insert_ne. intros Heq.
        apply (Hj i); [by left | lia].
      * intros i' Hi'. apply Hj. by right.
Qed.

(** The last record carrying an interface number is the one found at that
    index. *)
Lemma fillInterfaces_placed d pre i post : forall h ifs h' ifs',
  fillInterfaces h d (pre ++ i :: post) ifs = Ok (h', ifs') ->
  (forall i', i' ∈ post -> gusb.InterfaceNumber i' <> gusb.InterfaceNumber i) ->
  exists hi hi' x,
    toInterface hi i d = Ok (hi', x) /\
    ifs' !! Z.to_nat (gusb.InterfaceNumber i) = Some x /\
    0 <= gusb.InterfaceNumber i < Z.of_nat (length ifs).
Proof.
  induction pre as [|i0 pre IH]; intros h ifs h' ifs' H Hlast; simpl in H.
  - apply bind_Ok in H as ([h1 x] & Hx & H).
    in_bounds H Hlo Hhi.
    apply fillInterfaces_Ok in H as (_ & _ & _ & _ & _ & Hkeep).
    exists h, h1, x. split; [done|]. split; [|lia].
    rewrite Hkeep.
    + apply list_lookup_insert_eq. lia.
    + intros i' Hi'. rewrite Z2Nat.id by lia. by apply Hlast.
  - apply bind_Ok in H as ([h1 x] & Hx & H).
    destruct (_ && _); [|discriminate].
    destruct (IH _ _ _ _ H Hlast) as (hi & hi' & y & Hy & Hl & Hr).
    rewrite length_insert in Hr. eauto 10.
Qed.


Lemma toConfig_Ok h c d h' cfg :
  toConfig h c d = Ok (h', cfg) ->
  h_devs h' = h_devs h /\ h_cfgs h' = h_cfgs h /\ h_ctxs h' = h_ctxs h /\
  Value cfg = gusb.Value c /\ cfg_d cfg = Some d /\
  exists h1,
    fillInterfaces h d (gusb.Interfaces c)
      (replicate (Z.to_nat (gusb.NumInterfaces c)) zeroInterface)
      = Ok (h1, Interfaces cfg).
Proof.
  unfold toConfig. intros H. apply bind_Ok in H as ([h1 ifs] & Hf & H).
  injection H as <- <-.
  pose proof (fillInterfaces_Ok _ _ _ _ _ _ Hf) as (Hd & Hc & Hx & _).
  simpl. repeat split; eauto.
Qed.


Lemma store_cfg_Ok h s i v h' arr :
  store_cfg h s i v = Ok h' ->
  h_cfgs h !! s_arr s = Some arr ->
  0 <= i < Z.of_nat (s_len s) /\
  h_devs h' = h_devs h /\ h_ctxs h' = h_ctxs h /\ h_intfs h' = h_intfs h /\
  length (h_cfgs h') = length (h_cfgs h) /\
  (forall a, a <> s_arr s -> h_cfgs h' !! a = h_cfgs h !! a) /\
  h_cfgs h' !! s_arr s = Some (<[Z.to_nat i := v]> arr).
Proof.
  unfold store_cfg. intros H Harr. in_bounds H Hlo Hhi.
  injection H as <-. simpl. split; [lia|]. repeat split; try done.
  - apply length_alter.
  - intros a Ha. by apply list_lookup_alter_ne.
  - rewrite list_lookup_alter_eq, Harr. done.
Qed.


Lemma fillConfigs_Ok s p cds : forall h h' arr,
  fillConfigs h s p cds = Ok h' ->
  h_cfgs h !! s_arr s = Some arr -> length arr = s_len s ->
  h_devs h' = h_devs h /\ h_ctxs h' = h_ctxs h /\
  length (h_cfgs h') = length (h_cfgs h) /\
  (forall a, a <> s_arr s -> h_cfgs h' !! a = h_cfgs h !! a) /\
  Forall (fun c => u8 (gusb.Value c - 1) < Z.of_nat (s_len s)) cds /\
  exists arr',
    h_cfgs h' !! s_arr s = Some arr' /\ length arr' = s_len s /\
    (forall j, (forall c, c ∈ cds -> u8 (gusb.Value c - 1) <> Z.of_nat j) ->
       arr' !! j = arr !! j).
Proof.
  induction cds as [|c cds IH]; intros h h' arr H Harr Hlen; simpl in H.
  - injection H as <-. repeat split; eauto.
  - apply bind_Ok in H as ([h1 cfg] & Hc & H).
    apply bind_Ok in H as (h2 & Hs & H).
    apply toConfig_Ok in Hc as (Hd1 & Hc1 & Hx1 & _).
    rewrite <- Hc1 in Harr.
    apply (store_cfg_Ok _ _ _ _ _ arr) in Hs as (Hi & Hd2 & Hx2 & _ & Hl2 & Ho2 & Ha2);
      [|done].
    eapply IH in H as (Hd3 & Hx3 & Hl3 & Ho3 & Hall & arr' & Ha3 & Hlen3 & Hk3);
      [| exact Ha2 | by rewrite length_insert].
    split; [congruence|]. split; [congruence|]. split; [congruence|]. split.
    { intros a Ha. rewrite Ho3, Ho2 by done. by rewrite Hc1. }
    split; [constructor; [lia | done]|].
    exists arr'. split; [done|]. split; [done|].
    intros j Hj. rewrite Hk3.
    + apply list_lookup_insert_ne. intros Heq. apply (Hj c); [by left | lia].
    + intros c' Hc'. apply Hj. by right.
Qed.

(** The last record carrying a selector is the one found at its index. *)
Lemma fillConfigs_placed s p pre c post : forall h h' arr,
  fillConfigs h s p (pre ++ c :: post) = Ok h' ->
  h_cfgs h !! s_arr s = Some arr -> length arr = s_len s ->
  (forall c', c' ∈ post -> u8 (gusb.Value c' - 1) <> u8 (gusb.Value c - 1)) ->
  exists hc hc' cfg arr',
    toConfig hc c p = Ok (hc', cfg) /\
    h_cfgs h' !! s_arr s = Some arr' /\
    arr' !! Z.to_nat (u8 (gusb.Value c - 1)) = Some cfg.
Proof.
  induction pre as [|c0 pre IH]; intros h h' arr H Harr Hlen Hlast; simpl in H.
  - apply bind_Ok in H as ([h1 cfg] & Hc & H).
    apply bind_Ok in H as (h2 & Hs & H).
    pose proof (toConfig_Ok _ _ _ _ _ Hc) as (_ & Hc1 & _).
    rewrite <- Hc1 in Harr.
    apply (store_cfg_Ok _ _ _ _ _ arr) in Hs as (Hi & _ & _ & _ & _ & _ & Ha2); [|done].
    eapply fillConfigs_Ok in H as (_ & _ & _ & _ & _ & arr' & Ha3 & _ & Hk3);
      [| exact Ha2 | by rewrite length_insert].
    exists h, h1, cfg, arr'. split; [done|]. split; [done|].
    rewrite Hk3.
    + apply list_lookup_insert_eq. lia.
    + intros c' Hc'. rewrite Z2Nat.id by lia. by apply Hlast.
  - apply bind_Ok in H as ([h1 cfg] & Hc & H).
    apply bind_Ok in H as (h2 & Hs & H).
    pose proof (toConfig_Ok _ _ _ _ _ Hc) as (_ & Hc1 & _).
    rewrite <- Hc1 in Harr.
    apply (store_cfg_Ok _ _ _ _ _ arr) in Hs as (Hi & _ & _ & _ & _ & _ & Ha2); [|done].
    eapply IH in H; [exact H | exact Ha2 | by rewrite length_insert | done].
Qed.





Lemma resolveSysPath_Ok w d d' : resolveSysPath w d = Ok d' -> d' = resolved w d.
Proof. intros H. unfold resolved. by rewrite H. Qed.

(** The look-up touches nothing but the path. *)
Lemma resolved_fields w d :
  let d' := resolved w d in
  Bus d' = Bus d /\ DeviceNum d' = DeviceNum d /\ ctx d' = ctx d /\ f d' = f d /\
  ActiveConfig d' = ActiveConfig d /\ Configs d' = Configs d /\ Vendor d' = Vendor d /\
  Product d' = Product d /\ Parent d' = Parent d /\
  SysPath d' =
    (if string_empty (SysPath d)
     then match sysfs.getSysfsFromBusDev (sysFiles w) (sysVisits w) (Bus d) (DeviceNum d) with
          | Ok sp => sp
          | _ => SysPath d
          end
     else SysPath d).
Proof.
  unfold resolved, resolveSysPath. cbv zeta.
  destruct (string_empty (SysPath d)); [|done].
  by destruct (sysfs.getSysfsFromBusDev _ _ _ _).
Qed.

#[local] Arguments resolved : simpl never.

Lemma Configs_deviceAtFetch w h dd :
  Configs (deviceAtFetch w h dd) = Configs (newDevice w (length (h_cfgs h)) dd).
Proof.
  destruct (resolved_fields w (newDevice w (length (h_cfgs h)) dd))
    as (_ & _ & _ & _ & _ & Hc & _).
  cbv zeta in Hc. rewrite <- Hc.
  unfold deviceAtFetch, fetchFields.
  repeat (case_match; simpl); reflexivity.
Qed.

Lemma ActiveConfig_deviceAtFetch w h dd : ActiveConfig (deviceAtFetch w h dd) = None.
Proof.
  destruct (resolved_fields w (newDevice w (length (h_cfgs h)) dd))
    as (_ & _ & _ & _ & Ha & _).
  cbv zeta in Ha. change (ActiveConfig (newDevice w (length (h_cfgs h)) dd)) with
    (@None cfgptr) in Ha. rewrite <- Ha.
  unfold deviceAtFetch, fetchFields.
  repeat (case_match; simpl); reflexivity.
Qed.

Lemma addr_cfg_Ok s i ac :
  addr_cfg s i = Ok ac ->
  0 <= i < Z.of_nat (s_len s) /\ ac = mkCfgptr (s_arr s) (Z.to_nat i).
Proof.
  unfold addr_cfg. intros H. in_bounds H Hlo Hhi. injection H as <-. split; [lia | done].
Qed.


Lemma Configs_linkDevice w src ac d : Configs (linkDevice w src ac d) = Configs d.
Proof. unfold linkDevice. repeat (case_match; simpl); reflexivity. Qed.

Lemma ActiveConfig_linkDevice w src ac d :
  ActiveConfig (linkDevice w src ac d) = Some ac.
Proof. unfold linkDevice. repeat (case_match; simpl); reflexivity. Qed.

(** What a returning [finishDevice] did. *)
Lemma finishDevice_Ok w fuel h p src d h' q :
  finishDevice w fuel h p src d = Ok (h', q) ->
  exists ac ports,
    q = p /\
    addr_cfg (Configs d) (activeSelector src d - 1) = Ok ac /\
    getPorts (<[p := linkDevice w src ac d]> (h_devs h)) fuel (linkDevice w src ac d)
      = Ok ports /\
    h' = store_dev h p (set_Ports ports (linkDevice w src ac d)).
Proof.
  unfold finishDevice. intros H.
  apply bind_Ok in H as (ac & Hac & H).
  apply bind_Ok in H as (ports & Hports & H).
  injection H as <- <-. exists ac, ports. split; [done|]. split; [done|].
  split; [exact Hports|].
  unfold store_dev, set_devs. simpl. rewrite list_insert_insert_eq. reflexivity.
Qed.

(** A returning [toDevice] has filled the configurations, has come back
    from the look-up of the path, and has finished on the device and the
    data source named above. *)
Lemma toDevice_unfold w fuel h dd r :
  toDevice w fuel h dd = Ok r ->
  let d0 := newDevice w (length (h_cfgs h)) dd in
  exists h1 d1,
    fillConfigs (allocDevice h d0) (Configs d0) (length (h_devs h)) (gusb.Configs dd) = Ok h1 /\
    resolveSysPath w d0 = Ok d1 /\
    finishDevice w fuel h1 (length (h_devs h)) (sourceAtFetch w h dd) (deviceAtFetch w h dd)
      = Ok r.
Proof.
  intros H d0. unfold toDevice in H. fold d0 in H.
  apply bind_Ok in H as (h1 & Hf & H).
  apply bind_Ok in H as (d1 & Hr & H).
  exists h1, d1. split; [done|]. split; [done|].
  unfold sourceAtFetch, deviceAtFetch. fold d0.
  by rewrite <- (resolveSysPath_Ok _ _ _ Hr).
Qed.

(** What a returning [toDevice] did. *)
Lemma toDevice_Ok w fuel h dd h' p :
  toDevice w fuel h dd = Ok (h', p) ->
  let d0 := newDevice w (length (h_cfgs h)) dd in
  exists h1 ac d,
    p = length (h_devs h) /\
    fillConfigs (allocDevice h d0) (Configs d0) p (gusb.Configs dd) = Ok h1 /\
    addr_cfg (Configs d0)
      (activeSelector (sourceAtFetch w h dd) (deviceAtFetch w h dd) - 1) = Ok ac /\
    h' = store_dev h1 p d /\
    Configs d = Configs d0 /\ ActiveConfig d = Some ac.
Proof.
  intros H d0. apply toDevice_unfold in H as (h1 & d1 & Hf & _ & H).
  apply finishDevice_Ok in H as (ac & ports & -> & Hac & _ & ->).
  rewrite Configs_deviceAtFetch in Hac.
  eexists h1, ac, _. split; [done|]. split; [done|]. split; [done|].
  split; [reflexivity|]. simpl.
  by rewrite Configs_linkDevice, ActiveConfig_linkDevice, Configs_deviceAtFetch.
Qed.

Lemma is_u8_spec z : is_u8 z = true <-> 0 <= z < 256.
Proof.
  unfold is_u8. rewrite andb_true_iff, Z.leb_le, Z.ltb_lt. done.
Qed.

Lemma u8_pred v : 0 <= v < 256 -> u8 (v - 1) = if v =? 0 then 255 else v - 1.
Proof.
  intros Hv. unfold u8. change (2 ^ 8) with 256.
  destruct (Z.eqb_spec v 0) as [->|Hne]; [reflexivity|].
  apply Z.mod_small. lia.
Qed.

Lemma wf_descriptor_spec dd :
  wf_descriptor dd = true ->
  0 <= gusb.NumConfigs dd < 256 /\
  forall c, c ∈ gusb.Configs dd -> 0 <= gusb.Value c < 256.
Proof.
  unfold wf_descriptor. rewrite andb_true_iff, is_u8_spec, forallb_forall.
  intros [Hn Hc]. split; [done|]. intros c Hin.
  apply list_elem_of_In, Hc in Hin. unfold wf_config in Hin.
  rewrite !andb_true_iff, !is_u8_spec in Hin. tauto.
Qed.

(** The last element of a list that satisfies a decidable property. *)
Lemma last_occurrence {A} (P : A -> Prop) `{!forall x, Decision (P x)} (l : list A) :
  Exists P l ->
  exists pre y post, l = pre ++ y :: post /\ P y /\ forall z, z ∈ post -> ~ P z.
Proof.
  induction l as [|a l IH]; intros Hex; [by apply Exists_nil in Hex|].
  destruct (decide (Exists P l)) as [Hl|Hnl].
  - destruct (IH Hl) as (pre & z & post & -> & Hz & Hpost).
    exists (a :: pre), z, post. done.
  - apply Exists_cons in Hex as [Ha|Hl]; [|done].
    exists [], a, l. split; [done|]. split; [done|].
    intros z Hz HPz. apply Hnl, Exists_exists. eauto.
Qed.

(** What a returning [toConfig] built: the declared number of interface
    slots, the last record with a number at the slot of that number. *)
Lemma toConfig_positional h c d h' cfg :
  toConfig h c d = Ok (h', cfg) ->
  Value cfg = gusb.Value c /\
  length (Interfaces cfg) = Z.to_nat (gusb.NumInterfaces c) /\
  (forall ipre i ipost,
     gusb.Interfaces c = ipre ++ i :: ipost ->
     (forall i', i' ∈ ipost -> gusb.InterfaceNumber i' <> gusb.InterfaceNumber i) ->
     exists x,
       Interfaces cfg !! Z.to_nat (gusb.InterfaceNumber i) = Some x /\
       (exists hi hi', toInterface hi i d = Ok (hi', x)) /\
       ID x = gusb.InterfaceNumber i) /\
  (forall j x,
     Interfaces cfg !! j = Some x ->
     (exists i, i ∈ gusb.Interfaces c /\ gusb.InterfaceNumber i = Z.of_nat j) ->
     ID x = Z.of_nat j) /\
  (forall j,
     (j < Z.to_nat (gusb.NumInterfaces c))%nat ->
     (forall i, i ∈ gusb.Interfaces c -> gusb.InterfaceNumber i <> Z.of_nat j) ->
     Interfaces cfg !! j = Some zeroInterface).
Proof.
  intros H. apply toConfig_Ok in H as (_ & _ & _ & Hv & _ & h1 & Hf).
  split; [done|].
  pose proof (fillInterfaces_Ok _ _ _ _ _ _ Hf) as (_ & _ & _ & Hlen & _ & Hkeep).
  rewrite length_replicate in Hlen. split; [done|].
  assert (Hplaced : forall ipre i ipost,
     gusb.Interfaces c = ipre ++ i :: ipost ->
     (forall i', i' ∈ ipost -> gusb.InterfaceNumber i' <> gusb.InterfaceNumber i) ->
     exists x,
       Interfaces cfg !! Z.to_nat (gusb.InterfaceNumber i) = Some x /\
       (exists hi hi', toInterface hi i d = Ok (hi', x)) /\
       ID x = gusb.InterfaceNumber i).
  { intros ipre i ipost Hsplit Hlast. rewrite Hsplit in Hf.
    destruct (fillInterfaces_placed _ _ _ _ _ _ _ _ Hf Hlast)
      as (hi & hi' & x & Hx & Hl & _).
    exists x. split; [done|]. split; [eauto|].
    by apply toInterface_Ok in Hx as (_ & _ & _ & Hid & _). }
  split; [exact Hplaced|]. split; cycle 1.
  { intros j Hj Hnone. rewrite (Hkeep j Hnone). by apply lookup_replicate_2. }
  intros j x Hj (i & Hin & Hnum).
  destruct (last_occurrence (fun i => gusb.InterfaceNumber i = Z.of_nat j)
              (gusb.Interfaces c)) as (ipre & i' & ipost & Hsplit & Hi' & Hpost).
  { apply Exists_exists. eauto. }
  destruct (Hplaced ipre i' ipost Hsplit) as (y & Hy & _ & Hid).
  { intros z Hz. rewrite Hi'. by apply Hpost. }
  rewrite Hi', Nat2Z.id in Hy. assert (x = y) as -> by congruence.
  by rewrite Hid.
Qed.

(** C5: a returning [toDevice] has allocated [Configs] with the declared
    number of configurations and has put the record with selector [k] at
    index [k - 1] (where several records carry one selector, the last of
    them); each configuration has the declared number of interface slots and
    the record with interface number [n] at index [n], so that a slot some
    record was put in holds an interface whose number is the slot's index. *)
Theorem toDevice_positional w fuel h dd h' p :
  wf_descriptor dd = true ->
  toDevice w fuel h dd = Ok (h', p) ->
  exists d arr,
    h_devs h' !! p = Some d /\
    h_cfgs h' !! s_arr (Configs d) = Some arr /\
    s_len (Configs d) = Z.to_nat (gusb.NumConfigs dd) /\
    length arr = Z.to_nat (gusb.NumConfigs dd) /\
    (forall j,
       (j < Z.to_nat (gusb.NumConfigs dd))%nat ->
       (forall c, c ∈ gusb.Configs dd -> gusb.Value c <> Z.of_nat j + 1) ->
       arr !! j = Some zeroConfiguration) /\
    forall pre c post,
      gusb.Configs dd = pre ++ c :: post ->
      (forall c', c' ∈ post -> gusb.Value c' <> gusb.Value c) ->
      1 <= gusb.Value c <= gusb.NumConfigs dd /\
      exists cfg,
        arr !! Z.to_nat (gusb.Value c - 1) = Some cfg /\
        (exists hc hc', toConfig hc c p = Ok (hc', cfg)) /\
        Value cfg = gusb.Value c /\
        length (Interfaces cfg) = Z.to_nat (gusb.NumInterfaces c) /\
        (forall ipre i ipost,
           gusb.Interfaces c = ipre ++ i :: ipost ->
           (forall i', i' ∈ ipost -> gusb.InterfaceNumber i' <> gusb.InterfaceNumber i) ->
           exists x,
             Interfaces cfg !! Z.to_nat (gusb.InterfaceNumber i) = Some x /\
             (exists hi hi', toInterface hi i p = Ok (hi', x)) /\
             ID x = gusb.InterfaceNumber i) /\
        (forall j x,
           Interfaces cfg !! j = Some x ->
           (exists i, i ∈ gusb.Interfaces c /\ gusb.InterfaceNumber i = Z.of_nat j) ->
           ID x = Z.of_nat j) /\
        (forall j,
           (j < Z.to_nat (gusb.NumInterfaces c))%nat ->
           (forall i, i ∈ gusb.Interfaces c -> gusb.InterfaceNumber i <> Z.of_nat j) ->
           Interfaces cfg !! j = Some zeroInterface).
Proof.
  intros Hwf H.
  destruct (wf_descriptor_spec dd Hwf) as [Hn Hvals].
  apply toDevice_Ok in H as (h1 & ac & d & Hp & Hfill & _ & -> & Hcfg & _).
  set (d0 := newDevice w (length (h_cfgs h)) dd) in *.
  assert (Harr0 : h_cfgs (allocDevice h d0) !! s_arr (Configs d0)
                  = Some (replicate (s_len (Configs d0)) zeroConfiguration)).
  { simpl. apply list_lookup_middle. done. }
  pose proof (fillConfigs_Ok _ _ _ _ _ _ Hfill Harr0 (length_replicate _ _))
    as (Hdevs & _ & _ & _ & Hall & arr & Harr & Hlen & Hkeep).
  exists d, arr. simpl. rewrite Hcfg.
  split.
  { apply list_lookup_insert_eq. rewrite Hdevs. simpl. rewrite length_app. simpl. lia. }
  split; [done|]. split; [done|]. split; [done|]. split.
  { intros j Hj Hnone. rewrite Hkeep; [by apply lookup_replicate_2|].
    intros c Hc. specialize (Hnone c Hc). rewrite (u8_pred _ (Hvals c Hc)).
    destruct (Z.eqb_spec (gusb.Value c) 0); lia. }
  intros pre c post Hsplit Hlast.
  assert (Hin : c ∈ gusb.Configs dd).
  { rewrite Hsplit. apply elem_of_app. right. by left. }
  pose proof (Hvals c Hin) as Hv.
  assert (Hidx : u8 (gusb.Value c - 1) < Z.of_nat (s_len (Configs d0))).
  { rewrite Forall_forall in Hall. by apply Hall. }
  simpl in Hidx. rewrite (u8_pred _ Hv) in Hidx.
  assert (Hpos : 1 <= gusb.Value c <= gusb.NumConfigs dd).
  { destruct (Z.eqb_spec (gusb.Value c) 0); lia. }
  split; [done|].
  rewrite Hsplit in Hfill.
  destruct (fillConfigs_placed _ _ _ _ _ _ _ _ Hfill Harr0 (length_replicate _ _))
    as (hc & hc' & cfg & arr' & Hc & Harr' & Hat).
  { intros c' Hc'.
    assert (Hv' : 0 <= gusb.Value c' < 256).
    { apply Hvals. rewrite Hsplit. apply elem_of_app. right. by right. }
    rewrite (u8_pred _ Hv), (u8_pred _ Hv'). specialize (Hlast c' Hc').
    destruct (Z.eqb_spec (gusb.Value c) 0), (Z.eqb_spec (gusb.Value c') 0); lia. }
  assert (arr' = arr) as -> by congruence.
  rewrite (u8_pred _ Hv) in Hat.
  destruct (Z.eqb_spec (gusb.Value c) 0) as [?|_]; [lia|].
  exists cfg. split; [done|]. split; [eauto|].
  exact (toConfig_positional _ _ _ _ _ Hc).
Qed.

Lemma toDevice_twoConfigs :
  toDevice (testWorld (1, None) None) 1 emptyHeap twoConfigs = Ok (builtHeap, 0%nat).
Proof. vm_compute. reflexivity. Qed.

(** C5 on [twoConfigs]: although the record with selector 2 comes first, the
    configuration with selector 1 sits at index 0, and its interface number
    1, listed first, at index 1. *)
Lemma toDevice_positional_witness :
  exists d arr cfg x,
    h_devs builtHeap !! 0%nat = Some d /\
    h_cfgs builtHeap !! s_arr (Configs d) = Some arr /\
    length arr = 2%nat /\
    arr !! 0%nat = Some cfg /\ Value cfg = 1 /\
    Interfaces cfg !! 1%nat = Some x /\ ID x = 1.
Proof.
  destruct (toDevice_positional (testWorld (1, None) None) 1 emptyHeap twoConfigs
              builtHeap 0%nat eq_refl toDevice_twoConfigs)
    as (d & arr & Hd & Harr & _ & Hlen & _ & Hplaced).
  destruct (Hplaced [cfd2] cfd1 [] eq_refl) as (_ & cfg & Hcfg & _ & Hv & _ & Hifs & _).
  { intros c' Hc'. by apply not_elem_of_nil in Hc'. }
  destruct (Hifs [] (ifd 1) [ifd 0] eq_refl) as (x & Hx & _ & Hid).
  { intros i' Hi'. apply list_elem_of_singleton in Hi' as ->. discriminate. }
  exists d, arr, cfg, x. repeat split; assumption.
Defined.

Lemma toDevice_gapDescriptor :
  exists h, toDevice (testWorld (1, None) None) 1 emptyHeap gapDescriptor = Ok (h, 0%nat).
Proof. eexists. vm_compute. reflexivity. Qed.

(** C5 (as stated, refuted): on the parsed descriptor [gapDescriptor], whose
    configuration declares two interfaces and lists interface 0 only,
    [toDevice] returns and the interface stored at index 1 does not have
    interface number 1 (it is the zero value, with number 0). *)
Lemma toDevice_gap_slot_number :
  wf_descriptor gapDescriptor = true /\
  exists h d arr cfg x,
    toDevice (testWorld (1, None) None) 1 emptyHeap gapDescriptor = Ok (h, 0%nat) /\
    h_devs h !! 0%nat = Some d /\
    h_cfgs h !! s_arr (Configs d) = Some arr /\
    arr !! 0%nat = Some cfg /\
    Interfaces cfg !! 1%nat = Some x /\
    ID x <> 1.
Proof.
  split; [reflexivity|].
  destruct toDevice_gapDescriptor as [h Hh].
  pose proof Hh as Hh'. vm_compute in Hh'. injection Hh' as <-.
  eexists _, _, _, _, _. split; [exact Hh|].
  split; [reflexivity|]. split; [reflexivity|]. split; [reflexivity|].
  split; [reflexivity|]. simpl. discriminate.
Qed.

(** ** The index precondition of the builder *)






(** ** SetConfiguration and the ActiveConfig invariant *)

Lemma SetConfiguration_success w h p cfg d k :
  h_devs h !! p = Some d -> dataSource d = Some k ->
  setConfiguration (backing w k) d cfg = None ->
  SetConfiguration w h p cfg = Ok (h, None).
Proof.
  intros Hd Hk Hs. unfold SetConfiguration, load_dev, the_backing.
  rewrite Hd. simpl. rewrite Hk. simpl. rewrite Hs. reflexivity.
Qed.

Lemma SetConfiguration_Ok w h p cfg h' e :
  SetConfiguration w h p cfg = Ok (h', e) ->
  exists d k,
    h_devs h !! p = Some d /\ dataSource d = Some k /\
    e = setConfiguration (backing w k) d cfg /\
    ((e = None /\ h' = h) \/
     (is_Some e /\ 0 <= cfg - 1 < Z.of_nat (s_len (Configs d)) /\
      h' = store_dev h p
             (set_ActiveConfig (Some (mkCfgptr (s_arr (Configs d)) (Z.to_nat (cfg - 1)))) d))).
Proof.
  unfold SetConfiguration, load_dev, the_backing. intros H.
  destruct (h_devs h !! p) as [d|] eqn:Hd; [|discriminate]. simpl in H.
  destruct (dataSource d) as [k|] eqn:Hk; [|discriminate]. simpl in H.
  exists d, k. split; [done|]. split; [done|].
  destruct (setConfiguration (backing w k) d cfg) as [err|].
  - apply bind_Ok in H as (ac & Hac & H). injection H as <- <-.
    apply addr_cfg_Ok in Hac as [Hi ->]. split; [done|]. right. eauto.
  - injection H as <- <-. split; [done|]. by left.
Qed.

(** C1 (the code at a failing input): on the device built from
    [twoConfigs], whose active configuration is element 0, a
    set-configuration call for selector 2 that succeeds returns nil and
    leaves the heap, hence [ActiveConfig], as it was; the same request with
    a failing call returns the error and moves [ActiveConfig] to element 1. *)
Lemma SetConfiguration_updates_on_error_only :
  (ActiveConfig <$> h_devs builtHeap !! 0%nat) = Some (Some (mkCfgptr 0 0)) /\
  SetConfiguration (testWorld (1, None) None) builtHeap 0 2 = Ok (builtHeap, None) /\
  exists h',
    SetConfiguration (testWorld (1, None) (Some EBUSY)) builtHeap 0 2 = Ok (h', Some EBUSY) /\
    (ActiveConfig <$> h_devs h' !! 0%nat) = Some (Some (mkCfgptr 0 1)).
Proof.
  split; [reflexivity|]. split; [reflexivity|].
  eexists. split; reflexivity.
Qed.

Lemma dev_ok_frame h h' d :
  dev_ok h d ->
  (forall a, (a < length (h_cfgs h))%nat -> h_cfgs h' !! a = h_cfgs h !! a) ->
  dev_ok h' d.
Proof.
  intros [(arr & Harr & Hlen) Hact] Hsame.
  assert (Hs : h_cfgs h' !! s_arr (Configs d) = Some arr).
  { rewrite Hsame; [done|]. by apply lookup_lt_Some in Harr. }
  split; [eauto|].
  intros p Hp. destruct (Hact p Hp) as [Hal Hderef]. split; [done|].
  destruct Hal as (i & Hi & ->). unfold deref_cfg in *. simpl in *.
  rewrite Hs. rewrite Harr in Hderef. done.
Qed.

Lemma heap_inv_store h p d :
  heap_inv h -> dev_ok h d -> heap_inv (store_dev h p d).
Proof.
  intros Hinv Hd q dq Hq. simpl in Hq.
  apply list_lookup_insert_Some in Hq as [(-> & <- & _)|[_ Hq]].
  - by apply (dev_ok_frame h).
  - apply (dev_ok_frame h); [by apply (Hinv q) | done].
Qed.

Lemma heap_inv_ctxs h v : heap_inv h -> heap_inv (set_ctxs v h).
Proof.
  intros Hinv q d Hq. apply (dev_ok_frame h); [by apply (Hinv q) | done].
Qed.

(** A write to a device that leaves [Configs] and [ActiveConfig] alone. *)
Lemma dev_ok_same h d d' :
  dev_ok h d -> Configs d' = Configs d -> ActiveConfig d' = ActiveConfig d ->
  dev_ok h d'.
Proof.
  intros [Hb Ha] Hc Hac. unfold dev_ok, aliases_Configs. rewrite Hc, Hac. done.
Qed.

Lemma dev_ok_active h d i :
  dev_ok h d -> (i < s_len (Configs d))%nat ->
  dev_ok h (set_ActiveConfig (Some (mkCfgptr (s_arr (Configs d)) i)) d).
Proof.
  intros [(arr & Harr & Hlen) _] Hi. split; [simpl; eauto|].
  simpl. intros p [= <-]. split; [exists i; done|].
  unfold deref_cfg. simpl. rewrite Harr. simpl.
  apply lookup_lt_is_Some_2. lia.
Qed.

Lemma SetConfiguration_inv w h p cfg h' e :
  heap_inv h -> SetConfiguration w h p cfg = Ok (h', e) -> heap_inv h'.
Proof.
  intros Hinv H.
  apply SetConfiguration_Ok in H as (d & k & Hd & _ & _ & [[_ ->]|(_ & Hi & ->)]);
    [done|].
  apply heap_inv_store; [done|]. apply dev_ok_active; [by apply (Hinv p) | lia].
Qed.

Lemma Device_Open_inv w h p h' e :
  heap_inv h -> Device_Open w h p = Ok (h', e) -> heap_inv h'.
Proof.
  intros Hinv H. unfold Device_Open, load_dev in H.
  destruct (h_devs h !! p) as [d|] eqn:Hd; [|discriminate]. simpl in H.
  destruct (OpenFile w (Bus d) (DeviceNum d)) as [fd [err|]]; injection H as <- <-;
    [done|].
  apply heap_inv_store; [done|]. by apply (dev_ok_same h d); [apply (Hinv p)| |].
Qed.

Lemma Device_Close_inv closeFile h p h' e :
  heap_inv h -> Device_Close closeFile h p = Ok (h', e) -> heap_inv h'.
Proof.
  intros Hinv H. unfold Device_Close, load_dev in H.
  destruct (h_devs h !! p) as [d|] eqn:Hd; [|discriminate]. simpl in H.
  apply bind_Ok in H as ([h1 d1] & Hdereg & H).
  assert (Hinv1 : heap_inv h1 /\ dev_ok h1 d1).
  { unfold deregister in Hdereg. destruct (ctx d) as [cl|].
    - destruct (h_ctxs h !! cl) as [c|]; [|discriminate]. injection Hdereg as <- <-.
      split; [by apply heap_inv_ctxs|].
      apply (dev_ok_frame h); [|done].
      by apply (dev_ok_same h d); [apply (Hinv p)| |].
    - injection Hdereg as <- <-. split; [done | by apply (Hinv p)]. }
  destruct Hinv1 as [Hinv1 Hd1].
  destruct (f d1) as [fd|]; injection H as <- <-; apply heap_inv_store; done.
Qed.

Lemma OpenDevices_loop_inv opener cl listed : forall h ret h' r,
  heap_inv h -> OpenDevices_loop opener cl listed h ret = Ok (h', r) -> heap_inv h'.
Proof.
  induction listed as [|dev rest IH]; intros h ret h' r Hinv H; simpl in H.
  - by injection H as <- <-.
  - unfold load_dev in H. destruct (h_devs h !! dev) as [d|] eqn:Hd; [|discriminate].
    simpl in H. destruct (opener d); [|by eapply IH].
    destruct (h_ctxs h !! cl) as [c|]; [|discriminate].
    eapply IH; [|exact H]. apply heap_inv_ctxs. apply heap_inv_store; [done|].
    by apply (dev_ok_same h d); [apply (Hinv dev)| |].
Qed.

(** What [toDevice] establishes for the device it returns, and what it
    leaves alone. *)
Lemma toDevice_establishes w fuel h dd h' p :
  toDevice w fuel h dd = Ok (h', p) ->
  let sel := activeSelector (sourceAtFetch w h dd) (deviceAtFetch w h dd) in
  exists d,
    h_devs h' = h_devs h ++ [d] /\ p = length (h_devs h) /\
    s_arr (Configs d) = length (h_cfgs h) /\
    1 <= sel <= Z.of_nat (s_len (Configs d)) /\
    ActiveConfig d = Some (mkCfgptr (s_arr (Configs d)) (Z.to_nat (sel - 1))) /\
    dev_ok h' d /\
    (forall a, (a < length (h_cfgs h))%nat -> h_cfgs h' !! a = h_cfgs h !! a).
Proof.
  intros H sel.
  apply toDevice_Ok in H as (h1 & ac & d & Hp & Hfill & Hac & -> & Hcfg & Hact).
  set (d0 := newDevice w (length (h_cfgs h)) dd) in *.
  assert (Harr0 : h_cfgs (allocDevice h d0) !! s_arr (Configs d0)
                  = Some (replicate (s_len (Configs d0)) zeroConfiguration)).
  { simpl. apply list_lookup_middle. done. }
  pose proof (fillConfigs_Ok _ _ _ _ _ _ Hfill Harr0 (length_replicate _ _))
    as (Hdevs & _ & _ & Hother & _ & arr & Harr & Hlen & _).
  apply addr_cfg_Ok in Hac as [Hi ->]. fold sel in Hi, Hact.
  exists d. split.
  { simpl. rewrite Hdevs, Hp. simpl.
    rewrite insert_app_r_alt, Nat.sub_diag by done. done. }
  split; [done|]. split; [by rewrite Hcfg|]. split; [rewrite Hcfg; lia|].
  split; [by rewrite Hcfg|]. split.
  - split.
    + exists arr. simpl. by rewrite Hcfg.
    + intros q Hq. rewrite Hact in Hq. injection Hq as <-. split.
      * exists (Z.to_nat (sel - 1)). rewrite Hcfg. split; [lia | done].
      * unfold deref_cfg. simpl.
        change (h_cfgs h1 !! length (h_cfgs h) = Some arr) in Harr.
        rewrite Harr. simpl. apply lookup_lt_is_Some_2. lia.
  - intros a Ha. simpl. rewrite Hother by (simpl; lia).
    simpl. by apply lookup_app_l.
Qed.

Lemma toDevice_inv w fuel h dd h' p :
  heap_inv h -> toDevice w fuel h dd = Ok (h', p) -> heap_inv h'.
Proof.
  intros Hinv H.
  apply toDevice_establishes in H as (d & Hdevs & _ & _ & _ & _ & Hd & Hsame).
  intros q dq Hq. rewrite Hdevs in Hq.
  apply lookup_app_Some in Hq as [Hq|[_ Hq]].
  - apply (dev_ok_frame h); [by apply (Hinv q) | done].
  - apply list_lookup_singleton_Some in Hq as [_ <-]. done.
Qed.

Lemma dev_step_inv w fuel closeFile opener h o h' :
  heap_inv h -> dev_step w fuel closeFile opener h o = Ok h' -> heap_inv h'.
Proof.
  intros Hinv H. destruct o as [dd|p cfg|p|p| |cl listed]; simpl in H.
  - apply bind_Ok in H as ([h1 q] & H1 & [= <-]). by eapply toDevice_inv.
  - apply bind_Ok in H as ([h1 e] & H1 & [= <-]). by eapply SetConfiguration_inv.
  - apply bind_Ok in H as ([h1 e] & H1 & [= <-]). by eapply Device_Open_inv.
  - apply bind_Ok in H as ([h1 e] & H1 & [= <-]). by eapply Device_Close_inv.
  - injection H as <-. by apply heap_inv_ctxs.
  - apply bind_Ok in H as ([h1 r] & H1 & [= <-]). by eapply OpenDevices_loop_inv.
Qed.

Lemma dev_run_inv w fuel closeFile opener ops : forall h h',
  heap_inv h -> dev_run w fuel closeFile opener h ops = Ok h' -> heap_inv h'.
Proof.
  induction ops as [|o ops IH]; intros h h' Hinv H; simpl in H.
  - by injection H as <-.
  - apply bind_Ok in H as (h1 & Hs & H).
    eapply IH; [|exact H]. by eapply dev_step_inv.
Qed.

Lemma heap_inv_empty : heap_inv emptyHeap.
Proof. intros q d Hq. simpl in Hq. by rewrite lookup_nil in Hq. Qed.

(** C8: [toDevice] returns a device whose [ActiveConfig] is the address of
    element [cfg - 1] of its own [Configs]; every operation of the library
    that writes to a device ([toDevice], [SetConfiguration], [Open],
    [Close], the registration of [OpenDevices]) keeps, for all devices of
    the heap, a non-nil [ActiveConfig] pointing at a live element of the
    device's own [Configs] array; so this holds on every heap the library
    builds. *)
Theorem ActiveConfig_aliases_Configs w fuel closeFile opener :
  (forall h dd h' p,
     toDevice w fuel h dd = Ok (h', p) ->
     exists d,
       h_devs h' !! p = Some d /\
       ActiveConfig d =
         Some (mkCfgptr (s_arr (Configs d))
                 (Z.to_nat (activeSelector (sourceAtFetch w h dd) (deviceAtFetch w h dd) - 1))) /\
       forall ptr, ActiveConfig d = Some ptr ->
         aliases_Configs d ptr /\ is_Some (deref_cfg h' ptr)) /\
  (forall h o h',
     heap_inv h -> dev_step w fuel closeFile opener h o = Ok h' -> heap_inv h') /\
  (forall h p cfg h' e d,
     heap_inv h -> SetConfiguration w h p cfg = Ok (h', e) ->
     h_devs h' !! p = Some d ->
     forall ptr, ActiveConfig d = Some ptr ->
       aliases_Configs d ptr /\ is_Some (deref_cfg h' ptr)) /\
  (forall ops h' q d ptr,
     dev_run w fuel closeFile opener emptyHeap ops = Ok h' ->
     h_devs h' !! q = Some d -> ActiveConfig d = Some ptr ->
     aliases_Configs d ptr /\ is_Some (deref_cfg h' ptr)).
Proof.
  split; [|split; [|split]].
  - intros h dd h' p H.
    apply toDevice_establishes in H as (d & Hdevs & -> & _ & _ & Hact & Hd & _).
    exists d. split; [by rewrite Hdevs, list_lookup_middle|]. split; [done|].
    apply Hd.
  - intros h o h'. apply dev_step_inv.
  - intros h p cfg h' e d Hinv H Hd.
    apply (SetConfiguration_inv _ _ _ _ _ _ Hinv H p d Hd).
  - intros ops h' q d ptr H Hq.
    apply (dev_run_inv _ _ _ _ _ _ _ heap_inv_empty H q d Hq).
Qed.

(** C8 on [twoConfigs]: after the build and a set-configuration request for
    selector 2 whose call fails, the device's [ActiveConfig] is the address
    of element 1 of its [Configs]. *)
Lemma ActiveConfig_aliases_Configs_witness :
  exists h' d,
    dev_run (testWorld (1, None) (Some EBUSY)) 1 (fun _ => None) (fun _ => true)
      emptyHeap [OpToDevice twoConfigs; OpSetConfiguration 0%nat 2] = Ok h' /\
    h_devs h' !! 0%nat = Some d /\
    ActiveConfig d = Some (mkCfgptr 0 1) /\
    aliases_Configs d (mkCfgptr 0 1) /\ is_Some (deref_cfg h' (mkCfgptr 0 1)).
Proof.
  destruct (dev_run (testWorld (1, None) (Some EBUSY)) 1 (fun _ => None) (fun _ => true)
              emptyHeap [OpToDevice twoConfigs; OpSetConfiguration 0%nat 2])
    as [h'| |] eqn:Hrun; try (vm_compute in Hrun; discriminate Hrun).
  destruct (h_devs h' !! 0%nat) as [d|] eqn:Hd;
    [|vm_compute in Hrun; injection Hrun as <-; vm_compute in Hd; discriminate Hd].
  assert (Hact : ActiveConfig d = Some (mkCfgptr 0 1)).
  { vm_compute in Hrun. injection Hrun as <-. vm_compute in Hd. injection Hd as <-.
    reflexivity. }
  exists h', d. split; [reflexivity|]. split; [exact Hd|]. split; [exact Hact|].
  exact (proj2 (proj2 (proj2 (ActiveConfig_aliases_Configs
            (testWorld (1, None) (Some EBUSY)) 1 (fun _ => None) (fun _ => true))))
            _ h' 0%nat d (mkCfgptr 0 1) Hrun Hd Hact).
Defined.

(** ** The Ports field *)

(** The walk reads nothing but [Port] and [Parent]. *)
Lemma walkPorts_ext devs devs' :
  (forall q, same_links (devs !! q) (devs' !! q)) ->
  forall fuel d d' acc,
    Port d = Port d' -> Parent d = Parent d' ->
    walkPorts devs fuel d acc = walkPorts devs' fuel d' acc.
Proof.
  intros Hsame fuel. induction fuel as [|fuel IH]; intros d d' acc Hport Hpar; [done|].
  simpl. rewrite <- Hport, <- Hpar.
  destruct (Parent d) as [q|]; [|done].
  specialize (Hsame q). unfold same_links in Hsame.
  destruct (devs !! q) as [x|], (devs' !! q) as [y|]; try done.
  destruct Hsame as [Hp Hq]. by apply IH.
Qed.

(** The [Ports] field of the device [toDevice] returns is what [getPorts]
    computes for that device on the heap returned. *)
Lemma toDevice_Ports w fuel h dd h' p :
  toDevice w fuel h dd = Ok (h', p) ->
  exists d, h_devs h' !! p = Some d /\ getPorts (h_devs h') fuel d = Ok (Ports d).
Proof.
  intros H.
  pose proof (toDevice_establishes _ _ _ _ _ _ H) as (d & Hdevs & Hp & _).
  exists d. split; [rewrite Hdevs; by apply list_lookup_middle|].
  apply toDevice_unfold in H as (h1 & dr & _ & _ & H).
  apply finishDevice_Ok in H as (ac & ports & _ & _ & Hports & ->).
  set (d1 := linkDevice w (sourceAtFetch w h dd) ac (deviceAtFetch w h dd)) in *.
  simpl in Hdevs.
  assert (Hlt : (length (h_devs h) < length (h_devs h1))%nat).
  { apply (f_equal length) in Hdevs. rewrite length_insert, length_app in Hdevs.
    simpl in Hdevs. lia. }
  assert (Hd : d = set_Ports ports d1).
  { assert (Hl : (<[length (h_devs h) := set_Ports ports d1]> (h_devs h1))
                   !! length (h_devs h) = Some (set_Ports ports d1))
      by (by apply list_lookup_insert_eq).
    rewrite Hdevs, list_lookup_middle in Hl by done. congruence. }
  subst d. simpl. unfold getPorts in *.
  assert (Hsame : forall q,
    same_links (<[length (h_devs h) := set_Ports ports d1]> (h_devs h1) !! q)
               (<[length (h_devs h) := d1]> (h_devs h1) !! q)).
  { intros q. destruct (decide (q = length (h_devs h))) as [->|Hq].
    - rewrite !list_lookup_insert_eq by done. done.
    - rewrite !list_lookup_insert_ne by done.
      unfold same_links. by destruct (h_devs h1 !! q). }
  rewrite (walkPorts_ext _ _ Hsame fuel (set_Ports ports d1) d1 [] eq_refl eq_refl).
  exact Hports.
Qed.

(** ** Choosing the endpoints of an interface *)

#[local] Arguments Z.testbit : simpl never.

Lemma scanOut_Some eps ep :
  scanOut eps = Some ep <->
  exists pre post, eps = pre ++ ep :: post /\ is_OUT ep /\ Forall is_IN pre.
Proof.
  unfold is_OUT, is_IN. induction eps as [|e eps IH]; simpl.
  - split; [discriminate|]. intros (pre & post & H & _). by destruct pre.
  - rewrite land_bit7. destruct (Z.testbit (Address e) 7) eqn:Hb; simpl.
    + rewrite IH. split.
      * intros (pre & post & -> & Ho & Hpre). exists (e :: pre), post.
        split; [done|]. split; [done|]. by constructor.
      * intros (pre & post & H & Ho & Hpre). destruct pre as [|e' pre].
        -- simpl in H. injection H as -> _. congruence.
        -- simpl in H. injection H as -> ->. apply Forall_cons in Hpre as [_ Hpre].
           eauto.
    + split.
      * intros [= <-]. exists [], eps. split; [done|]. split; [done|]. constructor.
      * intros (pre & post & H & Ho & Hpre). destruct pre as [|e' pre].
        -- simpl in H. by injection H as ->.
        -- simpl in H. injection H as -> _. apply Forall_cons in Hpre as [He' _].
           congruence.
Qed.

Lemma scanOut_None eps : scanOut eps = None <-> Forall is_IN eps.
Proof.
  unfold is_IN. induction eps as [|e eps IH]; simpl.
  - split; [constructor | done].
  - rewrite land_bit7. destruct (Z.testbit (Address e) 7) eqn:Hb; simpl.
    + rewrite IH. split; [by constructor | by intros [_ ?]%Forall_cons].
    + split; [discriminate|]. intros [He _]%Forall_cons. congruence.
Qed.

Lemma scanIn_Some eps ep :
  scanIn eps = Some ep <->
  exists pre post, eps = pre ++ ep :: post /\ is_IN ep /\ Forall is_OUT pre.
Proof.
  unfold is_OUT, is_IN. induction eps as [|e eps IH]; simpl.
  - split; [discriminate|]. intros (pre & post & H & _). by destruct pre.
  - rewrite land_bit7, negb_involutive.
    destruct (Z.testbit (Address e) 7) eqn:Hb; simpl.
    + split.
      * intros [= <-]. exists [], eps. split; [done|]. split; [done|]. constructor.
      * intros (pre & post & H & Ho & Hpre). destruct pre as [|e' pre].
        -- simpl in H. by injection H as ->.
        -- simpl in H. injection H as -> _. apply Forall_cons in Hpre as [He' _].
           congruence.
    + rewrite IH. split.
      * intros (pre & post & -> & Ho & Hpre). exists (e :: pre), post.
        split; [done|]. split; [done|]. by constructor.
      * intros (pre & post & H & Ho & Hpre). destruct pre as [|e' pre].
        -- simpl in H. injection H as -> _. congruence.
        -- simpl in H. injection H as -> ->. apply Forall_cons in Hpre as [_ Hpre].
           eauto.
Qed.

Lemma scanIn_None eps : scanIn eps = None <-> Forall is_OUT eps.
Proof.
  unfold is_OUT. induction eps as [|e eps IH]; simpl.
  - split; [constructor | done].
  - rewrite land_bit7, negb_involutive.
    destruct (Z.testbit (Address e) 7) eqn:Hb; simpl.
    + split; [discriminate|]. intros [He _]%Forall_cons. congruence.
    + rewrite IH. split; [by constructor | by intros [_ ?]%Forall_cons].
Qed.

(** X1: [GetOutEndpoint] returns, without error, the first endpoint of the
    interface whose address has bit 7 clear (every endpoint before it has the
    bit set), and it returns nil with the "no OUT endpoint" error exactly
    when every endpoint has the bit set; [GetInEndpoint] likewise with the
    bit set and clear exchanged.  Nothing but bit 7 is looked at. *)
Theorem GetEndpoint_first_match (i : Interface) :
  (forall ep, GetOutEndpoint i = (Some ep, None) <->
     exists pre post, Endpoints i = pre ++ ep :: post /\ is_OUT ep /\ Forall is_IN pre) /\
  (GetOutEndpoint i = (None, Some (fmt_Errorf no_OUT_endpoint [ID i] None)) <->
     Forall is_IN (Endpoints i)) /\
  (forall ep, GetInEndpoint i = (Some ep, None) <->
     exists pre post, Endpoints i = pre ++ ep :: post /\ is_IN ep /\ Forall is_OUT pre) /\
  (GetInEndpoint i = (None, Some (fmt_Errorf no_IN_endpoint [ID i] None)) <->
     Forall is_OUT (Endpoints i)) /\
  (is_Some (GetOutEndpoint i).1 <-> (GetOutEndpoint i).2 = None) /\
  (is_Some (GetInEndpoint i).1 <-> (GetInEndpoint i).2 = None).
Proof.
  unfold GetOutEndpoint, GetInEndpoint.
  split; [|split; [|split; [|split; [|split]]]].
  - intros ep. rewrite <- scanOut_Some.
    destruct (scanOut (Endpoints i)); split; congruence.
  - rewrite <- scanOut_None. destruct (scanOut (Endpoints i)); split; congruence.
  - intros ep. rewrite <- scanIn_Some.
    destruct (scanIn (Endpoints i)); split; congruence.
  - rewrite <- scanIn_None. destruct (scanIn (Endpoints i)); split; congruence.
  - destruct (scanOut (Endpoints i)); simpl; split; try done; by intros [? ?].
  - destruct (scanIn (Endpoints i)); simpl; split; try done; by intros [? ?].
Qed.

(** X2: the endpoint [GetOutEndpoint] hands out always passes the direction
    check of [BulkOut]: on an open handle and with the bulk transfer type,
    [BulkOut] issues its one kernel request; and [BulkIn] on that same
    endpoint is refused without a kernel call.  Symmetrically for the
    endpoint of [GetInEndpoint]. *)
Theorem GetEndpoint_fits_transfer {K}
    (kernel : K -> option File -> gusb.request -> K * gusb.response)
    (s : gusb.sys K) (h : Heap) (i : Interface) (ep : Endpoint)
    (data : list Z) (t : Z) (fd : File) :
  handle h ep = Some fd -> TransferType ep = TransferTypeBulk ->
  ((GetOutEndpoint i).1 = Some ep ->
     gusb.calls (BulkOut kernel s h ep data t).1 =
       gusb.calls s ++ [(Some fd, gusb.USBDEVFS_BULK (u32 (Address ep))
                           (u32 (Z.of_nat (length data))) (u32 t) data)] /\
     exists err, BulkIn kernel s h ep data t = (s, (0, Some err), data)) /\
  ((GetInEndpoint i).1 = Some ep ->
     gusb.calls (BulkIn kernel s h ep data t).1.1 =
       gusb.calls s ++ [(Some fd, gusb.USBDEVFS_BULK (u32 (Address ep))
                           (u32 (Z.of_nat (length data))) (u32 t) data)] /\
     exists err, BulkOut kernel s h ep data t = (s, (0, Some err))).
Proof.
  intros Hh Ht. split; intros Hget.
  - assert (Hout : is_OUT ep).
    { unfold GetOutEndpoint in Hget.
      destruct (scanOut (Endpoints i)) as [e|] eqn:Hs; [|discriminate].
      simpl in Hget. injection Hget as ->.
      apply scanOut_Some in Hs as (_ & _ & _ & Ho & _). done. }
    split; [by apply BulkOut_issues|]. apply BulkIn_rejects. right. by left.
  - assert (Hin : is_IN ep).
    { unfold GetInEndpoint in Hget.
      destruct (scanIn (Endpoints i)) as [e|] eqn:Hs; [|discriminate].
      simpl in Hget. injection Hget as ->.
      apply scanIn_Some in Hs as (_ & _ & _ & Ho & _). done. }
    split; [by apply BulkIn_issues|]. apply BulkOut_rejects. right. by left.
Qed.

Lemma GetEndpoint_fits_transfer_witness :
  gusb.calls (BulkOut idleKernel sys0 openHeap epOut [7] 0).1 =
    [(Some 3, gusb.USBDEVFS_BULK 1 1 0 [7])] /\
  exists err, BulkIn idleKernel sys0 openHeap epOut [7] 0 = (sys0, (0, Some err), [7]).
Proof.
  exact (proj1 (GetEndpoint_fits_transfer idleKernel sys0 openHeap intf0 epOut [7] 0 3
                  eq_refl eq_refl) eq_refl).
Defined.

(** ** Looking up an interface of the active configuration *)

(** X3: on a heap that satisfies the invariant, [Device.Interface] never
    panics and answers in exactly one of four ways: no active configuration;
    an active configuration without interfaces; an index outside
    [0, len - 1], reported with the index and the last valid index around
    [ErrInvalidInterfaceIndex]; or, for an index within the bounds, nil error
    and the address of that element of the active configuration's
    interfaces. *)
Theorem Device_Interface_cases (h : Heap) (p : loc) (d : Device) (i : Z) :
  heap_inv h -> h_devs h !! p = Some d ->
  match ActiveConfig d with
  | None => Device_Interface h p i = Ok (None, Some ErrNoActiveConfig)
  | Some ac =>
      exists cfg, deref_cfg h ac = Some cfg /\
        let n := Z.of_nat (length (Interfaces cfg)) in
        (n = 0 -> Device_Interface h p i = Ok (None, Some ErrNoInterfacesInConfig)) /\
        (0 < n -> ~ (0 <= i < n) ->
           Device_Interface h p i =
             Ok (None, Some (fmt_Errorf bad_interface_index [i; n - 1]
                               (Some ErrInvalidInterfaceIndex)))) /\
        (0 <= i < n ->
           Device_Interface h p i = Ok (Some (mkIntfptr ac (Z.to_nat i)), None) /\
           deref_intf h (mkIntfptr ac (Z.to_nat i)) = Interfaces cfg !! Z.to_nat i /\
           is_Some (deref_intf h (mkIntfptr ac (Z.to_nat i))))
  end.
Proof.
  intros Hinv Hd. unfold Device_Interface, load_dev. rewrite Hd. simpl.
  destruct (ActiveConfig d) as [ac|] eqn:Hac; [|done].
  destruct (Hinv p d Hd) as [_ Hact]. destruct (Hact ac Hac) as [_ [cfg Hcfg]].
  exists cfg. split; [done|]. rewrite Hcfg.
  set (n := Z.of_nat (length (Interfaces cfg))).
  split; [|split].
  - intros Hn. by rewrite Hn.
  - intros Hpos Hout.
    destruct (Z.eqb_spec n 0) as [?|_]; [lia|].
    destruct (orb_true_iff (i <? 0) (n <=? i)) as [_ Hor].
    rewrite Hor; [done|]. rewrite Z.ltb_lt, Z.leb_le. lia.
  - intros Hin.
    destruct (Z.eqb_spec n 0) as [?|_]; [lia|].
    destruct (orb_false_iff (i <? 0) (n <=? i)) as [_ Hor].
    rewrite Hor by (rewrite Z.ltb_ge, Z.leb_gt; lia).
    split; [done|]. unfold deref_intf. simpl. rewrite Hcfg. simpl.
    split; [done|]. apply lookup_lt_is_Some_2. unfold n in Hin. lia.
Qed.

(** X3 on the device built from [twoConfigs], whose active configuration has
    two interfaces: index 1 is found, index 2 is refused. *)
Lemma Device_Interface_cases_witness :
  Device_Interface builtHeap 0 1 = Ok (Some (mkIntfptr (mkCfgptr 0 0) 1), None) /\
  Device_Interface builtHeap 0 2 =
    Ok (None, Some (fmt_Errorf bad_interface_index [2; 1] (Some ErrInvalidInterfaceIndex))).
Proof.
  assert (Hinv : heap_inv builtHeap).
  { apply (toDevice_inv (testWorld (1, None) None) 1 emptyHeap twoConfigs builtHeap 0%nat
             heap_inv_empty toDevice_twoConfigs). }
  split.
  - pose proof (Device_Interface_cases builtHeap 0%nat _ 1 Hinv eq_refl) as H.
    simpl in H. destruct H as (cfg & Hcfg & _ & _ & Hin).
    injection Hcfg as <-. apply Hin. simpl. lia.
  - pose proof (Device_Interface_cases builtHeap 0%nat _ 2 Hinv eq_refl) as H.
    simpl in H. destruct H as (cfg & Hcfg & _ & Hout & _).
    injection Hcfg as <-. apply Hout; simpl; lia.
Defined.

(** ** Transfers under a context that is not yet cancelled *)

(** X4: with a context whose signal is not set on entry, [WriteContext]
    refuses a closed handle, an IN address or a non-bulk type without any
    kernel call, however the race would go.  Past these checks the transfer
    is spawned with timeout 0.  If its result is taken, the call returns
    what [BulkOut] returns on the heap the transfer found.  If the signal is
    taken, the call returns a zero count and the signal's error whatever the
    transfer does; by the time it returns the transfer has sent the kernel
    nothing, or exactly its one bulk request: nothing where it has not run
    yet or found the handle closed.  [ReadContext] behaves likewise with
    [BulkIn], and leaves the buffer alone where the transfer has not run. *)
Theorem Context_transfer_race {K}
    (kernel : K -> option File -> gusb.request -> K * gusb.response)
    (s : gusb.sys K) (h : Heap) (e : Endpoint) (ctx : context_Context) (buf : list Z) :
  ctx_Done ctx = false ->
  let bulk := gusb.USBDEVFS_BULK (u32 (Address e)) (u32 (Z.of_nat (length buf))) 0 buf in
  (handle h e = None \/ is_IN e \/ TransferType e <> TransferTypeBulk ->
     exists err, forall sched, WriteContext kernel s h e ctx sched buf = (s, (0, Some err))) /\
  (handle h e = None \/ is_OUT e \/ TransferType e <> TransferTypeBulk ->
     exists err, forall sched,
       ReadContext kernel s h e ctx sched buf = (s, (0, Some err), buf)) /\
  (is_Some (handle h e) ->
     WriteContext kernel s h e ctx (ResultFirst h) buf = BulkOut kernel s h e buf 0 /\
     ReadContext kernel s h e ctx (ResultFirst h) buf = BulkIn kernel s h e buf 0) /\
  (is_Some (handle h e) -> TransferType e = TransferTypeBulk ->
     (is_OUT e -> forall hg,
        WriteContext kernel s h e ctx (ResultFirst hg) buf = BulkOut kernel s hg e buf 0) /\
     (is_IN e -> forall hg,
        ReadContext kernel s h e ctx (ResultFirst hg) buf = BulkIn kernel s hg e buf 0)) /\
  (is_Some (handle h e) -> TransferType e = TransferTypeBulk ->
   forall err spawned,
     (is_OUT e ->
        let r := WriteContext kernel s h e ctx (SignalFirst err spawned) buf in
        r.2 = (0, err) /\
        (spawned = None -> r.1 = s) /\
        (forall hg, spawned = Some hg -> handle hg e = None -> r.1 = s) /\
        (forall hg fd, spawned = Some hg -> handle hg e = Some fd ->
           gusb.calls r.1 = gusb.calls s ++ [(Some fd, bulk)])) /\
     (is_IN e ->
        let r := ReadContext kernel s h e ctx (SignalFirst err spawned) buf in
        r.1.2 = (0, err) /\
        (spawned = None -> r.1.1 = s /\ r.2 = buf) /\
        (forall hg, spawned = Some hg -> handle hg e = None -> r.1.1 = s /\ r.2 = buf) /\
        (forall hg fd, spawned = Some hg -> handle hg e = Some fd ->
           gusb.calls r.1.1 = gusb.calls s ++ [(Some fd, bulk)]))).
Proof.
  intros Hdone bulk. unfold is_IN, is_OUT.
  split; [|split; [|split; [|split]]].
  - intros Hpre. unfold WriteContext. rewrite Hdone.
    destruct (handle h e) as [fd|]; [|eauto].
    rewrite land_bit7, negb_involutive.
    destruct (Z.testbit (Address e) 7); [eauto|].
    destruct (Z.eqb_spec (TransferType e) TransferTypeBulk) as [Ht|Ht]; simpl; [|eauto].
    destruct Hpre as [?|[?|?]]; done.
  - intros Hpre. unfold ReadContext. rewrite Hdone.
    destruct (handle h e) as [fd|]; [|eauto].
    rewrite land_bit7.
    destruct (Z.testbit (Address e) 7); simpl; [|eauto].
    destruct (Z.eqb_spec (TransferType e) TransferTypeBulk) as [Ht|Ht]; simpl; [|eauto].
    destruct Hpre as [?|[?|?]]; done.
  - intros [fd Hh]. unfold WriteContext, ReadContext, BulkOut, BulkIn.
    rewrite Hdone, Hh, land_bit7, negb_involutive.
    destruct (Z.testbit (Address e) 7); simpl;
      destruct (TransferType e =? TransferTypeBulk); simpl; done.
  - intros [fd Hh] Ht. split; intros Hb hg.
    + unfold WriteContext. by rewrite Hdone, Hh, land_bit7, Hb, Ht.
    + unfold ReadContext. by rewrite Hdone, Hh, land_bit7, Hb, Ht.
  - intros [fd Hh] Ht err spawned. split; intros Hb.
    + unfold WriteContext. rewrite Hdone, Hh, land_bit7, Hb, Ht. simpl.
      destruct spawned as [hg|]; simpl.
      * split; [done|]. split; [done|]. split.
        -- intros hg' [= <-] Hn. unfold BulkOut. by rewrite Hn.
        -- intros hg' fd' [= <-] Hs.
           exact (BulkOut_issues kernel s hg e buf 0 fd' Hs Hb Ht).
      * split; [done|]. split; [done|]. split; intros; discriminate.
    + unfold ReadContext. rewrite Hdone, Hh, land_bit7, Hb, Ht. simpl.
      destruct spawned as [hg|]; simpl.
      * pose proof (BulkIn_issues kernel s hg e buf 0) as Hcalls.
        assert (Hclosed : handle hg e = None ->
                  BulkIn kernel s hg e buf 0
                    = (s, (0, Some (errors_New "usb: device not open for BulkIn")), buf)).
        { intros Hn. unfold BulkIn. by rewrite Hn. }
        destruct (BulkIn kernel s hg e buf 0) as [[s' res] buf']. simpl in *.
        split; [done|]. split; [done|]. split.
        -- intros hg' [= <-] Hn. specialize (Hclosed Hn). by injection Hclosed as -> _ ->.
        -- intros hg' fd' [= <-] Hs. by apply Hcalls.
      * split; [done|]. split; [done|]. split; intros; discriminate.
Qed.

(** X4 on the open device: the signal wins the race before the transfer has
    run; the caller gets the cancellation error and no request has been
    sent.  Had the transfer run, its request would be the one call. *)
Lemma Context_transfer_race_witness :
  (WriteContext idleKernel sys0 openHeap epOut (as_context NewContext)
     (SignalFirst (Some context_Canceled) None) [7]).2 = (0, Some context_Canceled) /\
  (WriteContext idleKernel sys0 openHeap epOut (as_context NewContext)
     (SignalFirst (Some context_Canceled) None) [7]).1 = sys0 /\
  gusb.calls (WriteContext idleKernel sys0 openHeap epOut (as_context NewContext)
     (SignalFirst (Some context_Canceled) (Some openHeap)) [7]).1
    = [(Some 3, gusb.USBDEVFS_BULK 1 1 0 [7])].
Proof.
  destruct (Context_transfer_race idleKernel sys0 openHeap epOut (as_context NewContext)
              [7] eq_refl) as (_ & _ & _ & _ & Hrace).
  destruct (proj1 (Hrace (ex_intro _ 3 eq_refl) eq_refl (Some context_Canceled) None)
              eq_refl) as (Hres & Hnone & _).
  destruct (proj1 (Hrace (ex_intro _ 3 eq_refl) eq_refl (Some context_Canceled)
                     (Some openHeap)) eq_refl) as (_ & _ & _ & Hsent).
  split; [exact Hres|]. split; [exact (Hnone eq_refl)|].
  exact (Hsent openHeap 3 eq_refl eq_refl).
Defined.

(** ** The context as a cancellation signal *)

Lemma ctx_run_done ops : forall c c' n,
  ctx_inv c -> ctx_run c ops = Ok (c', n) ->
  done c' = done c || (0 <? n)%nat.
Proof.
  induction ops as [|o ops IH]; intros c c' n Hinv H; simpl in H.
  - injection H as <- <-. by rewrite orb_false_r.
  - apply bind_Ok in H as (c1 & Hs & H).
    apply bind_Ok in H as ([c2 m] & Hrun & H). injection H as <- <-.
    assert (Hi1 : ctx_inv c1 /\ (done c = true -> done c1 = true)).
    { destruct o as [d|d|]; simpl in Hs.
      - injection Hs as <-. done.
      - injection Hs as <-. done.
      - destruct (Context_Close_inv c Hinv) as (cx & e & Hc & Hi & _ & Hsame & _).
        rewrite Hc in Hs. simpl in Hs. injection Hs as <-.
        split; [done|]. intros Hd. by rewrite (Hsame Hd). }
    destruct Hi1 as [Hi1 Hmono].
    rewrite (IH c1 c2 m Hi1 Hrun). unfold fired.
    destruct (done c) eqn:Hd; simpl.
    + by rewrite (Hmono eq_refl).
    + destruct (done c1); simpl; [done|]. done.
Qed.

(** X5: for a context reached from [NewContext] by any registrations,
    deregistrations and [Close] calls, [Err] is [context.Canceled] exactly
    when the disposal signal has been fired and nil before; a [Close] that
    returns nil leaves a context on which [Err] is [context.Canceled], and a
    [WriteContext] or [ReadContext] given that context returns
    [context.Canceled] with a zero count and no kernel call; a [Close] that
    returns an error leaves [Err] as it was. *)
Theorem closed_Context_cancels {K}
    (kernel : K -> option File -> gusb.request -> K * gusb.response)
    (ops : list ctx_op) (c : Context) (n : nat) :
  ctx_run NewContext ops = Ok (c, n) ->
  Context_Err c = (if (0 <? n)%nat then Some context_Canceled else None) /\
  forall c' e,
    Context_Close c = Ok (c', e) ->
    (e = None ->
       Context_Err c' = Some context_Canceled /\
       forall (s : gusb.sys K) h ep sched buf,
         WriteContext kernel s h ep (as_context c') sched buf
           = (s, (0, Some context_Canceled)) /\
         ReadContext kernel s h ep (as_context c') sched buf
           = (s, (0, Some context_Canceled), buf)) /\
    (is_Some e -> c' = c).
Proof.
  intros Hrun.
  pose proof (ctx_run_done ops NewContext c n eq_refl Hrun) as Hdone. simpl in Hdone.
  destruct (ctx_run_inv ops NewContext eq_refl) as (cx & m & Hrun' & Hinv & _).
  rewrite Hrun in Hrun'. injection Hrun' as <- <-.
  split; [unfold Context_Err; by rewrite Hdone|].
  intros c' e Hc.
  destruct (Context_Close_inv c Hinv) as (c1 & e1 & Hc1 & _ & _ & _ & Hset).
  rewrite Hc in Hc1. injection Hc1 as <- <-. split.
  - intros ->. specialize (Hset eq_refl).
    split; [unfold Context_Err; by rewrite Hset|].
    intros s h ep sched buf. unfold WriteContext, ReadContext, as_context, Context_Done,
      Context_Err. simpl. by rewrite Hset.
  - intros [err ->]. unfold Context_Close in Hc.
    destruct (checkOpenDevs c); [by injection Hc as <- _|].
    destruct (closeOnce_Do c); simpl in Hc; congruence.
Qed.

Lemma closed_Context_cancels_witness :
  Context_Err (mkContext true true ∅) = Some context_Canceled /\
  Context_Err (register NewContext 1%nat) = None.
Proof.
  split.
  - exact (proj1 (closed_Context_cancels idleKernel
                    [OpRegister 1%nat; OpCloseDev 1%nat; OpClose]
                    (mkContext true true ∅) 1%nat eq_refl)).
  - exact (proj1 (closed_Context_cancels idleKernel [OpRegister 1%nat]
                    (register NewContext 1%nat) 0%nat eq_refl)).
Defined.

(** ** Releasing an interface *)

(** X6: [Release] sends the release-interface request first.  If that
    request fails its error is returned and no reattach request is sent.
    Otherwise the reattach sub-command is sent and [Release] returns nil
    whatever that answers: a failed reattach leaves one line in the log and
    nothing else. *)
Theorem Release_reattach_best_effort {K}
    (kernel : K -> option File -> gusb.request -> K * gusb.response)
    (s : gusb.sys K) (f : option File) (ifno : Z) :
  let release := gusb.USBDEVFS_RELEASEINTERFACE ifno in
  let connect := gusb.USBDEVFS_IOCTL ifno gusb.USBDEVFS_CONNECT 0 in
  let k1 := (kernel (gusb.kstate s) f release).1 in
  let resp1 := (kernel (gusb.kstate s) f release).2 in
  let resp2 := (kernel k1 f connect).2 in
  let res := gusb.Release kernel s f ifno in
  (gusb.r resp1 = -1 ->
     res.2 = gusb.errno resp1 /\
     gusb.calls res.1 = gusb.calls s ++ [(f, release)] /\
     gusb.kstate res.1 = k1 /\ gusb.logged res.1 = gusb.logged s) /\
  (gusb.r resp1 <> -1 ->
     res.2 = None /\
     gusb.calls res.1 = gusb.calls s ++ [(f, release); (f, connect)] /\
     gusb.kstate res.1 = (kernel k1 f connect).1 /\
     (gusb.r resp2 = -1 -> length (gusb.logged res.1) = S (length (gusb.logged s))) /\
     (gusb.r resp2 <> -1 -> gusb.logged res.1 = gusb.logged s)).
Proof.
  simpl. unfold gusb.Release, gusb.Ioctl.
  destruct (kernel (gusb.kstate s) f _) as [k1 resp1]. simpl.
  destruct (Z.eqb_spec (gusb.r resp1) (-1)) as [Hr|Hr].
  - split; [done | by intros ?].
  - split; [by intros ?|]. intros _.
    destruct (kernel k1 f _) as [k2 resp2]. simpl.
    destruct (Z.eqb_spec (gusb.r resp2) (-1)) as [Hr2|Hr2]; simpl;
      rewrite <- app_assoc; simpl; repeat split; try done.
    intros _. by rewrite length_app, Nat.add_1_r.
Qed.

(** ** Printing a speed *)

(** X7: [Speed.String] is "invalid" exactly for the values other than
    Unknown, Low, Full, High, Super and SuperPlus; the declared constant
    [SpeedWireless] has no case of its own and prints as "invalid".  The six
    values with a case print differently from one another. *)
Theorem Speed_String_invalid (s t : Z) :
  (Speed_String s = "invalid" <->
     s <> SpeedUnknown /\ s <> SpeedLow /\ s <> SpeedFull /\ s <> SpeedHigh /\
     s <> SpeedSuper /\ s <> SpeedSuperPlus) /\
  Speed_String SpeedWireless = "invalid" /\
  (Speed_String s = Speed_String t -> Speed_String s <> "invalid" -> s = t).
Proof.
  assert (Hcases : forall x,
    (x = 0 \/ x = 1 \/ x = 2 \/ x = 3 \/ x = 5 \/ x = 6) \/
    (Speed_String x = "invalid" /\ x <> 0 /\ x <> 1 /\ x <> 2 /\ x <> 3 /\ x <> 5 /\ x <> 6)).
  { intros x. unfold Speed_String, SpeedUnknown, SpeedLow, SpeedFull, SpeedHigh,
      SpeedSuper, SpeedSuperPlus.
    destruct (Z.eqb_spec x 0); [left; lia|]. destruct (Z.eqb_spec x 1); [left; lia|].
    destruct (Z.eqb_spec x 2); [left; lia|]. destruct (Z.eqb_spec x 3); [left; lia|].
    destruct (Z.eqb_spec x 5); [left; lia|]. destruct (Z.eqb_spec x 6); [left; lia|].
    right. split; [reflexivity | lia]. }
  unfold SpeedUnknown, SpeedLow, SpeedFull, SpeedHigh, SpeedSuper, SpeedSuperPlus.
  split; [|split; [reflexivity|]].
  - destruct (Hcases s) as [Hs|[Hs Hne]].
    + split; [|lia]. intros Hinv.
      destruct Hs as [->|[->|[->|[->|[->| ->]]]]]; discriminate Hinv.
    + split; [done | by intros _].
  - intros Heq Hne.
    destruct (Hcases s) as [Hs|[Hs _]]; [|done].
    destruct (Hcases t) as [Ht|[Ht _]].
    + destruct Hs as [->|[->|[->|[->|[->| ->]]]]];
        destruct Ht as [->|[->|[->|[->|[->| ->]]]]];
        first [reflexivity | discriminate Heq].
    + rewrite Ht in Heq. done.
Qed.

(** ** Closing a device *)

Lemma store_dev_same h p d : h_devs h !! p = Some d -> store_dev h p d = h.
Proof.
  intros Hd. unfold store_dev, set_devs. rewrite list_insert_id by done. by destruct h.
Qed.

Lemma Device_Close_Ok (closeFile : File -> option error)
    (h : Heap) (p : loc) (h' : Heap) (e : option error) :
  Device_Close closeFile h p = Ok (h', e) ->
  exists d,
    h_devs h !! p = Some d /\
    h_devs h' = <[p := set_f None (set_ctx None d)]> (h_devs h) /\
    e = f d ≫= closeFile /\
    (forall cl, ctx d = Some cl ->
       exists c, h_ctxs h !! cl = Some c /\
         h_ctxs h' = <[cl := closeDev c p]> (h_ctxs h) /\
         devices (closeDev c p) !! p = None) /\
    (ctx d = None -> h_ctxs h' = h_ctxs h) /\
    h_cfgs h' = h_cfgs h /\ h_intfs h' = h_intfs h.
Proof.
  unfold Device_Close, load_dev. intros H.
  destruct (h_devs h !! p) as [d|] eqn:Hd; [|discriminate]. simpl in H.
  exists d. split; [done|].
  unfold deregister in H. destruct (ctx d) as [cl|] eqn:Hctx.
  - destruct (h_ctxs h !! cl) as [c|] eqn:Hc; [|discriminate]. simpl in H.
    assert (Hh' : h' = store_dev (set_ctxs (<[cl := closeDev c p]> (h_ctxs h)) h) p
                         (set_f None (set_ctx None d)) /\ e = f d ≫= closeFile).
    { destruct (f d) as [fd|] eqn:Hf; injection H as <- <-; [done|].
      split; [|done]. f_equal. destruct d; simpl in *. by subst. }
    destruct Hh' as [-> ->]. simpl.
    split; [done|]. split; [done|]. split; [|done].
    intros cl' [= <-]. exists c. split; [done|]. split; [done|].
    simpl. apply lookup_delete_eq.
  - simpl in H.
    assert (Hh' : h' = store_dev h p (set_f None (set_ctx None d)) /\ e = f d ≫= closeFile).
    { destruct (f d) as [fd|] eqn:Hf; injection H as <- <-.
      - split; [|done]. f_equal. destruct d; simpl in *. by subst.
      - split; [|done]. f_equal. destruct d; simpl in *. by subst. }
    destruct Hh' as [-> ->]. simpl. done.
Qed.

(** X8: a returning [Device.Close] leaves the device with no handle and no
    context, returns what closing the file answered (nil when there was no
    handle), has removed the device from the device set of the context it
    was opened with, and has left every other device and context alone.
    Closing it a second time returns nil and changes nothing. *)
Theorem Device_Close_idempotent (closeFile : File -> option error)
    (h : Heap) (p : loc) (h' : Heap) (e : option error) :
  Device_Close closeFile h p = Ok (h', e) ->
  exists d,
    h_devs h !! p = Some d /\
    h_devs h' = <[p := set_f None (set_ctx None d)]> (h_devs h) /\
    e = f d ≫= closeFile /\
    (forall cl, ctx d = Some cl ->
       exists c, h_ctxs h !! cl = Some c /\
         h_ctxs h' = <[cl := closeDev c p]> (h_ctxs h) /\
         devices (closeDev c p) !! p = None) /\
    (ctx d = None -> h_ctxs h' = h_ctxs h) /\
    h_cfgs h' = h_cfgs h /\ h_intfs h' = h_intfs h /\
    Device_Close closeFile h' p = Ok (h', None).
Proof.
  intros H.
  destruct (Device_Close_Ok _ _ _ _ _ H) as (d & Hd & Hdevs & He & Hsome & Hnone & Hc & Hi).
  exists d. do 7 (split; [done|]).
  assert (Hd' : h_devs h' !! p = Some (set_f None (set_ctx None d))).
  { rewrite Hdevs. apply list_lookup_insert_eq. by apply lookup_lt_Some in Hd. }
  unfold Device_Close, load_dev. rewrite Hd'. simpl.
  by rewrite (store_dev_same h' p _ Hd').
Qed.

Lemma Device_Close_idempotent_witness :
  exists h', Device_Close (fun _ => None) openHeap 0 = Ok (h', None) /\
             Device_Close (fun _ => None) h' 0 = Ok (h', None).
Proof.
  destruct (Device_Close (fun _ => None) openHeap 0) as [[h' e]| |] eqn:Hc;
    try (vm_compute in Hc; discriminate Hc).
  destruct (Device_Close_idempotent _ _ _ _ _ Hc) as (d & Hd & _ & He & _ & _ & _ & _ & Hagain).
  exists h'. injection Hd as <-. simpl in He. subst e. done.
Defined.

(** ** What a build leaves alone *)

Lemma fillInterfaces_intfs d ids : forall h ifs h' ifs',
  fillInterfaces h d ids ifs = Ok (h', ifs') ->
  exists more, h_intfs h' = h_intfs h ++ more.
Proof.
  induction ids as [|i ids IH]; intros h ifs h' ifs' H; simpl in H.
  - injection H as <- <-. exists []. by rewrite app_nil_r.
  - apply bind_Ok in H as ([h1 x] & Hx & H).
    destruct (_ && _); [|discriminate].
    apply toInterface_Ok in Hx as (_ & _ & _ & _ & _ & Hi).
    apply IH in H as [more Hm]. exists ([x] ++ more).
    by rewrite Hm, Hi, <- app_assoc.
Qed.

Lemma fillConfigs_intfs s p cds : forall h h',
  fillConfigs h s p cds = Ok h' -> exists more, h_intfs h' = h_intfs h ++ more.
Proof.
  induction cds as [|c cds IH]; intros h h' H; simpl in H.
  - injection H as <-. exists []. by rewrite app_nil_r.
  - apply bind_Ok in H as ([h1 cfg] & Hc & H).
    apply bind_Ok in H as (h2 & Hs & H).
    unfold toConfig in Hc. apply bind_Ok in Hc as ([hc ifs] & Hf & Hc).
    injection Hc as <- _. apply fillInterfaces_intfs in Hf as [m1 Hm1].
    unfold store_cfg in Hs. destruct (_ && _); [|discriminate]. injection Hs as <-.
    apply IH in H as [m2 Hm2]. simpl in Hm2. exists (m1 ++ m2).
    by rewrite Hm2, Hm1, <- app_assoc.
Qed.

Lemma fetchFields_fields w src d :
  let d' := fetchFields w src d in
  ctx d' = ctx d /\ f d' = f d /\ ActiveConfig d' = ActiveConfig d /\
  Configs d' = Configs d /\ Vendor d' = Vendor d /\ Product d' = Product d /\
  dataSource d' = dataSource d /\ Parent d' = Parent d.
Proof.
  unfold fetchFields. cbv zeta.
  destruct (DeviceNum d <=? 0); [destruct (getDevNum src d) as [dv [e|]]|];
    match goal with |- context [(Bus ?x <=? 0) && is_sysfs ?x] =>
      destruct ((Bus x <=? 0) && is_sysfs x) end;
    repeat split; reflexivity.
Qed.

Lemma linkDevice_fields w src ac d :
  let d' := linkDevice w src ac d in
  ctx d' = ctx d /\ f d' = f d /\ ActiveConfig d' = Some ac /\
  Configs d' = Configs d /\ Vendor d' = Vendor d /\ Product d' = Product d /\
  dataSource d' = dataSource d /\ Port d' = Port d.
Proof.
  unfold linkDevice. cbv zeta.
  destruct (getSpeed src _) as [sp [e|]];
    match goal with |- context [is_sysfs ?x] => destruct (is_sysfs x) end;
    repeat split; reflexivity.
Qed.

Lemma deviceAtFetch_fields w h dd :
  let d := deviceAtFetch w h dd in
  ctx d = None /\ f d = None /\ ActiveConfig d = None /\
  Configs d = mkSlice (length (h_cfgs h)) (Z.to_nat (gusb.NumConfigs dd)) /\
  Vendor d = u16 (gusb.Vendor dd) /\ Product d = u16 (gusb.Product dd) /\
  dataSource d = Some (selectSource (resolved w (newDevice w (length (h_cfgs h)) dd))) /\
  Parent d = None.
Proof.
  unfold deviceAtFetch. cbv zeta.
  destruct (fetchFields_fields w
    (backing w (selectSource (resolved w (newDevice w (length (h_cfgs h)) dd))))
    (set_dataSource
       (Some (selectSource (resolved w (newDevice w (length (h_cfgs h)) dd))))
       (resolved w (newDevice w (length (h_cfgs h)) dd))))
    as (H1 & H2 & H3 & H4 & H5 & H6 & H7 & H8).
  rewrite H1, H2, H3, H4, H5, H6, H7, H8. simpl.
  destruct (resolved_fields w (newDevice w (length (h_cfgs h)) dd))
    as (_ & _ & G1 & G2 & G3 & G4 & G5 & G6 & G7 & _).
  cbv zeta in G1, G2, G3, G4, G5, G6, G7. rewrite G1, G2, G3, G4, G5, G6, G7.
  repeat split; reflexivity.
Qed.

Lemma builtDevice_fields w h dd ac ports :
  let d := builtDevice w h dd ac ports in
  ctx d = None /\ f d = None /\ Ports d = ports /\ ActiveConfig d = Some ac /\
  Configs d = mkSlice (length (h_cfgs h)) (Z.to_nat (gusb.NumConfigs dd)) /\
  Vendor d = u16 (gusb.Vendor dd) /\ Product d = u16 (gusb.Product dd).
Proof.
  unfold builtDevice. cbv zeta.
  destruct (linkDevice_fields w (sourceAtFetch w h dd) ac (deviceAtFetch w h dd))
    as (H1 & H2 & H3 & H4 & H5 & H6 & _).
  destruct (deviceAtFetch_fields w h dd) as (G1 & G2 & _ & G4 & G5 & G6 & _).
  cbn [ctx f Ports ActiveConfig Configs Vendor Product set_Ports].
  rewrite H1, H2, H3, H4, H5, H6, G1, G2, G4, G5, G6. repeat split; reflexivity.
Qed.

Lemma toDevice_result w fuel h dd h' p :
  toDevice w fuel h dd = Ok (h', p) ->
  exists ac ports more,
    p = length (h_devs h) /\
    h_devs h' = h_devs h ++ [builtDevice w h dd ac ports] /\
    h_ctxs h' = h_ctxs h /\
    h_intfs h' = h_intfs h ++ more /\
    length (h_cfgs h') = S (length (h_cfgs h)) /\
    (forall a, (a < length (h_cfgs h))%nat -> h_cfgs h' !! a = h_cfgs h !! a).
Proof.
  intros H.
  pose proof (toDevice_establishes _ _ _ _ _ _ H) as (d & Hdevs & Hp & _ & _ & _ & _ & Hsame).
  apply toDevice_unfold in H as (h1 & dr & Hfill & _ & H).
  apply finishDevice_Ok in H as (ac & ports & _ & _ & _ & ->).
  set (d0 := newDevice w (length (h_cfgs h)) dd) in *.
  assert (Harr0 : h_cfgs (allocDevice h d0) !! s_arr (Configs d0)
                  = Some (replicate (s_len (Configs d0)) zeroConfiguration)).
  { simpl. apply list_lookup_middle. done. }
  pose proof (fillConfigs_Ok _ _ _ _ _ _ Hfill Harr0 (length_replicate _ _))
    as (Hd1 & Hx1 & Hl1 & _).
  apply fillConfigs_intfs in Hfill as [more Hmore].
  exists ac, ports, more. split; [done|]. split.
  { simpl. rewrite Hd1. simpl. rewrite insert_app_r_alt, Nat.sub_diag by done. done. }
  split; [simpl; by rewrite Hx1|]. split; [done|]. split; [|done].
  simpl. rewrite Hl1. simpl. rewrite length_app. simpl. lia.
Qed.

(** ** Enumerating devices *)

Lemma List_loop_spec w fuel dds : forall h h' ps,
  List_loop w fuel h dds = Ok (h', ps) ->
  ps = seq (length (h_devs h)) (length dds) /\
  length (h_devs h') = (length (h_devs h) + length dds)%nat /\
  h_ctxs h' = h_ctxs h /\
  (forall q, (q < length (h_devs h))%nat -> h_devs h' !! q = h_devs h !! q) /\
  (forall a, (a < length (h_cfgs h))%nat -> h_cfgs h' !! a = h_cfgs h !! a) /\
  (forall k dd, dds !! k = Some dd ->
     exists d, h_devs h' !! (length (h_devs h) + k)%nat = Some d /\
       Vendor d = u16 (gusb.Vendor dd) /\ Product d = u16 (gusb.Product dd) /\
       s_len (Configs d) = Z.to_nat (gusb.NumConfigs dd) /\
       ctx d = None /\ f d = None) /\
  (heap_inv h -> heap_inv h').
Proof.
  induction dds as [|dd dds IH]; intros h h' ps H; simpl in H.
  - injection H as <- <-. simpl. rewrite Nat.add_0_r.
    do 5 (split; [done|]). split; [|done].
    intros k dd Hk. by rewrite lookup_nil in Hk.
  - apply bind_Ok in H as ([h1 p] & Hd & H).
    apply bind_Ok in H as ([h2 qs] & Hl & H). injection H as <- <-.
    pose proof (toDevice_result _ _ _ _ _ _ Hd)
      as (ac & ports & more & Hp & Hdevs & Hctx & _ & Hlc & Hsame).
    destruct (IH _ _ _ Hl) as (Hqs & Hlen & Hctx2 & Hold & Holdc & Hnew & Hinv).
    assert (Hl1 : length (h_devs h1) = S (length (h_devs h))).
    { rewrite Hdevs, length_app. simpl. lia. }
    rewrite Hl1 in Hqs, Hlen, Hold, Hnew.
    split; [simpl; by rewrite Hp, Hqs|]. split; [simpl; lia|].
    split; [congruence|]. split.
    { intros q Hq. rewrite Hold by lia. rewrite Hdevs. by apply lookup_app_l. }
    split.
    { intros a Ha. rewrite Holdc by lia. by apply Hsame. }
    split.
    { intros [|k] dd' Hk; simpl in Hk.
      - injection Hk as <-. rewrite Nat.add_0_r, Hold by lia.
        rewrite Hdevs, list_lookup_middle by done.
        eexists. split; [done|].
        destruct (builtDevice_fields w h dd ac ports) as (? & ? & _ & _ & Hc & ? & ?).
        rewrite Hc. done.
      - destruct (Hnew k dd' Hk) as (d & Hd' & Hrest).
        exists d. split; [|done]. rewrite <- Hd'. f_equal. lia. }
    intros Hi. apply Hinv. by eapply toDevice_inv.
Qed.

(** X9: when the walk succeeds, [List] builds one device per descriptor, in
    the order of the descriptors, at fresh and pairwise different locations;
    the device for a descriptor carries its vendor and product ID and
    declared number of configurations and is neither open nor attached to a
    context.  Devices and configuration arrays that existed before are
    unchanged, and the heap invariant is kept.  When the walk fails, [List]
    returns its error and builds nothing. *)
Theorem List_builds_in_order (w : World) (fuel : nat)
    (dds : list gusb.DeviceDescriptor) (h h' : Heap) (devs : list loc)
    (err : option error) :
  List w fuel (dds, None) h = Ok (h', (devs, err)) ->
  err = None /\
  devs = seq (length (h_devs h)) (length dds) /\ NoDup devs /\
  (forall k dd, dds !! k = Some dd ->
     exists p d, devs !! k = Some p /\ h_devs h' !! p = Some d /\
       Vendor d = u16 (gusb.Vendor dd) /\ Product d = u16 (gusb.Product dd) /\
       s_len (Configs d) = Z.to_nat (gusb.NumConfigs dd) /\
       ctx d = None /\ f d = None) /\
  (forall q d, h_devs h !! q = Some d -> h_devs h' !! q = Some d) /\
  (forall a arr, h_cfgs h !! a = Some arr -> h_cfgs h' !! a = Some arr) /\
  h_ctxs h' = h_ctxs h /\
  (heap_inv h -> heap_inv h') /\
  (forall e, List w fuel (dds, Some e) h = Ok (h, ([], Some e))).
Proof.
  unfold List. intros H. apply bind_Ok in H as ([h1 ps] & Hl & H).
  injection H as <- <- <-.
  destruct (List_loop_spec _ _ _ _ _ _ Hl) as (Hps & Hlen & Hctx & Hold & Holdc & Hnew & Hinv).
  split; [done|]. split; [done|]. split; [rewrite Hps; apply NoDup_seq|].
  split.
  { intros k dd Hk. destruct (Hnew k dd Hk) as (d & Hd & Hrest).
    exists (length (h_devs h) + k)%nat, d. split; [|done].
    rewrite Hps. apply lookup_seq. split; [done|]. by apply lookup_lt_Some in Hk. }
  split.
  { intros q d Hq. rewrite Hold; [done|]. by apply lookup_lt_Some in Hq. }
  split.
  { intros a arr Ha. rewrite Holdc; [done|]. by apply lookup_lt_Some in Ha. }
  done.
Qed.

Lemma List_builds_in_order_witness :
  exists h',
    List (testWorld (1, None) None) 1 ([twoConfigs; gapDescriptor], None) emptyHeap
      = Ok (h', ([0; 1]%nat, None)).
Proof.
  destruct (List (testWorld (1, None) None) 1 ([twoConfigs; gapDescriptor], None) emptyHeap)
    as [[h' [devs err]]| |] eqn:Hl; try (vm_compute in Hl; discriminate Hl).
  destruct (List_builds_in_order _ _ _ _ _ _ _ Hl) as (-> & -> & _).
  exists h'. reflexivity.
Defined.

(** ** The registry and the devices opened through it *)

Lemma reg_inv_new_context h :
  reg_inv h -> reg_inv (set_ctxs (h_ctxs h ++ [NewContext]) h).
Proof.
  intros Hinv cl dev. simpl. rewrite <- (Hinv cl dev). split.
  - intros (c & Hc & Hreg). apply lookup_app_Some in Hc as [Hc|[_ Hc]]; [eauto|].
    apply list_lookup_singleton_Some in Hc as [_ <-]. simpl in Hreg.
    rewrite lookup_empty in Hreg. by destruct Hreg.
  - intros (c & Hc & Hreg). exists c. split; [|done]. by apply lookup_app_l_Some.
Qed.

Lemma reg_inv_extend h h' news :
  reg_inv h -> h_ctxs h' = h_ctxs h -> h_devs h' = h_devs h ++ news ->
  Forall (fun d => ctx d = None) news -> reg_inv h'.
Proof.
  intros Hinv Hctx Hdevs Hnews cl dev. rewrite Hctx, (Hinv cl dev), Hdevs. split.
  - intros (d & Hd & Hc). exists d. split; [|done]. by apply lookup_app_l_Some.
  - intros (d & Hd & Hc). apply lookup_app_Some in Hd as [Hd|[_ Hd]]; [eauto|].
    rewrite Forall_forall in Hnews.
    apply list_elem_of_lookup_2 in Hd. rewrite (Hnews d Hd) in Hc. done.
Qed.

Lemma reg_inv_toDevice w fuel h dd h' p :
  reg_inv h -> toDevice w fuel h dd = Ok (h', p) -> reg_inv h'.
Proof.
  intros Hinv H.
  apply toDevice_result in H as (ac & ports & more & _ & Hdevs & Hctx & _).
  apply (reg_inv_extend h h' _ Hinv Hctx Hdevs).
  constructor; [|constructor]. apply builtDevice_fields.
Qed.

Lemma List_loop_news w fuel dds : forall h h' ps,
  List_loop w fuel h dds = Ok (h', ps) ->
  ps = seq (length (h_devs h)) (length dds) /\ h_ctxs h' = h_ctxs h /\
  exists news, h_devs h' = h_devs h ++ news /\ length news = length dds /\
    Forall (fun d => ctx d = None) news.
Proof.
  induction dds as [|dd dds IH]; intros h h' ps H; simpl in H.
  - injection H as <- <-. split; [done|]. split; [done|]. exists [].
    by rewrite app_nil_r.
  - apply bind_Ok in H as ([h1 p] & Hd & H).
    apply bind_Ok in H as ([h2 qs] & Hl & H). injection H as <- <-.
    apply toDevice_result in Hd as (ac & ports & more & Hp & Hdevs & Hctx & _).
    destruct (IH _ _ _ Hl) as (Hqs & Hctx2 & news & Hn & Hlen & Hall).
    split.
    { simpl. rewrite Hp, Hqs, Hdevs, length_app. simpl. by rewrite Nat.add_1_r. }
    split; [congruence|].
    exists (builtDevice w h dd ac ports :: news). split.
    { by rewrite Hn, Hdevs, <- app_assoc. }
    split; [simpl; lia|]. constructor; [apply builtDevice_fields | done].
Qed.

Lemma reg_inv_register h cl c dev d :
  reg_inv h -> h_ctxs h !! cl = Some c -> h_devs h !! dev = Some d -> ctx d = None ->
  reg_inv (set_ctxs (<[cl := register c dev]> (h_ctxs (store_dev h dev (set_ctx (Some cl) d))))
             (store_dev h dev (set_ctx (Some cl) d))).
Proof.
  intros Hinv Hc Hd Hnone cl' dev'. simpl.
  assert (Hlc : (cl < length (h_ctxs h))%nat) by (by apply lookup_lt_Some in Hc).
  assert (Hld : (dev < length (h_devs h))%nat) by (by apply lookup_lt_Some in Hd).
  destruct (decide (dev' = dev)) as [->|Hdev].
  - rewrite (list_lookup_insert_eq (h_devs h)) by done.
    destruct (decide (cl' = cl)) as [->|Hcl].
    + rewrite (list_lookup_insert_eq (h_ctxs h)) by done. split; [eauto|].
      intros _. eexists. split; [done|]. simpl. rewrite lookup_insert_eq. eauto.
    + rewrite (list_lookup_insert_ne (h_ctxs h)) by congruence. split.
      * intros Hreg. apply Hinv in Hreg as (d' & Hd' & Hctx). congruence.
      * intros (d' & [= <-] & Hctx). simpl in Hctx. congruence.
  - rewrite (list_lookup_insert_ne (h_devs h)) by congruence. rewrite <- (Hinv cl' dev').
    destruct (decide (cl' = cl)) as [->|Hcl].
    + rewrite (list_lookup_insert_eq (h_ctxs h)) by done. split.
      * intros (c' & [= <-] & Hreg). exists c. split; [done|].
        simpl in Hreg. by rewrite lookup_insert_ne in Hreg by congruence.
      * intros (c' & Hc' & Hreg). eexists. split; [done|]. simpl.
        rewrite lookup_insert_ne by congruence. congruence.
    + by rewrite (list_lookup_insert_ne (h_ctxs h)) by congruence.
Qed.

Lemma OpenDevices_body_reg {S : Type} (opener : S -> Device -> S * bool) cl listed :
  forall st h ret h' ret',
    reg_inv h -> NoDup listed ->
    (forall dev, dev ∈ listed -> exists d, h_devs h !! dev = Some d /\ ctx d = None) ->
    (forall dev, dev ∈ ret -> exists d, h_devs h !! dev = Some d /\ ctx d = Some cl) ->
    (forall dev, dev ∈ ret -> dev ∉ listed) ->
    OpenDevices_body opener st cl listed h ret = Ok (h', ret') ->
    reg_inv h' /\
    (forall dev, dev ∈ ret' -> exists d, h_devs h' !! dev = Some d /\ ctx d = Some cl) /\
    (forall dev, dev ∈ ret' -> dev ∈ ret \/ dev ∈ listed).
Proof.
  induction listed as [|dev rest IH]; intros st h ret h' ret' Hinv Hnd Hfresh Hret Hdis H;
    simpl in H.
  - injection H as <- <-. split; [done|]. split; [done|]. by left.
  - apply NoDup_cons in Hnd as [Hnin Hnd].
    destruct (Hfresh dev) as (d & Hd & Hnone); [by left|].
    unfold load_dev in H. rewrite Hd in H. simpl in H.
    destruct (opener st d) as [st' accepted]. destruct accepted.
    + destruct (h_ctxs h !! cl) as [c|] eqn:Hc; [|discriminate].
      assert (Hld : (dev < length (h_devs h))%nat) by (by apply lookup_lt_Some in Hd).
      eapply IH in H as (Hinv' & Hreg & Hsub); [| |done| | |].
      * split; [done|]. split; [done|]. intros x Hx.
        destruct (Hsub x Hx) as [Hx'|Hx']; [|right; by right].
        apply elem_of_app in Hx' as [?|Hx']; [by left|].
        apply list_elem_of_singleton in Hx' as ->. right. by left.
      * by apply reg_inv_register.
      * intros x Hx. simpl.
        rewrite list_lookup_insert_ne by (intros Heq; subst; contradiction).
        apply Hfresh. by right.
      * intros x Hx. simpl. apply elem_of_app in Hx as [Hx|Hx].
        -- rewrite list_lookup_insert_ne; [by apply Hret|].
           intros Heq. subst. apply (Hdis _ Hx). by left.
        -- apply list_elem_of_singleton in Hx as ->.
           rewrite list_lookup_insert_eq by done. eauto.
      * intros x Hx. apply elem_of_app in Hx as [Hx|Hx].
        -- intros Hin. apply (Hdis x Hx). by right.
        -- apply list_elem_of_singleton in Hx as ->. done.
    + eapply IH in H as (Hinv' & Hreg & Hsub); [| done | done | | done |].
      * split; [done|]. split; [done|]. intros x Hx.
        destruct (Hsub x Hx) as [?|?]; [by left | right; by right].
      * intros x Hx. apply Hfresh. by right.
      * intros x Hx Hin. apply (Hdis x Hx). by right.
Qed.

Lemma reg_inv_Device_Close closeFile h p h' e :
  reg_inv h -> Device_Close closeFile h p = Ok (h', e) -> reg_inv h'.
Proof.
  intros Hinv H.
  apply Device_Close_Ok in H as (d & Hd & Hdevs & _ & Hsome & Hnone & _ & _).
  assert (Hld : (p < length (h_devs h))%nat) by (by apply lookup_lt_Some in Hd).
  intros cl' dev'. rewrite Hdevs.
  destruct (ctx d) as [cl|] eqn:Hctx.
  - destruct (Hsome cl eq_refl) as (c & Hc & Hctxs & _). rewrite Hctxs.
    assert (Hlc : (cl < length (h_ctxs h))%nat) by (by apply lookup_lt_Some in Hc).
    destruct (decide (dev' = p)) as [->|Hdev].
    + rewrite (list_lookup_insert_eq (h_devs h)) by done. split.
      * intros (c' & Hc' & Hreg). exfalso.
        destruct (decide (cl' = cl)) as [->|Hcl].
        -- rewrite (list_lookup_insert_eq (h_ctxs h)) in Hc' by done.
           injection Hc' as <-. simpl in Hreg. rewrite lookup_delete_eq in Hreg.
           by destruct Hreg.
        -- rewrite (list_lookup_insert_ne (h_ctxs h)) in Hc' by congruence.
           assert (Hex : exists d', h_devs h !! p = Some d' /\ ctx d' = Some cl')
             by (apply Hinv; eauto).
           destruct Hex as (d' & Hd' & Hctx'). congruence.
      * intros (d' & [= <-] & Hc'). simpl in Hc'. congruence.
    + rewrite (list_lookup_insert_ne (h_devs h)) by congruence.
      rewrite <- (Hinv cl' dev').
      destruct (decide (cl' = cl)) as [->|Hcl].
      * rewrite (list_lookup_insert_eq (h_ctxs h)) by done. split.
        -- intros (c' & [= <-] & Hreg). exists c. split; [done|].
           simpl in Hreg. by rewrite lookup_delete_ne in Hreg by congruence.
        -- intros (c' & Hc' & Hreg). eexists. split; [done|]. simpl.
           rewrite lookup_delete_ne by congruence. congruence.
      * by rewrite (list_lookup_insert_ne (h_ctxs h)) by congruence.
  - rewrite (Hnone eq_refl).
    destruct (decide (dev' = p)) as [->|Hdev].
    + rewrite (list_lookup_insert_eq (h_devs h)) by done. split.
      * intros Hreg. apply Hinv in Hreg as (d' & Hd' & Hctx'). congruence.
      * intros (d' & [= <-] & Hc'). simpl in Hc'. congruence.
    + rewrite (list_lookup_insert_ne (h_devs h)) by congruence. apply Hinv.
Qed.

Lemma reg_inv_OpenDevices {S : Type} w fuel walk (opener : S -> Device -> S * bool)
    st cl h h' ret err :
  reg_inv h -> OpenDevices w fuel walk opener st cl h = Ok (h', (ret, err)) ->
  reg_inv h' /\
  (forall dev, dev ∈ ret -> exists d, h_devs h' !! dev = Some d /\ ctx d = Some cl).
Proof.
  intros Hinv H. unfold OpenDevices, List in H.
  destruct walk as [dds [e|]]; simpl in H.
  { injection H as <- <- <-. split; [done|]. intros dev Hd. by apply not_elem_of_nil in Hd. }
  apply bind_Ok in H as ([h1 [listed err1]] & Hl & H).
  apply bind_Ok in Hl as ([h1' ps] & Hl & Hl'). injection Hl' as <- <- <-.
  apply bind_Ok in H as ([h2 r] & Hb & H). injection H as <- <- <-.
  destruct (List_loop_news _ _ _ _ _ _ Hl) as (-> & Hctx & news & Hdevs & Hlen & Hall).
  assert (Hinv1 : reg_inv h1') by (by apply (reg_inv_extend h h1' news)).
  eapply OpenDevices_body_reg in Hb as (Hinv2 & Hreg & _); [done | done | | | |].
  - apply NoDup_seq.
  - intros dev Hdev. apply elem_of_seq in Hdev as [Hlo Hhi].
    destruct (lookup_lt_is_Some_2 news (dev - length (h_devs h))%nat) as [d Hd]; [lia|].
    exists d. split.
    + rewrite Hdevs, lookup_app_r by lia. done.
    + rewrite Forall_forall in Hall. apply Hall. by eapply list_elem_of_lookup_2.
  - intros dev Hdev. by apply not_elem_of_nil in Hdev.
  - intros dev Hdev. by apply not_elem_of_nil in Hdev.
Qed.

(** X10: the registry keeps, for every context and device, "the device is in
    the context's device set" equivalent to "the device's context field
    points to that context".  This holds on the empty heap and is kept by
    creating a context, by [toDevice], by [OpenDevices] (which leaves every
    device it returns attached to the context) and by [Device.Close].  So
    [Context.Close] returns its still-open error exactly when some device
    opened through the context has not been closed yet. *)
Theorem registry_tracks_open_devices :
  reg_inv emptyHeap /\
  (forall h, reg_inv h -> reg_inv (set_ctxs (h_ctxs h ++ [NewContext]) h)) /\
  (forall w fuel h dd h' p,
     reg_inv h -> toDevice w fuel h dd = Ok (h', p) -> reg_inv h') /\
  (forall (S : Type) w fuel walk (opener : S -> Device -> S * bool) st cl h h' ret err,
     reg_inv h -> OpenDevices w fuel walk opener st cl h = Ok (h', (ret, err)) ->
     reg_inv h' /\
     forall dev, dev ∈ ret -> exists d, h_devs h' !! dev = Some d /\ ctx d = Some cl) /\
  (forall closeFile h p h' e,
     reg_inv h -> Device_Close closeFile h p = Ok (h', e) -> reg_inv h') /\
  (forall h cl c,
     reg_inv h -> h_ctxs h !! cl = Some c ->
     ((exists err, Context_Close c = Ok (c, Some err)) <->
      (exists dev d, h_devs h !! dev = Some d /\ ctx d = Some cl))).
Proof.
  split; [|split; [|split; [|split; [|split]]]].
  - intros cl dev. simpl. rewrite !lookup_nil. split; intros (? & ? & _); done.
  - apply reg_inv_new_context.
  - intros *. apply reg_inv_toDevice.
  - intros *. apply reg_inv_OpenDevices.
  - intros *. apply reg_inv_Device_Close.
  - intros h cl c Hinv Hc. split.
    + intros [err Hclose]. unfold Context_Close in Hclose.
      destruct (checkOpenDevs c) as [e|] eqn:Hchk; cycle 1.
      { destruct (closeOnce_Do c); simpl in Hclose; congruence. }
      unfold checkOpenDevs in Hchk.
      destruct (0 <? size (devices c))%nat eqn:Hsz; [|discriminate].
      apply Nat.ltb_lt in Hsz.
      assert (Hne : devices c <> ∅).
      { intros He. rewrite He, map_size_empty in Hsz. lia. }
      apply map_choose in Hne as (dev & b & Hdev).
      exists dev. apply Hinv. eauto.
    + intros (dev & d & Hd & Hctx).
      assert (Hreg : exists c', h_ctxs h !! cl = Some c' /\ is_Some (devices c' !! dev))
        by (apply Hinv; eauto).
      destruct Hreg as (c' & Hc' & [b Hb]). assert (c' = c) as -> by congruence.
      assert (Hne : devices c <> ∅).
      { intros He. rewrite He, lookup_empty in Hb. done. }
      destruct (checkOpenDevs_nonempty c Hne) as [Hchk _].
      eexists. by apply Context_Close_error.
Qed.

(** ** Endpoints: built verbatim and linked back to their device *)

Lemma fillEndpoints_spec il eds : forall idx eps eps',
  fillEndpoints il eds idx eps = Ok eps' ->
  length eps' = length eps /\ (eds <> [] -> idx + length eds <= length eps)%nat /\
  (forall j, (j < idx \/ idx + length eds <= j)%nat -> eps' !! j = eps !! j) /\
  (forall k ed, eds !! k = Some ed -> eps' !! (idx + k)%nat = Some (toEndpoint ed il)).
Proof.
  induction eds as [|e eds IH]; intros idx eps eps' H; simpl in H.
  - injection H as <-. split; [done|]. split; [done|]. split; [done|].
    intros k ed Hk. by rewrite lookup_nil in Hk.
  - destruct (Nat.ltb_spec idx (length eps)) as [Hlt|Hge]; [|discriminate].
    apply IH in H as (Hlen & Hfit & Hkeep & Hput). rewrite length_insert in Hlen, Hfit.
    split; [done|]. split.
    { intros _. simpl. destruct eds as [|e' eds]; [simpl; lia|].
      specialize (Hfit ltac:(done)). simpl in *. lia. }
    split.
    + intros j Hj. simpl in Hj. rewrite Hkeep by lia.
      apply list_lookup_insert_ne. lia.
    + intros [|k] ed Hk; simpl in Hk.
      * injection Hk as <-. rewrite Nat.add_0_r, Hkeep by lia.
        by apply list_lookup_insert_eq.
      * replace (idx + S k)%nat with (S idx + k)%nat by lia. by apply Hput.
Qed.

Lemma fillEndpoints_fits il eds : forall idx eps,
  (idx + length eds <= length eps)%nat ->
  exists eps', fillEndpoints il eds idx eps = Ok eps'.
Proof.
  induction eds as [|e eds IH]; intros idx eps Hfit; simpl.
  - eauto.
  - simpl in Hfit. destruct (Nat.ltb_spec idx (length eps)) as [Hlt|Hge]; [|lia].
    apply IH. rewrite length_insert. lia.
Qed.

(** X11: a returning [toInterface] has the interface number of the record,
    alternate setting 0 and exactly the declared number of endpoint slots;
    slot [k] holds the [k]-th endpoint record verbatim (address, transfer
    type, and the record's maximum packet size as both packet sizes) with
    its back link on the interface's own entry in the store, which belongs
    to the device; the slots beyond the records are zero-valued.
    [toInterface] panics exactly when there are more endpoint records than
    declared. *)
Theorem toInterface_verbatim (h : Heap) (i : gusb.InterfaceDescriptor) (p : loc) :
  let n := Z.to_nat (gusb.NumEndpoints i) in
  ((length (gusb.Endpoints i) <= n)%nat <-> exists r, toInterface h i p = Ok r) /\
  ((n < length (gusb.Endpoints i))%nat <-> toInterface h i p = Panic index_out_of_range) /\
  forall h' x,
    toInterface h i p = Ok (h', x) ->
    ID x = gusb.InterfaceNumber i /\ Alternate x = 0 /\ if_d x = Some p /\
    length (Endpoints x) = n /\
    h_intfs h' = h_intfs h ++ [x] /\
    (forall k ed, gusb.Endpoints i !! k = Some ed ->
       Endpoints x !! k =
         Some (mkEndpoint (gusb.Address ed) (gusb.TransferType ed) (gusb.MaxPacketSize ed)
                 (gusb.MaxPacketSize ed) (Some (length (h_intfs h))))) /\
    (forall k, (length (gusb.Endpoints i) <= k < n)%nat ->
       Endpoints x !! k = Some zeroEndpoint).
Proof.
  intros n.
  assert (Hok : forall h' x, toInterface h i p = Ok (h', x) ->
    (length (gusb.Endpoints i) <= n)%nat /\
    ID x = gusb.InterfaceNumber i /\ Alternate x = 0 /\ if_d x = Some p /\
    length (Endpoints x) = n /\ h_intfs h' = h_intfs h ++ [x] /\
    (forall k ed, gusb.Endpoints i !! k = Some ed ->
       Endpoints x !! k = Some (toEndpoint ed (length (h_intfs h)))) /\
    (forall k, (length (gusb.Endpoints i) <= k < n)%nat ->
       Endpoints x !! k = Some zeroEndpoint)).
  { intros h' x H. unfold toInterface in H. apply bind_Ok in H as (eps & Hf & H).
    injection H as <- <-. simpl.
    apply fillEndpoints_spec in Hf as (Hlen & Hfit & Hkeep & Hput).
    rewrite length_replicate in Hlen, Hfit. fold n in Hlen, Hfit.
    split.
    { destruct (gusb.Endpoints i) as [|e es] eqn:He; [simpl; lia|].
      specialize (Hfit ltac:(done)). simpl in *. lia. }
    do 5 (split; [done|]). split.
    - intros k ed Hk. by apply (Hput k ed).
    - intros k Hk. rewrite Hkeep by (right; simpl; lia).
      apply lookup_replicate_2. lia. }
  assert (Hfits : (length (gusb.Endpoints i) <= n)%nat -> exists r, toInterface h i p = Ok r).
  { intros Hle. unfold toInterface.
    destruct (fillEndpoints_fits (length (h_intfs h)) (gusb.Endpoints i) 0
                (replicate n zeroEndpoint)) as [eps Heps].
    { rewrite length_replicate. simpl. lia. }
    fold n. rewrite Heps. simpl. eauto. }
  split; [|split].
  - split; [done|]. intros [[h' x] H]. by apply Hok in H as [? _].
  - split.
    + intros Hgt. destruct (toInterface_total h i p) as [[[h' x] H]|H]; [|done].
      apply Hok in H as [? _]. lia.
    + intros Hp. destruct (decide (length (gusb.Endpoints i) <= n)%nat) as [Hle|?]; [|lia].
      destruct (Hfits Hle) as [r Hr]. congruence.
  - intros h' x H. apply Hok in H as (_ & ? & ? & ? & ? & ? & ? & ?). done.
Qed.

Lemma fillEndpoints_Forall (P : Endpoint -> Prop) il eds : forall idx eps eps',
  Forall P eps -> (forall ed, P (toEndpoint ed il)) ->
  fillEndpoints il eds idx eps = Ok eps' -> Forall P eps'.
Proof.
  induction eds as [|e eds IH]; intros idx eps eps' Hall HP H; simpl in H.
  - by injection H as <-.
  - destruct (idx <? length eps)%nat; [|discriminate].
    eapply IH; [|done|exact H]. by apply Forall_insert.
Qed.

Lemma ep_linked_mono h h' p e more :
  h_intfs h' = h_intfs h ++ more -> ep_linked h p e -> ep_linked h' p e.
Proof.
  intros Hm [Hn|(il & x & Hi & Hx & Hd)]; [by left|]. right.
  exists il, x. split; [done|]. split; [|done]. rewrite Hm. by apply lookup_app_l_Some.
Qed.

Lemma intf_linked_mono h h' p x more :
  h_intfs h' = h_intfs h ++ more -> intf_linked h p x -> intf_linked h' p x.
Proof.
  intros Hm Hl. unfold intf_linked in *. eapply Forall_impl; [exact Hl|].
  intros e. by apply ep_linked_mono with more.
Qed.

Lemma cfg_linked_mono h h' p cfg more :
  h_intfs h' = h_intfs h ++ more -> cfg_linked h p cfg -> cfg_linked h' p cfg.
Proof.
  intros Hm Hl. unfold cfg_linked in *. eapply Forall_impl; [exact Hl|].
  intros e. by apply intf_linked_mono with more.
Qed.

Lemma toInterface_linked h i p h' x :
  toInterface h i p = Ok (h', x) -> intf_linked h' p x.
Proof.
  intros H. pose proof (toInterface_Ok _ _ _ _ _ H) as (_ & _ & _ & _ & Hd & Hi).
  unfold toInterface in H. apply bind_Ok in H as (eps & Hf & H).
  injection H as Hh' Hx.
  apply (fillEndpoints_Forall
           (fun e => ep_i e = None \/ ep_i e = Some (length (h_intfs h)))) in Hf.
  - unfold intf_linked. rewrite <- Hx at 1. simpl.
    eapply Forall_impl; [exact Hf|]. intros e [Hn|Hs]; [by left|]. right.
    exists (length (h_intfs h)), x. split; [done|]. split; [|done].
    rewrite Hi. by apply list_lookup_middle.
  - apply Forall_forall. intros e He. apply elem_of_replicate in He as [-> _]. by left.
  - intros ed. by right.
Qed.

Lemma fillInterfaces_linked p ids : forall h ifs h' ifs',
  Forall (intf_linked h p) ifs ->
  fillInterfaces h p ids ifs = Ok (h', ifs') -> Forall (intf_linked h' p) ifs'.
Proof.
  induction ids as [|i ids IH]; intros h ifs h' ifs' Hall H; simpl in H.
  - by injection H as <- <-.
  - apply bind_Ok in H as ([h1 x] & Hx & H).
    destruct (_ && _); [|discriminate].
    pose proof (toInterface_linked _ _ _ _ _ Hx) as Hlx.
    apply toInterface_Ok in Hx as (_ & _ & _ & _ & _ & Hi).
    eapply IH; [|exact H]. apply Forall_insert; [|done].
    eapply Forall_impl; [exact Hall|]. intros y. by apply intf_linked_mono with [x].
Qed.

Lemma toConfig_linked h c p h' cfg :
  toConfig h c p = Ok (h', cfg) -> cfg_linked h' p cfg.
Proof.
  unfold toConfig. intros H. apply bind_Ok in H as ([h1 ifs] & Hf & H).
  injection H as <- <-. unfold cfg_linked. simpl.
  eapply fillInterfaces_linked; [|exact Hf].
  apply Forall_forall. intros x Hx. apply elem_of_replicate in Hx as [-> _].
  constructor.
Qed.

Lemma fillConfigs_linked s p cds : forall h h' arr,
  h_cfgs h !! s_arr s = Some arr -> Forall (cfg_linked h p) arr ->
  fillConfigs h s p cds = Ok h' ->
  exists arr', h_cfgs h' !! s_arr s = Some arr' /\ Forall (cfg_linked h' p) arr'.
Proof.
  induction cds as [|c cds IH]; intros h h' arr Harr Hall H; simpl in H.
  - injection H as <-. eauto.
  - apply bind_Ok in H as ([h1 cfg] & Hc & H).
    apply bind_Ok in H as (h2 & Hs & H).
    pose proof (toConfig_linked _ _ _ _ _ Hc) as Hlc.
    pose proof (toConfig_Ok _ _ _ _ _ Hc) as (_ & Hc1 & _).
    unfold toConfig in Hc. apply bind_Ok in Hc as ([hc ifs] & Hf & Hc).
    injection Hc as Hhc _. subst hc. apply fillInterfaces_intfs in Hf as [m1 Hm1].
    rewrite <- Hc1 in Harr.
    pose proof (store_cfg_Ok _ _ _ _ _ arr Hs Harr) as (_ & _ & _ & Hi2 & _ & _ & Ha2).
    eapply IH in H; [exact H | exact Ha2 |].
    apply Forall_insert.
    + eapply Forall_impl; [exact Hall|]. intros y Hy.
      apply (cfg_linked_mono h h2 p y m1); [congruence | done].
    + apply (cfg_linked_mono h1 h2 p cfg []); [by rewrite app_nil_r | done].
Qed.

Lemma handle_linked h p d e :
  ep_linked h p e -> ep_i e <> None -> h_devs h !! p = Some d -> handle h e = f d.
Proof.
  intros [Hn|(il & x & Hi & Hx & Hd)] Hne Hp; [done|].
  unfold handle. rewrite Hi. simpl. rewrite Hx. simpl. rewrite Hd. simpl. by rewrite Hp.
Qed.

(** The endpoints of every interface of every configuration of a device
    [toDevice] built are linked back to it. *)
Lemma toDevice_linked w fuel h dd h' p :
  toDevice w fuel h dd = Ok (h', p) ->
  exists d arr,
    h_devs h' !! p = Some d /\ h_cfgs h' !! s_arr (Configs d) = Some arr /\
    Forall (cfg_linked h' p) arr.
Proof.
  intros H.
  pose proof (toDevice_result _ _ _ _ _ _ H) as (ac & ports & more & Hp & Hdevs & _).
  apply toDevice_unfold in H as (h1 & dr & Hfill & _ & H).
  apply finishDevice_Ok in H as (ac' & ports' & _ & _ & _ & ->).
  set (d0 := newDevice w (length (h_cfgs h)) dd) in *.
  assert (Harr0 : h_cfgs (allocDevice h d0) !! s_arr (Configs d0)
                  = Some (replicate (s_len (Configs d0)) zeroConfiguration)).
  { simpl. apply list_lookup_middle. done. }
  eapply fillConfigs_linked in Hfill as (arr & Harr & Hall); [|exact Harr0|].
  - eexists _, arr. split; [rewrite Hdevs, Hp; by apply list_lookup_middle|].
    split.
    + destruct (builtDevice_fields w h dd ac ports) as (_ & _ & _ & _ & Hc & _).
      rewrite Hc. exact Harr.
    + rewrite Hp. eapply Forall_impl; [exact Hall|]. intros cfg.
      apply (cfg_linked_mono h1 _ _ cfg []). simpl. by rewrite app_nil_r.
  - apply Forall_forall. intros x Hx. apply elem_of_replicate in Hx as [-> _]. constructor.
Qed.

(** X12: [Open] answers [ErrDeviceNotFound] when the device file does not
    exist, the error of opening or of parsing otherwise, and in all these
    cases builds nothing.  When it returns a device, the device carries the
    opened file, and every endpoint of every interface of every one of its
    configurations that has a back link resolves to that file through
    [e.i.d.f]: no transfer on such an endpoint is refused for a closed
    handle. *)
Theorem Open_endpoints_reach_handle (w : World) (fs : Files) (fuel : nat) (h : Heap)
    (bus dev : Z) :
  (forall fd err, OpenFile w bus dev = (fd, Some err) ->
     Open w fs fuel h bus dev =
       Ok (h, (None, Some (if IsNotExist fs err then ErrDeviceNotFound else err)))) /\
  (forall fd desc err,
     OpenFile w bus dev = (fd, None) -> ParseDescriptor fs fd = (desc, Some err) ->
     Open w fs fuel h bus dev = Ok (h, (None, Some err))) /\
  (forall h' p e,
     Open w fs fuel h bus dev = Ok (h', (Some p, e)) ->
     e = None /\ p = length (h_devs h) /\
     exists d arr,
       h_devs h' !! p = Some d /\ OpenFile w bus dev = (f d, None) /\
       h_cfgs h' !! s_arr (Configs d) = Some arr /\
       forall cfg x ep,
         cfg ∈ arr -> x ∈ Interfaces cfg -> ep ∈ Endpoints x -> ep_i ep <> None ->
         handle h' ep = f d).
Proof.
  split; [|split].
  - intros fd err Ho. unfold Open. rewrite Ho. by destruct (IsNotExist fs err).
  - intros fd desc err Ho Hp. unfold Open. by rewrite Ho, Hp.
  - intros h' p e H. unfold Open in H.
    destruct (OpenFile w bus dev) as [fd [err|]] eqn:Ho.
    { destruct (IsNotExist fs err); discriminate H. }
    destruct (ParseDescriptor fs fd) as [desc [err|]]; [discriminate H|].
    apply bind_Ok in H as ([h1 q] & Hd & H).
    apply bind_Ok in H as (d & Hld & H). injection H as <- <- <-.
    pose proof (toDevice_result _ _ _ _ _ _ Hd) as (_ & _ & _ & Hq & _).
    destruct (toDevice_linked _ _ _ _ _ _ Hd) as (d1 & arr & Hd1 & Harr & Hall).
    unfold load_dev in Hld. rewrite Hd1 in Hld. injection Hld as <-.
    split; [done|]. split; [done|].
    assert (Hlt : (q < length (h_devs h1))%nat) by (by apply lookup_lt_Some in Hd1).
    exists (set_f fd d1), arr. simpl.
    split; [by apply list_lookup_insert_eq|]. split; [done|]. split; [done|].
    intros cfg x ep Hcfg Hx Hep Hne.
    rewrite Forall_forall in Hall. specialize (Hall cfg Hcfg).
    unfold cfg_linked in Hall. rewrite Forall_forall in Hall. specialize (Hall x Hx).
    unfold intf_linked in Hall. rewrite Forall_forall in Hall. specialize (Hall ep Hep).
    apply (handle_linked _ q (set_f fd d1)); [|done|].
    + apply (ep_linked_mono h1 _ q ep []); [simpl; by rewrite app_nil_r | done].
    + simpl. by apply list_lookup_insert_eq.
Qed.

(** ** The driver of an interface of a built device *)

Lemma toDevice_active_config w fuel h dd h' p pre c post :
  wf_descriptor dd = true ->
  toDevice w fuel h dd = Ok (h', p) ->
  gusb.Configs dd = pre ++ c :: post ->
  gusb.Value c = activeSelector (sourceAtFetch w h dd) (deviceAtFetch w h dd) ->
  (forall c', c' ∈ post -> gusb.Value c' <> gusb.Value c) ->
  exists d ac cfg k,
    h_devs h' !! p = Some d /\ ActiveConfig d = Some ac /\
    deref_cfg h' ac = Some cfg /\ dataSource d = Some k /\
    exists hc hc', toConfig hc c p = Ok (hc', cfg).
Proof.
  intros Hwf H Hsplit Hsel Hlast.
  destruct (wf_descriptor_spec dd Hwf) as [Hn Hvals].
  pose proof (toDevice_result _ _ _ _ _ _ H) as (ac & ports & _ & Hp & Hdevs & _).
  pose proof (toDevice_establishes _ _ _ _ _ _ H) as (d' & Hdevs' & _ & _ & Hrange & _).
  cbv zeta in Hrange. rewrite <- Hsel in Hrange.
  apply toDevice_Ok in H as (h1 & ac' & d & _ & Hfill & Hac & -> & Hcfg & Hact).
  set (d0 := newDevice w (length (h_cfgs h)) dd) in *.
  assert (Harr0 : h_cfgs (allocDevice h d0) !! s_arr (Configs d0)
                  = Some (replicate (s_len (Configs d0)) zeroConfiguration)).
  { simpl. apply list_lookup_middle. done. }
  assert (Hlook : h_devs (store_dev h1 p d) !! p = Some (builtDevice w h dd ac ports)).
  { rewrite Hdevs, Hp. by apply list_lookup_middle. }
  assert (Hd : d = builtDevice w h dd ac ports).
  { pose proof (fillConfigs_Ok _ _ _ _ _ _ Hfill Harr0 (length_replicate _ _)) as (Hd1 & _).
    assert (Hl : h_devs (store_dev h1 p d) !! p = Some d).
    { simpl. apply list_lookup_insert_eq. rewrite Hd1, Hp. simpl.
      rewrite length_app. simpl. lia. }
    congruence. }
  assert (Hin : c ∈ gusb.Configs dd).
  { rewrite Hsplit. apply elem_of_app. right. by left. }
  pose proof (Hvals c Hin) as Hv.
  rewrite Hsplit in Hfill.
  destruct (fillConfigs_placed _ _ _ _ _ _ _ _ Hfill Harr0 (length_replicate _ _))
    as (hc & hc' & cfg & arr' & Hc & Harr' & Hat).
  { intros c' Hc'.
    assert (Hv' : 0 <= gusb.Value c' < 256).
    { apply Hvals. rewrite Hsplit. apply elem_of_app. right. by right. }
    rewrite (u8_pred _ Hv), (u8_pred _ Hv'). specialize (Hlast c' Hc').
    destruct (Z.eqb_spec (gusb.Value c) 0), (Z.eqb_spec (gusb.Value c') 0); lia. }
  rewrite (u8_pred _ Hv) in Hat.
  destruct (Z.eqb_spec (gusb.Value c) 0) as [?|_]; [lia|].
  apply addr_cfg_Ok in Hac as [_ ->]. rewrite <- Hsel in Hact.
  exists d, (mkCfgptr (s_arr (Configs d0)) (Z.to_nat (gusb.Value c - 1))), cfg,
    (selectSource (resolved w d0)).
  split; [by rewrite Hlook, Hd|]. split; [done|]. split.
  { unfold deref_cfg. simpl. change (h_cfgs h1 !! length (h_cfgs h) = Some arr') in Harr'.
    rewrite Harr'. simpl. exact Hat. }
  split; [|eauto].
  rewrite Hd. unfold builtDevice. simpl.
  destruct (linkDevice_fields w (sourceAtFetch w h dd) ac (deviceAtFetch w h dd))
    as (_ & _ & _ & _ & _ & _ & Hds & _).
  destruct (deviceAtFetch_fields w h dd) as (_ & _ & _ & _ & _ & _ & Hds' & _).
  cbv zeta in Hds, Hds'. by rewrite Hds, Hds'.
Qed.

(** X13: on a device [toDevice] built from a parsed descriptor, with [c]
    the record of its active configuration, [Device.GetDriver(n)] for an
    index [n] within the declared number of interfaces asks the data source
    of the device for the driver of interface number [n] and returns its
    answer, provided some record of [c] carries the number [n]; when no
    record does, the slot is a zero-valued interface without a device and
    the call panics on a nil dereference.  Outside the declared number of
    interfaces the call returns an empty name and an error. *)
Theorem Device_GetDriver_built (w : World) (fuel : nat) (h : Heap)
    (dd : gusb.DeviceDescriptor) (h' : Heap) (p : loc)
    (pre : list gusb.ConfigDescriptor) (c : gusb.ConfigDescriptor)
    (post : list gusb.ConfigDescriptor) :
  wf_descriptor dd = true ->
  toDevice w fuel h dd = Ok (h', p) ->
  gusb.Configs dd = pre ++ c :: post ->
  gusb.Value c = activeSelector (sourceAtFetch w h dd) (deviceAtFetch w h dd) ->
  (forall c', c' ∈ post -> gusb.Value c' <> gusb.Value c) ->
  exists d k,
    h_devs h' !! p = Some d /\ dataSource d = Some k /\
    (forall n, 0 <= n < gusb.NumInterfaces c ->
       (exists i, i ∈ gusb.Interfaces c /\ gusb.InterfaceNumber i = n) ->
       Device_GetDriver w h' p n = Ok (getDriver (backing w k) d n)) /\
    (forall n, 0 <= n < gusb.NumInterfaces c ->
       (forall i, i ∈ gusb.Interfaces c -> gusb.InterfaceNumber i <> n) ->
       Device_GetDriver w h' p n = Panic nil_dereference) /\
    (forall n, ~ (0 <= n < gusb.NumInterfaces c) ->
       exists e, Device_GetDriver w h' p n = Ok ("", Some e)).
Proof.
  intros Hwf H Hsplit Hsel Hlast.
  destruct (toDevice_active_config _ _ _ _ _ _ _ _ _ Hwf H Hsplit Hsel Hlast)
    as (d & ac & cfg & k & Hd & Hact & Hcfg & Hk & hc & hc' & Hc).
  destruct (toConfig_positional _ _ _ _ _ Hc) as (_ & Hlen & _ & Hid & Hgap).
  pose proof (toConfig_Ok _ _ _ _ _ Hc) as Hc'.
  exists d, k. split; [done|]. split; [done|].
  assert (Hslot : forall n, 0 <= n < gusb.NumInterfaces c ->
    exists x, Interfaces cfg !! Z.to_nat n = Some x /\
      Device_GetDriver w h' p n = Interface_GetDriver w h' x).
  { intros n Hn.
    destruct (lookup_lt_is_Some_2 (Interfaces cfg) (Z.to_nat n)) as [x Hx]; [lia|].
    exists x. split; [done|].
    unfold Device_GetDriver, Device_Interface, load_dev. rewrite Hd. simpl.
    rewrite Hact, Hcfg, Hlen.
    destruct (Z.eqb_spec (Z.of_nat (Z.to_nat (gusb.NumInterfaces c))) 0); [lia|].
    destruct (Z.ltb_spec n 0); [lia|].
    destruct (Z.leb_spec (Z.of_nat (Z.to_nat (gusb.NumInterfaces c))) n); [lia|].
    simpl. unfold deref_intf. simpl. rewrite Hcfg. simpl. by rewrite Hx. }
  split; [|split].
  - intros n Hn (i & Hi & Hnum).
    destruct (Hslot n Hn) as (x & Hx & ->).
    assert (Hnum' : gusb.InterfaceNumber i = Z.of_nat (Z.to_nat n)) by lia.
    pose proof (Hid (Z.to_nat n) x Hx (ex_intro _ i (conj Hi Hnum'))) as Hidx.
    destruct (last_occurrence (fun i => gusb.InterfaceNumber i = n) (gusb.Interfaces c))
      as (ipre & i' & ipost & Hisplit & Hi' & Hpost).
    { apply Exists_exists. eauto. }
    destruct (toConfig_positional _ _ _ _ _ Hc) as (_ & _ & Hplaced & _).
    destruct (Hplaced ipre i' ipost Hisplit) as (y & Hy & (hi & hi' & Hto) & _).
    { intros z Hz. rewrite Hi'. by apply Hpost. }
    rewrite Hi' in Hy. assert (y = x) as -> by congruence.
    apply toInterface_Ok in Hto as (_ & _ & _ & _ & Hxd & _).
    unfold Interface_GetDriver, load_dev, the_backing. rewrite Hxd, Hd. simpl.
    rewrite Hk. simpl. rewrite Hidx. f_equal. f_equal. lia.
  - intros n Hn Hnone.
    destruct (Hslot n Hn) as (x & Hx & ->).
    rewrite Hgap in Hx; [|lia|].
    + injection Hx as <-. reflexivity.
    + intros i Hi. specialize (Hnone i Hi). lia.
  - intros n Hn.
    unfold Device_GetDriver, Device_Interface, load_dev. rewrite Hd. simpl.
    rewrite Hact, Hcfg, Hlen.
    destruct (Z.eqb_spec (Z.of_nat (Z.to_nat (gusb.NumInterfaces c))) 0); [simpl; eauto|].
    destruct (Z.ltb_spec n 0); [simpl; eauto|].
    destruct (Z.leb_spec (Z.of_nat (Z.to_nat (gusb.NumInterfaces c))) n); [simpl; eauto|].
    lia.
Qed.

(** X13 on [gapDescriptor], whose configuration declares two interfaces and
    lists interface 0 only: the driver of interface 0 is the data source's
    answer, and asking for interface 1 panics. *)
Lemma Device_GetDriver_built_witness :
  exists h',
    toDevice (testWorld (1, None) None) 1 emptyHeap gapDescriptor = Ok (h', 0%nat) /\
    Device_GetDriver (testWorld (1, None) None) h' 0 0 = Ok ("", None) /\
    Device_GetDriver (testWorld (1, None) None) h' 0 1 = Panic nil_dereference.
Proof.
  destruct toDevice_gapDescriptor as [h' Hh]. exists h'. split; [exact Hh|].
  destruct (Device_GetDriver_built (testWorld (1, None) None) 1 emptyHeap gapDescriptor
              h' 0%nat [] (gusb.mkConfigDescriptor true false 50 1 2 [ifd 0]) []
              eq_refl Hh eq_refl eq_refl)
    as (d & k & _ & _ & Hfilled & Hgap & _).
  { intros c' Hc'. by apply not_elem_of_nil in Hc'. }
  split.
  - rewrite (Hfilled 0); [reflexivity | simpl; lia |].
    exists (ifd 0). split; [by left | reflexivity].
  - apply Hgap; [simpl; lia|].
    intros i Hi. apply list_elem_of_singleton in Hi as ->. discriminate.
Defined.

(** ** The port path of a built device *)

Lemma walkPorts_short devs d l :
  chain devs d l ->
  forall fuel acc, (fuel < length l)%nat -> walkPorts devs fuel d acc = OutOfFuel.
Proof.
  induction 1 as [d Hp | d p parent l Hp Hl Hc IH]; intros fuel acc Hfuel.
  - destruct fuel; [done | simpl in Hfuel; lia].
  - destruct fuel as [|fuel]; [done|]. simpl in Hfuel. simpl. rewrite Hp, Hl.
    apply IH. lia.
Qed.

Lemma fetchFields_SysPath w src d : SysPath (fetchFields w src d) = SysPath d.
Proof.
  unfold fetchFields. cbv zeta.
  destruct (DeviceNum d <=? 0); [destruct (getDevNum src d) as [dv [e|]]|];
    match goal with |- context [(Bus ?x <=? 0) && is_sysfs ?x] =>
      destruct ((Bus x <=? 0) && is_sysfs x) end;
    reflexivity.
Qed.

Lemma linkDevice_SysPath w src ac d : SysPath (linkDevice w src ac d) = SysPath d.
Proof.
  unfold linkDevice. cbv zeta.
  destruct (getSpeed src _) as [sp [e|]];
    match goal with |- context [is_sysfs ?x] => destruct (is_sysfs x) end;
    reflexivity.
Qed.

Lemma linkDevice_Parent w src ac d :
  is_sysfs d = false -> Parent (linkDevice w src ac d) = Parent d.
Proof.
  intros Hs. unfold linkDevice. cbv zeta.
  destruct (getSpeed src _) as [sp [e|]];
    match goal with |- context [is_sysfs ?x] =>
      replace (is_sysfs x) with (is_sysfs d) by reflexivity end;
    rewrite Hs; reflexivity.
Qed.

(** X14: the [Ports] field of a device [toDevice] returns is the path from
    the root: the non-zero ports along its Parent chain, root first and its
    own port last.  The device reads its data from the metadata filesystem
    exactly when it has a path there (the one of the descriptor, else the
    one the look-up returned for its bus and device number); a device
    without one gets no
    parent, so its [Ports] is its own port alone, or empty when that is
    0. *)
Theorem toDevice_Ports_path (w : World) (fuel : nat) (h : Heap)
    (dd : gusb.DeviceDescriptor) (h' : Heap) (p : loc) :
  toDevice w fuel h dd = Ok (h', p) ->
  exists d,
    h_devs h' !! p = Some d /\
    (forall l, chain (h_devs h') d l ->
       Ports d = reverse (List.filter nonzero (Port <$> l))) /\
    (if string_empty (gusb.SysPath (gusb.PathInfo dd))
     then sysfs.getSysfsFromBusDev (sysFiles w) (sysVisits w)
            (gusb.Bus (gusb.PathInfo dd)) (gusb.Dev (gusb.PathInfo dd)) = Ok (SysPath d)
     else SysPath d = gusb.SysPath (gusb.PathInfo dd)) /\
    dataSource d = Some (if string_empty (SysPath d) then backingUsbfs else backingSysfs) /\
    (string_empty (SysPath d) = true ->
       Parent d = None /\ Ports d = List.filter nonzero [Port d]).
Proof.
  intros H.
  pose proof (toDevice_result _ _ _ _ _ _ H) as (ac & ports & _ & Hp & Hdevs & _).
  destruct (toDevice_Ports _ _ _ _ _ _ H) as (d & Hd & Hports).
  assert (Hb : d = builtDevice w h dd ac ports).
  { rewrite Hdevs, Hp, list_lookup_middle in Hd by done. congruence. }
  exists d. split; [done|].
  assert (Hchain : forall l, chain (h_devs h') d l ->
            Ports d = reverse (List.filter nonzero (Port <$> l))).
  { intros l Hl. destruct (decide (length l <= fuel)%nat) as [Hle|Hgt].
    - rewrite (getPorts_chain _ _ _ _ Hl Hle) in Hports. congruence.
    - unfold getPorts in Hports.
      rewrite (walkPorts_short _ _ _ Hl) in Hports by lia. discriminate. }
  split; [done|].
  set (d0 := newDevice w (length (h_cfgs h)) dd).
  set (k := selectSource (resolved w d0)).
  assert (Hsys : SysPath d = SysPath (resolved w d0)).
  { rewrite Hb. unfold builtDevice. simpl. rewrite linkDevice_SysPath.
    unfold deviceAtFetch. cbv zeta. rewrite fetchFields_SysPath. reflexivity. }
  assert (Hds : dataSource d = Some k).
  { rewrite Hb. unfold builtDevice. simpl.
    destruct (linkDevice_fields w (sourceAtFetch w h dd) ac (deviceAtFetch w h dd))
      as (_ & _ & _ & _ & _ & _ & Hds & _).
    destruct (deviceAtFetch_fields w h dd) as (_ & _ & _ & _ & _ & _ & Hds' & _).
    cbv zeta in Hds, Hds'. by rewrite Hds, Hds'. }
  split.
  { apply toDevice_unfold in H as (h1 & d1 & _ & Hr & _). fold d0 in Hr.
    rewrite Hsys, <- (resolveSysPath_Ok _ _ _ Hr).
    unfold resolveSysPath in Hr. simpl in Hr.
    destruct (string_empty (gusb.SysPath (gusb.PathInfo dd))).
    - apply bind_Ok in Hr as (sp & Hsp & Hr). injection Hr as <-. exact Hsp.
    - by injection Hr as <-. }
  split.
  { rewrite Hds, Hsys. reflexivity. }
  intros Hempty.
  assert (Hpar : Parent d = None).
  { rewrite Hb. unfold builtDevice. simpl. rewrite linkDevice_Parent.
    - by destruct (deviceAtFetch_fields w h dd) as (_ & _ & _ & _ & _ & _ & _ & Hpar).
    - unfold is_sysfs.
      destruct (deviceAtFetch_fields w h dd) as (_ & _ & _ & _ & _ & _ & Hds' & _).
      cbv zeta in Hds'. rewrite Hds'. fold d0. unfold selectSource.
      rewrite <- Hsys, Hempty. reflexivity. }
  split; [done|].
  rewrite (Hchain [d] (chain_root _ d Hpar)). simpl.
  by destruct (nonzero (Port d)).
Qed.

(** X14 on [twoConfigs], which has no path in the metadata filesystem: no
    parent, and the port 2 alone. *)
Lemma toDevice_Ports_path_witness :
  exists d, h_devs builtHeap !! 0%nat = Some d /\ Parent d = None /\ Ports d = [2].
Proof.
  destruct (toDevice_Ports_path (testWorld (1, None) None) 1 emptyHeap twoConfigs
              builtHeap 0%nat toDevice_twoConfigs) as (d & Hd & _ & _ & _ & Hown).
  exists d. split; [exact Hd|].
  injection Hd as <-. destruct (Hown eq_refl) as [Hpar Hports].
  split; [exact Hpar | exact Hports].
Defined.

(** ** Opening a device by vendor and product *)

Lemma OpenDevices_body_found vid pid cl listed : forall h ret h' ret',
  OpenDevices_body (vidpid_opener vid pid) true cl listed h ret = Ok (h', ret') ->
  h' = h /\ ret' = ret.
Proof.
  induction listed as [|dev rest IH]; intros h ret h' ret' H; simpl in H.
  - by injection H as <- <-.
  - apply bind_Ok in H as (d & _ & H). simpl in H. by apply IH.
Qed.

Lemma OpenDevices_body_scan vid pid cl listed : forall h ret h' ret',
  OpenDevices_body (vidpid_opener vid pid) false cl listed h ret = Ok (h', ret') ->
  (h' = h /\ ret' = ret /\
   Forall (fun q => exists dq, h_devs h !! q = Some dq /\ vidpid_match vid pid dq = false)
     listed) \/
  (exists pre dev post d c,
     listed = pre ++ dev :: post /\
     Forall (fun q => exists dq, h_devs h !! q = Some dq /\ vidpid_match vid pid dq = false)
       pre /\
     h_devs h !! dev = Some d /\ vidpid_match vid pid d = true /\
     h_ctxs h !! cl = Some c /\
     h_devs h' = <[dev := set_ctx (Some cl) d]> (h_devs h) /\
     h_ctxs h' = <[cl := register c dev]> (h_ctxs h) /\
     h_cfgs h' = h_cfgs h /\ h_intfs h' = h_intfs h /\
     ret' = ret ++ [dev]).
Proof.
  induction listed as [|dev rest IH]; intros h ret h' ret' H; simpl in H.
  - injection H as <- <-. left. done.
  - apply bind_Ok in H as (d & Hd & H).
    unfold load_dev in Hd. destruct (h_devs h !! dev) as [d'|] eqn:Hdev; [|discriminate].
    injection Hd as ->.
    unfold vidpid_opener in H. simpl in H.
    fold (vidpid_match vid pid d) in H.
    destruct (vidpid_match vid pid d) eqn:Hm.
    + destruct (h_ctxs h !! cl) as [c|] eqn:Hc; [|discriminate].
      apply OpenDevices_body_found in H as [-> ->].
      right. exists [], dev, rest, d, c. simpl. done.
    + apply IH in H as [(-> & -> & Hall)|(pre & dev' & post & d' & c & -> & Hall & Hrest)].
      * left. split; [done|]. split; [done|]. constructor; [eauto | done].
      * right. exists (dev :: pre), dev', post, d', c. split; [done|].
        split; [constructor; [eauto | done]|]. exact Hrest.
Qed.

(** X15: [OpenDeviceWithVIDPID] never returns a device together with an
    error.  The device it returns is the first one of the enumeration whose
    vendor and product match; that device, and no other, has been
    associated with the context and entered in its device set.  It returns
    no device when enumerating failed (with that error) or when no
    enumerated device matches (with a nil error), and has then registered
    nothing. *)
Theorem OpenDeviceWithVIDPID_first_match (w : World) (fuel : nat)
    (walk : list gusb.DeviceDescriptor * option error) (vid pid : Z) (cl : loc)
    (h h' : Heap) (r : option loc) (e : option error) :
  OpenDeviceWithVIDPID w fuel walk vid pid cl h = Ok (h', (r, e)) ->
  exists h1 listed lerr,
    List w fuel walk h = Ok (h1, (listed, lerr)) /\
    match r with
    | Some dev =>
        e = None /\ lerr = None /\
        exists pre post d c,
          listed = pre ++ dev :: post /\
          Forall (fun q => exists dq, h_devs h1 !! q = Some dq /\
                                      vidpid_match vid pid dq = false) pre /\
          h_devs h1 !! dev = Some d /\ vidpid_match vid pid d = true /\
          h_ctxs h1 !! cl = Some c /\
          h_devs h' = <[dev := set_ctx (Some cl) d]> (h_devs h1) /\
          h_ctxs h' = <[cl := register c dev]> (h_ctxs h1)
    | None =>
        e = lerr /\ h' = h1 /\
        (lerr = None ->
         Forall (fun q => exists dq, h_devs h1 !! q = Some dq /\
                                     vidpid_match vid pid dq = false) listed)
    end.
Proof.
  unfold OpenDeviceWithVIDPID, OpenDevices. intros H.
  apply bind_Ok in H as ([h2 [devs err]] & Ho & H).
  apply bind_Ok in Ho as ([h1 [listed lerr]] & Hl & Ho).
  exists h1, listed, lerr. split; [done|].
  destruct lerr as [le|].
  - injection Ho as <- <- <-. injection H as <- <- <-. done.
  - apply bind_Ok in Ho as ([h3 ret] & Hb & Ho). injection Ho as <- <- <-.
    apply OpenDevices_body_scan in Hb
      as [(-> & -> & Hall)|(pre & dev & post & d & c & -> & Hall & Hd & Hm & Hc & Hdv & Hcx & _ & _ & ->)].
    + injection H as <- <- <-. done.
    + simpl in H. injection H as <- <- <-.
      split; [done|]. split; [done|]. exists pre, post, d, c. done.
Qed.

(** X15 on one enumerated device, [twoConfigs], and its vendor and product:
    the device is returned without an error. *)
Lemma OpenDeviceWithVIDPID_first_match_witness :
  exists h' d,
    OpenDeviceWithVIDPID (testWorld (1, None) None) 1 ([twoConfigs], None)
      0x1d6b 0x0002 0 contextHeap = Ok (h', (Some 0%nat, None)) /\
    h_devs h' !! 0%nat = Some d /\ ctx d = Some 0%nat /\
    (devices <$> h_ctxs h' !! 0%nat) = Some {[ 0%nat := true ]}.
Proof.
  destruct (OpenDeviceWithVIDPID (testWorld (1, None) None) 1 ([twoConfigs], None)
              0x1d6b 0x0002 0 contextHeap) as [[h' [r e]]| |] eqn:Ho;
    try (vm_compute in Ho; discriminate Ho).
  assert (Hr : r = Some 0%nat /\ e = None).
  { pose proof Ho as Ho'. vm_compute in Ho'. by injection Ho' as _ <- <-. }
  destruct Hr as [-> ->].
  destruct (OpenDeviceWithVIDPID_first_match _ _ _ _ _ _ _ _ _ _ Ho)
    as (h1 & listed & lerr & Hl & _ & _ & pre & post & d & c & _ & _ & Hd & _ & Hc & Hdv & Hcx).
  vm_compute in Hl. injection Hl as <- <- <-.
  injection Hd as <-. injection Hc as <-.
  eexists h', _. split; [reflexivity|].
  rewrite Hdv, Hcx. split; [reflexivity|]. split; reflexivity.
Defined.

(** ** Transfers on a closed device *)

(** X16: once [Device.Close] has returned, every endpoint of an interface of
    that device resolves to no handle: [BulkOut], [BulkIn], and with a
    context that is not done [WriteContext] and [ReadContext], all return 0
    and a device-not-open error, send nothing to the kernel and leave the
    buffer as it is. *)
Theorem Device_Close_refuses_transfers {K}
    (kernel : K -> option File -> gusb.request -> K * gusb.response)
    (closeFile : File -> option error) (h : Heap) (p : loc) (h' : Heap)
    (e : option error) (ep : Endpoint) :
  Device_Close closeFile h p = Ok (h', e) ->
  ep_linked h p ep ->
  handle h' ep = None /\
  forall (s : gusb.sys K) (buf : list Z) (t : Z),
    BulkOut kernel s h' ep buf t =
      (s, (0, Some (errors_New "usb: device not open for BulkOut"))) /\
    BulkIn kernel s h' ep buf t =
      (s, (0, Some (errors_New "usb: device not open for BulkIn")), buf) /\
    forall ctx sched, ctx_Done ctx = false ->
      WriteContext kernel s h' ep ctx sched buf =
        (s, (0, Some (errors_New "usb: device not open for WriteContext"))) /\
      ReadContext kernel s h' ep ctx sched buf =
        (s, (0, Some (errors_New "usb: device not open for ReadContext")), buf).
Proof.
  intros H Hl.
  destruct (Device_Close_Ok _ _ _ _ _ H) as (d & Hd & Hdevs & _ & _ & _ & _ & Hi).
  assert (Hh : handle h' ep = None).
  { destruct Hl as [Hn|(il & x & Hil & Hx & Hxd)].
    - unfold handle. by rewrite Hn.
    - unfold handle. rewrite Hil. simpl. rewrite Hi, Hx. simpl. rewrite Hxd. simpl.
      rewrite Hdevs, list_lookup_insert_eq by (by apply lookup_lt_Some in Hd). done. }
  split; [done|]. intros s buf t.
  unfold BulkOut, BulkIn, WriteContext, ReadContext. rewrite Hh.
  split; [done|]. split; [done|]. intros c sched ->. done.
Qed.

Lemma Device_Close_refuses_transfers_witness :
  exists h',
    Device_Close (fun _ => None) openHeap 0 = Ok (h', None) /\
    BulkOut usbfsKernel usbfs0 h' epOut [1; 2] 0 =
      (usbfs0, (0, Some (errors_New "usb: device not open for BulkOut"))).
Proof.
  destruct (Device_Close (fun _ => None) openHeap 0) as [[h' e]| |] eqn:Hc;
    try (vm_compute in Hc; discriminate Hc).
  assert (He : e = None).
  { pose proof Hc as Hc'. vm_compute in Hc'. by injection Hc' as _ <-. }
  subst e. exists h'. split; [reflexivity|].
  destruct (Device_Close_refuses_transfers usbfsKernel _ _ _ _ _ epOut Hc) as [_ Hall].
  { right. exists 0%nat, intf0. done. }
  by destruct (Hall usbfs0 [1; 2] 0) as [Hout _].
Defined.

(** ** Devices returned by OpenDevices *)

Lemma toDevice_keeps_linked w fuel h dd h' p q :
  toDevice w fuel h dd = Ok (h', p) -> dev_linked h q -> dev_linked h' q.
Proof.
  intros H (d & arr & Hd & Harr & Hall).
  apply toDevice_result in H as (ac & ports & more & _ & Hdevs & _ & Hintfs & _ & Hcfgs).
  exists d, arr. split; [rewrite Hdevs; by apply lookup_app_l_Some|].
  split; [rewrite Hcfgs; [done | by apply lookup_lt_Some in Harr]|].
  eapply Forall_impl; [exact Hall|]. intros cfg. by apply cfg_linked_mono with more.
Qed.

Lemma List_loop_linked w fuel dds : forall h h' ps,
  List_loop w fuel h dds = Ok (h', ps) ->
  (forall q, dev_linked h q -> dev_linked h' q) /\
  (forall p, p ∈ ps -> dev_linked h' p).
Proof.
  induction dds as [|dd dds IH]; intros h h' ps H; simpl in H.
  - injection H as <- <-. split; [done|]. intros p Hp. by apply not_elem_of_nil in Hp.
  - apply bind_Ok in H as ([h1 p] & Hd & H).
    apply bind_Ok in H as ([h2 ps'] & Hl & H). injection H as <- <-.
    destruct (IH _ _ _ Hl) as [Hkeep Hnew]. split.
    + intros q Hq. apply Hkeep. by apply (toDevice_keeps_linked _ _ _ _ _ _ _ Hd).
    + intros q Hq. apply elem_of_cons in Hq as [->|Hq]; [|by apply Hnew].
      apply Hkeep. destruct (toDevice_linked _ _ _ _ _ _ Hd) as (d & arr & H1 & H2 & H3).
      by exists d, arr.
Qed.

Lemma OpenDevices_body_frame {S : Type} (opener : S -> Device -> S * bool) cl listed :
  forall st h ret h' ret',
    OpenDevices_body opener st cl listed h ret = Ok (h', ret') ->
    h_cfgs h' = h_cfgs h /\ h_intfs h' = h_intfs h /\
    (forall q d, h_devs h !! q = Some d ->
       exists d', h_devs h' !! q = Some d' /\ set_ctx None d' = set_ctx None d) /\
    exists acc, ret' = ret ++ acc /\ acc `sublist_of` listed.
Proof.
  induction listed as [|dev rest IH]; intros st h ret h' ret' H; simpl in H.
  - injection H as <- <-. split; [done|]. split; [done|]. split; [eauto|].
    exists []. split; [by rewrite app_nil_r | constructor].
  - apply bind_Ok in H as (d & Hd & H).
    unfold load_dev in Hd. destruct (h_devs h !! dev) as [d0|] eqn:Hdev; [|discriminate].
    injection Hd as ->.
    destruct (opener st d) as [st' [|]].
    + destruct (h_ctxs h !! cl) as [c|]; [|discriminate].
      apply IH in H as (Hc & Hi & Hdevs & acc & -> & Hsub).
      split; [done|]. split; [done|]. split.
      * intros q dq Hq. simpl in Hdevs.
        destruct (decide (q = dev)) as [Hq'|Hne].
        -- subst q. destruct (Hdevs dev (set_ctx (Some cl) d)) as (d' & Hd' & Heq).
           { apply list_lookup_insert_eq. by apply lookup_lt_Some in Hdev. }
           exists d'. split; [done|]. rewrite Heq.
           assert (dq = d) as -> by congruence. reflexivity.
        -- apply Hdevs. by rewrite list_lookup_insert_ne.
      * exists (dev :: acc). split; [by rewrite <- app_assoc | by constructor].
    + apply IH in H as (Hc & Hi & Hdevs & acc & -> & Hsub).
      split; [done|]. split; [done|]. split; [done|].
      exists acc. split; [done | by constructor].
Qed.

(** X17: [OpenDevices] does not open any device file.  The devices it
    returns are some of the freshly enumerated ones, in enumeration order,
    each with a nil handle: every endpoint of every interface of every
    configuration of a returned device resolves to no handle, so transfers
    on it are refused, until [Device.Open] is called on the device; once
    that has succeeded the same endpoints resolve to the file just
    opened. *)
Theorem OpenDevices_returns_unopened {S : Type} (w : World) (fuel : nat)
    (dds : list gusb.DeviceDescriptor) (opener : S -> Device -> S * bool) (st : S)
    (cl : loc) (h h' : Heap) (ret : list loc) (err : option error) :
  OpenDevices w fuel (dds, None) opener st cl h = Ok (h', (ret, err)) ->
  err = None /\
  ret `sublist_of` seq (length (h_devs h)) (length dds) /\
  forall dev, dev ∈ ret ->
    exists d arr,
      h_devs h' !! dev = Some d /\ f d = None /\
      h_cfgs h' !! s_arr (Configs d) = Some arr /\
      forall cfg x ep,
        cfg ∈ arr -> x ∈ Interfaces cfg -> ep ∈ Endpoints x ->
        handle h' ep = None /\
        (ep_i ep <> None ->
         forall h'', Device_Open w h' dev = Ok (h'', None) ->
           handle h'' ep = (OpenFile w (Bus d) (DeviceNum d)).1).
Proof.
  unfold OpenDevices, List. intros H. simpl in H.
  apply bind_Ok in H as ([h1 [listed err1]] & Hl & H).
  apply bind_Ok in Hl as ([h1' ps] & Hl & Hl'). injection Hl' as <- <- <-.
  apply bind_Ok in H as ([h2 r] & Hb & H). injection H as <- <- <-.
  split; [done|].
  pose proof (List_loop_spec _ _ _ _ _ _ Hl) as (Hps & _ & _ & _ & _ & Hnew & _).
  destruct (List_loop_linked _ _ _ _ _ _ Hl) as [_ Hlinked].
  apply OpenDevices_body_frame in Hb as (Hcfgs & Hintfs & Hdevs & acc & -> & Hsub).
  simpl. split; [by rewrite <- Hps|].
  intros dev Hdev. pose proof (elem_of_sublist _ _ _ Hdev Hsub) as Hin.
  destruct (Hlinked dev Hin) as (d & arr & Hd & Harr & Hall).
  assert (Hf : f d = None).
  { rewrite Hps in Hin. apply elem_of_seq in Hin as [Hlo Hhi].
    destruct (lookup_lt_is_Some_2 dds (dev - length (h_devs h))%nat) as [dd Hdd]; [lia|].
    destruct (Hnew _ _ Hdd) as (d1 & Hd1 & _ & _ & _ & _ & Hf1).
    replace (length (h_devs h) + (dev - length (h_devs h)))%nat with dev in Hd1 by lia.
    congruence. }
  destruct (Hdevs dev d Hd) as (d' & Hd' & Heq).
  assert (Hsame : f d' = f d /\ Configs d' = Configs d).
  { split.
    - by apply (f_equal f) in Heq.
    - by apply (f_equal Configs) in Heq. }
  destruct Hsame as [Hf' Hc'].
  exists d', arr. split; [done|]. split; [congruence|].
  split; [rewrite Hc', Hcfgs; done|].
  intros cfg x ep Hcfg Hx Hep.
  rewrite Forall_forall in Hall. specialize (Hall cfg Hcfg).
  unfold cfg_linked in Hall. rewrite Forall_forall in Hall. specialize (Hall x Hx).
  unfold intf_linked in Hall. rewrite Forall_forall in Hall. specialize (Hall ep Hep).
  assert (Hl2 : ep_linked h2 dev ep).
  { apply (ep_linked_mono h1' h2 dev ep []); [by rewrite app_nil_r | done]. }
  split.
  - destruct (ep_i ep) as [il|] eqn:Hi.
    + rewrite (handle_linked h2 dev d' ep Hl2); [congruence | by rewrite Hi | done].
    + unfold handle. by rewrite Hi.
  - intros Hne h'' Ho. unfold Device_Open, load_dev in Ho. rewrite Hd' in Ho. simpl in Ho.
    destruct (OpenFile w (Bus d') (DeviceNum d')) as [fd [e|]]; [discriminate|].
    injection Ho as <-. simpl.
    apply (handle_linked _ dev (set_f fd d')); [|done|].
    + apply (ep_linked_mono h2 _ dev ep []); [simpl; by rewrite app_nil_r | done].
    + simpl. apply list_lookup_insert_eq. by apply lookup_lt_Some in Hd'.
Qed.

(** X17 on one enumerated device, [twoConfigs], with an opener that accepts
    everything: the device is returned with a nil handle. *)
Lemma OpenDevices_returns_unopened_witness :
  exists h' d,
    OpenDevices (testWorld (1, None) None) 1 ([twoConfigs], None)
      (fun (_ : unit) _ => (tt, true)) tt 0 contextHeap = Ok (h', ([0%nat], None)) /\
    h_devs h' !! 0%nat = Some d /\ f d = None.
Proof.
  destruct (OpenDevices (testWorld (1, None) None) 1 ([twoConfigs], None)
              (fun (_ : unit) _ => (tt, true)) tt 0 contextHeap)
    as [[h' [ret err]]| |] eqn:Ho; try (vm_compute in Ho; discriminate Ho).
  assert (Hr : ret = [0%nat] /\ err = None).
  { pose proof Ho as Ho'. vm_compute in Ho'. by injection Ho' as _ <- <-. }
  destruct Hr as [-> ->].
  destruct (OpenDevices_returns_unopened _ _ _ _ _ _ _ _ _ _ Ho) as (_ & _ & Hall).
  destruct (Hall 0%nat) as (d & arr & Hd & Hf & _); [by left|].
  exists h', d. done.
Defined.

(** ** Finding the path of a device in the metadata filesystem *)

Section SysfsFacts.

Context {F : Type} (fs : sysfs.Files F).

Lemma but_last_nonempty (data : list Z) :
  data <> [] -> sysfs.but_last data = Ok (take (length data - 1) data).
Proof.
  intros Hne. unfold sysfs.but_last. cbv zeta.
  destruct data as [|b data]; [done|].
  destruct (Z.leb_spec 0 (Z.of_nat (length (b :: data)) - 1)) as [_|Hlt];
    [|simpl length in Hlt; lia].
  do 2 f_equal. simpl length. lia.
Qed.

Lemma readAsInt_holds fname n :
  sysfs.holds fs fname n -> sysfs.readAsInt fs fname = Ok (n, None).
Proof.
  intros (data & Hr & Hne & Ha). unfold sysfs.readAsInt.
  rewrite Hr, (but_last_nonempty _ Hne). simpl. by rewrite Ha.
Qed.

Lemma readAsInt_unusable fname :
  sysfs.unusable fs fname -> exists n err, sysfs.readAsInt fs fname = Ok (n, Some err).
Proof.
  intros [(data & err & Hr)|(data & n & err & Hr & Hne & Ha)]; unfold sysfs.readAsInt.
  - rewrite Hr. eauto.
  - rewrite Hr, (but_last_nonempty _ Hne). simpl. rewrite Ha. eauto.
Qed.

Lemma readAsInt_empty fname :
  sysfs.empty fs fname ->
  sysfs.readAsInt fs fname = Panic sysfs.slice_bounds_out_of_range.
Proof. intros Hr. unfold sysfs.readAsInt. by rewrite Hr. Qed.

Lemma file_cases fname :
  sysfs.empty fs fname \/ sysfs.unusable fs fname \/ exists n, sysfs.holds fs fname n.
Proof.
  unfold sysfs.empty, sysfs.unusable, sysfs.holds.
  destruct (sysfs.ReadFile fs fname) as [data [err|]] eqn:Hr.
  { right. left. left. eauto. }
  destruct data as [|b data]; [by left|]. right.
  destruct (sysfs.Atoi fs (take (length (b :: data) - 1) (b :: data))) as [n [err|]] eqn:Ha.
  - left. right. exists (b :: data), n, err. done.
  - right. exists n, (b :: data). done.
Qed.

Lemma visitor_passed_over bus dev v sp :
  sysfs.passed_over fs bus dev v -> sysfs.visitor fs bus dev v sp = Ok (sp, None).
Proof.
  intros (He & Hcases). unfold sysfs.visitor. rewrite He.
  destruct Hcases as [->|(-> & Hcases)]; [done|].
  destruct Hcases as [Hu|(dv & Hdv & Hcases)].
  { destruct (readAsInt_unusable _ Hu) as (n & err & ->). done. }
  rewrite (readAsInt_holds _ _ Hdv). simpl.
  destruct Hcases as [Hu|(bs & Hbs & Hne)].
  { destruct (readAsInt_unusable _ Hu) as (n & err & ->). done. }
  rewrite (readAsInt_holds _ _ Hbs). simpl.
  destruct (Z.eqb_spec bus bs), (Z.eqb_spec dev dv); simpl; try done.
  exfalso. apply Hne. by split.
Qed.

Lemma Walk_passed_over bus dev pre rest sp :
  Forall (sysfs.passed_over fs bus dev) pre ->
  sysfs.Walk (sysfs.visitor fs bus dev) (pre ++ rest) sp =
  sysfs.Walk (sysfs.visitor fs bus dev) rest sp.
Proof.
  induction 1 as [|v pre Hv _ IH]; [done|].
  simpl. by rewrite (visitor_passed_over _ _ _ _ Hv).
Qed.

End SysfsFacts.

(** X18: [readAsInt] parses all but the last byte of the file, whatever
    that byte is; it returns -1 with the error when the file cannot be read
    and panics on a slice bound exactly when the file is empty, as does
    [readAsFloat].  [getSysfsFromBusDev]
    returns the path of the first visited entry that is not a directory and
    whose [devnum] and [busnum] files hold the device and bus number looked
    for; entries whose files cannot be read or parsed, or hold other
    numbers, are passed over.  It returns the empty path when no entry
    matches, and also when the walk reports an error for an entry before
    the first match, whatever comes after; it panics when it meets an empty
    [devnum] or [busnum] file before the first match.  Every visit goes one
    of these four ways. *)
Theorem getSysfsFromBusDev_first_match {F : Type} (fs : sysfs.Files F) (bus dev : Z) :
  (forall fname,
     (forall n, sysfs.holds fs fname n -> sysfs.readAsInt fs fname = Ok (n, None)) /\
     (forall data err, sysfs.ReadFile fs fname = (data, Some err) ->
        sysfs.readAsInt fs fname = Ok (-1, Some err)) /\
     (sysfs.empty fs fname <->
        sysfs.readAsInt fs fname = Panic sysfs.slice_bounds_out_of_range) /\
     (sysfs.empty fs fname <->
        sysfs.readAsFloat fs fname = Panic sysfs.slice_bounds_out_of_range)) /\
  (forall pre v post,
     Forall (sysfs.passed_over fs bus dev) pre ->
     (sysfs.is_match fs bus dev v ->
        sysfs.getSysfsFromBusDev fs (pre ++ v :: post) bus dev = Ok (sysfs.v_path v)) /\
     (is_Some (sysfs.v_err v) ->
        sysfs.getSysfsFromBusDev fs (pre ++ v :: post) bus dev = Ok "") /\
     (sysfs.crashes fs v ->
        sysfs.getSysfsFromBusDev fs (pre ++ v :: post) bus dev
          = Panic sysfs.slice_bounds_out_of_range)) /\
  (forall visits,
     Forall (sysfs.passed_over fs bus dev) visits ->
     sysfs.getSysfsFromBusDev fs visits bus dev = Ok "") /\
  (forall v,
     sysfs.is_match fs bus dev v \/ sysfs.passed_over fs bus dev v \/
     is_Some (sysfs.v_err v) \/ sysfs.crashes fs v).
Proof.
  split; [|split; [|split]].
  - intros fname. split; [apply readAsInt_holds|]. split.
    + intros data err Hr. unfold sysfs.readAsInt. by rewrite Hr.
    + split.
      * split; [apply readAsInt_empty|].
        intros Hp. destruct (file_cases fs fname) as [He|[Hu|[n Hn]]]; [done| |].
        -- destruct (readAsInt_unusable fs _ Hu) as (n & err & Hr). congruence.
        -- rewrite (readAsInt_holds fs _ _ Hn) in Hp. discriminate.
      * unfold sysfs.empty, sysfs.readAsFloat.
        destruct (sysfs.ReadFile fs fname) as [data [err|]]; [split; discriminate|].
        destruct data as [|b data]; [done|].
        rewrite (but_last_nonempty (b :: data)) by done. split; discriminate.
  - intros pre v post Hpre. unfold sysfs.getSysfsFromBusDev.
    rewrite (Walk_passed_over fs _ _ _ _ _ Hpre). simpl.
    split; [|split].
    + intros (He & Hd & Hdv & Hbs). unfold sysfs.visitor. rewrite He, Hd.
      rewrite (readAsInt_holds fs _ _ Hdv). simpl.
      rewrite (readAsInt_holds fs _ _ Hbs). simpl.
      by rewrite !Z.eqb_refl.
    + intros [err He]. unfold sysfs.visitor. by rewrite He.
    + intros (He & Hd & Hcases). unfold sysfs.visitor. rewrite He, Hd.
      destruct Hcases as [Hem|(dv & Hdv & Hem)].
      * by rewrite (readAsInt_empty fs _ Hem).
      * rewrite (readAsInt_holds fs _ _ Hdv). simpl.
        by rewrite (readAsInt_empty fs _ Hem).
  - intros visits Hall. unfold sysfs.getSysfsFromBusDev.
    rewrite <- (app_nil_r visits). by rewrite (Walk_passed_over fs _ _ _ _ _ Hall).
  - intros v. unfold sysfs.is_match, sysfs.passed_over, sysfs.crashes.
    destruct (sysfs.v_err v) as [err|]; [right; right; left; eauto|].
    destruct (sysfs.v_IsDir v); [right; left; split; [done | by left]|].
    destruct (file_cases fs (sysfs.Join fs (sysfs.v_path v) "devnum")) as [He|[Hu|[dv Hdv]]].
    { right. right. right. split; [done|]. split; [done|]. by left. }
    { right. left. split; [done|]. right. split; [done|]. by left. }
    destruct (file_cases fs (sysfs.Join fs (sysfs.v_path v) "busnum")) as [He|[Hu|[bs Hbs]]].
    { right. right. right. split; [done|]. split; [done|]. right. eauto. }
    { right. left. split; [done|]. right. split; [done|]. right. eauto. }
    destruct (decide (bs = bus /\ dv = dev)) as [[-> ->]|Hne].
    + left. done.
    + right. left. split; [done|]. right. split; [done|]. right.
      exists dv. split; [done|]. right. exists bs. done.
Qed.
